(** * CalPal: AI-response normalisation, auth reconciliation, billing set-up

    A shallow embedding of
    - [src/services/geminiService.ts]  (the four Gemini analysis operations),
    - [src/app/index.tsx]              (the [AuthProvider] context),
    - [src/unnamed/part_001]           (the RevenueCat configuration module),
    with the JavaScript run-time notions they rely on: dynamically typed
    values, [typeof], truthiness, property access, [String.prototype.match]
    for the regular expressions of the source, and [JSON.parse]. *)

From Stdlib Require Import String Ascii List Bool Arith ZArith QArith Lia.
Import ListNotations.
Open Scope string_scope.

Set Implicit Arguments.
#[local] Set Warnings "-register-all".

(** ** JavaScript values *)

(** A run-time value as [JSON.parse] can produce it, plus [undefined].
    A number is the exact rational denoted by its literal (rounding to a
    double is not modelled); a string is its UTF-8 byte sequence; an object
    is the list of its own properties, keys unique, in insertion order. *)
Inductive JsValue : Type :=
| JUndefined
| JNull
| JBool (b : bool)
| JNum (q : Q)
| JStr (s : string)
| JArr (items : list JsValue)
| JObj (fields : list (string * JsValue)).

(** [typeof v] *)
Definition typeof (v : JsValue) : string :=
  match v with
  | JUndefined => "undefined"
  | JNull => "object"
  | JBool _ => "boolean"
  | JNum _ => "number"
  | JStr _ => "string"
  | JArr _ => "object"
  | JObj _ => "object"
  end.

(** [Array.isArray(v)] *)
Definition Array_isArray (v : JsValue) : bool :=
  match v with JArr _ => true | _ => false end.

Definition Q_is_zero (q : Q) : bool := (Qnum q =? 0)%Z.

(** ToBoolean: [undefined], [null], [false], zero and the empty string are
    falsy, everything else (every array and object included) is truthy. *)
Definition truthy (v : JsValue) : bool :=
  match v with
  | JUndefined => false
  | JNull => false
  | JBool b => b
  | JNum q => negb (Q_is_zero q)
  | JStr s => negb (s =? "")
  | JArr _ => true
  | JObj _ => true
  end.

(** [a || b] on values *)
Definition js_or (a b : JsValue) : JsValue := if truthy a then a else b.

(** Own-property lookup in a property list. *)
Fixpoint lookup (k : string) (fields : list (string * JsValue)) : option JsValue :=
  match fields with
  | [] => None
  | (k', v) :: rest => if k' =? k then Some v else lookup k rest
  end.

(** [obj[k] = v] on a property list: overwrite in place, else append. *)
Fixpoint set_field (k : string) (v : JsValue) (fields : list (string * JsValue))
  : list (string * JsValue) :=
  match fields with
  | [] => [(k, v)]
  | (k', v') :: rest =>
      if k' =? k then (k', v) :: rest else (k', v') :: set_field k v rest
  end.

(** [v.name] for the property names the sources read ([candidates],
    [content], [parts], [text], [title], [items], [calories], ...), none of
    which lives on a built-in prototype: reading it off [null] or
    [undefined] raises a TypeError ([None]); off an object it is the own
    property or [undefined]; off any other value it is [undefined]. *)
Definition get_prop (v : JsValue) (name : string) : option JsValue :=
  match v with
  | JUndefined | JNull => None
  | JObj fields =>
      Some (match lookup name fields with Some x => x | None => JUndefined end)
  | _ => Some JUndefined
  end.

(** [v[0]] *)
Definition get_index0 (v : JsValue) : option JsValue :=
  match v with
  | JUndefined | JNull => None
  | JArr items => Some (match items with x :: _ => x | [] => JUndefined end)
  | JStr s =>
      Some (match s with String c _ => JStr (String c "") | "" => JUndefined end)
  | JObj fields =>
      Some (match lookup "0" fields with Some x => x | None => JUndefined end)
  | _ => Some JUndefined
  end.

(** ** The regular expressions of the source

    Every pattern in [geminiService.ts] has the shape
    [opening  [\s\S]*  closing] with a lazy ([*?]) or greedy ([*]) star,
    with or without a capture group around the star. *)

Record RegExp : Type := {
  opening : string;
  lazy_star : bool;
  closing : string;
  has_group : bool
}.

(** The array returned by a successful [match]: index 0 and index 1. *)
Record MatchArray : Type := {
  whole : string;
  group1 : option string
}.

Fixpoint strip_prefix (p s : string) : option string :=
  match p with
  | "" => Some s
  | String a p' =>
      match s with
      | "" => None
      | String b s' => if Ascii.eqb a b then strip_prefix p' s' else None
      end
  end.

(** [[\s\S]*?closing] from the current position: the shortest run of
    arbitrary characters after which [closing] follows. *)
Fixpoint star_lazy (cl s : string) : option (string * string) :=
  match strip_prefix cl s with
  | Some rest => Some ("", rest)
  | None =>
      match s with
      | "" => None
      | String c s' =>
          match star_lazy cl s' with
          | Some (cap, rest) => Some (String c cap, rest)
          | None => None
          end
      end
  end.

(** [[\s\S]*closing]: the longest run, found by giving characters back. *)
Fixpoint star_greedy (cl s : string) : option (string * string) :=
  match s with
  | "" => match strip_prefix cl s with Some rest => Some ("", rest) | None => None end
  | String c s' =>
      match star_greedy cl s' with
      | Some (cap, rest) => Some (String c cap, rest)
      | None =>
          match strip_prefix cl s with
          | Some rest => Some ("", rest)
          | None => None
          end
      end
  end.

(** One attempt of the pattern at the start of [s]. *)
Definition match_here (re : RegExp) (s : string) : option MatchArray :=
  match strip_prefix (opening re) s with
  | None => None
  | Some s1 =>
      match (if lazy_star re then star_lazy else star_greedy) (closing re) s1 with
      | None => None
      | Some (cap, _) =>
          Some {| whole := opening re ++ cap ++ closing re;
                  group1 := if has_group re then Some cap else None |}
      end
  end.

(** [s.match(re)] for a pattern without the [g] flag: the attempt at the
    leftmost start position that succeeds, [None] for [null]. *)
Fixpoint str_match (re : RegExp) (s : string) : option MatchArray :=
  match match_here re s with
  | Some m => Some m
  | None =>
      match s with
      | "" => None
      | String _ s' => str_match re s'
      end
  end.

Definition LF : string := String (ascii_of_nat 10) "".

(** [/```json\n([\s\S]*?)\n```/] *)
Definition re_fenced_json : RegExp :=
  {| opening := "```json" ++ LF; lazy_star := true;
     closing := LF ++ "```"; has_group := true |}.

(** [/```([\s\S]*?)```/] *)
Definition re_fenced : RegExp :=
  {| opening := "```"; lazy_star := true; closing := "```"; has_group := true |}.

(** [/{[\s\S]*?}/] *)
Definition re_braces_lazy : RegExp :=
  {| opening := "{"; lazy_star := true; closing := "}"; has_group := false |}.

(** [/\{[\s\S]*\}/] *)
Definition re_braces_greedy : RegExp :=
  {| opening := "{"; lazy_star := false; closing := "}"; has_group := false |}.

(** [a || b] on the results of two [match] calls ([null] is falsy, an
    array is truthy). *)
Definition or_match (a b : option MatchArray) : option MatchArray :=
  match a with Some m => Some m | None => b end.

(** [jsonMatch[1] || jsonMatch[0]]: an absent or empty group falls back to
    the whole match. *)
Definition jsonStr_of (m : MatchArray) : string :=
  match group1 m with
  | Some g => if g =? "" then whole m else g
  | None => whole m
  end.

(** ** [JSON.parse]

    A recursive-descent reader for the JSON grammar (ECMA-404), the
    grammar [JSON.parse] accepts; [None] stands for the SyntaxError it
    raises. *)

Definition chr (n : nat) : ascii := ascii_of_nat n.
Definition DQUOTE : ascii := chr 34.

(** Writes a JSON text legibly: every ['] stands for a double quote. *)
Fixpoint dq (s : string) : string :=
  match s with
  | "" => ""
  | String c r => String (if Ascii.eqb c "'" then DQUOTE else c) (dq r)
  end.

Definition is_ws (c : ascii) : bool :=
  let n := nat_of_ascii c in
  ((n =? 32) || (n =? 9) || (n =? 10) || (n =? 13))%nat.

Fixpoint skip_ws (s : string) : string :=
  match s with
  | String c r => if is_ws c then skip_ws r else s
  | "" => ""
  end.

Definition digit_val (c : ascii) : option Z :=
  let n := nat_of_ascii c in
  if ((48 <=? n) && (n <=? 57))%nat then Some (Z.of_nat (n - 48)) else None.

Definition hex_val (c : ascii) : option N :=
  let n := nat_of_ascii c in
  if ((48 <=? n) && (n <=? 57))%nat then Some (N.of_nat (n - 48))
  else if ((65 <=? n) && (n <=? 70))%nat then Some (N.of_nat (n - 55))
  else if ((97 <=? n) && (n <=? 102))%nat then Some (N.of_nat (n - 87))
  else None.

Fixpoint take_digits (s : string) : list Z * string :=
  match s with
  | String c r =>
      match digit_val c with
      | Some d => let '(ds, r') := take_digits r in (d :: ds, r')
      | None => ([], s)
      end
  | "" => ([], "")
  end.

Definition digits_value (ds : list Z) : Z :=
  fold_left (fun acc d => acc * 10 + d)%Z ds 0%Z.

(** The rational [m * 10^e], in lowest terms. *)
Definition Q_of_decimal (m e : Z) : Q :=
  Qred (if (0 <=? e)%Z then Qmake (m * 10 ^ e) 1
        else Qmake m (Z.to_pos (10 ^ (- e)))).

(** [-]? *)
Definition read_sign (s : string) : bool * string :=
  match s with
  | String c r => if Ascii.eqb c "-" then (true, r) else (false, s)
  | "" => (false, s)
  end.

(** int = 0 | [1-9][0-9]* *)
Definition read_int (s : string) : option (list Z * string) :=
  match s with
  | "" => None
  | String c r =>
      match digit_val c with
      | None => None
      | Some d =>
          if (d =? 0)%Z then Some ([d], r)
          else let '(ds, r') := take_digits r in Some (d :: ds, r')
      end
  end.

(** frac = (. [0-9]+)? *)
Definition read_frac (s : string) : option (list Z * string) :=
  match s with
  | String c r =>
      if Ascii.eqb c "."
      then match take_digits r with
           | ([], _) => None
           | (ds, r') => Some (ds, r')
           end
      else Some ([], s)
  | "" => Some ([], s)
  end.

(** exp = ([eE] [+-]? [0-9]+)? *)
Definition read_exp (s : string) : option (Z * string) :=
  match s with
  | String c r =>
      if Ascii.eqb c "e" || Ascii.eqb c "E"
      then
        let '(eneg, r1) :=
          match r with
          | String c1 r1 =>
              if Ascii.eqb c1 "-" then (true, r1)
              else if Ascii.eqb c1 "+" then (false, r1)
              else (false, r)
          | "" => (false, r)
          end in
        match take_digits r1 with
        | ([], _) => None
        | (ds, r2) =>
            Some (if eneg then (- digits_value ds)%Z else digits_value ds, r2)
        end
      else Some (0%Z, s)
  | "" => Some (0%Z, s)
  end.

(** number = [-]? int frac exp *)
Definition parse_number (s : string) : option (Q * string) :=
  let '(neg, s1) := read_sign s in
  match read_int s1 with
  | None => None
  | Some (int_ds, s2) =>
      match read_frac s2 with
      | None => None
      | Some (frac_ds, s3) =>
          match read_exp s3 with
          | None => None
          | Some (e, s4) =>
              let m := digits_value (int_ds ++ frac_ds) in
              Some (Q_of_decimal (if neg then (- m)%Z else m)
                                 (e - Z.of_nat (List.length frac_ds)),
                    s4)
          end
      end
  end.

(** What a string literal is made of: bytes copied from the input, and
    UTF-16 code units written as [\uXXXX]. *)
Inductive StrItem : Type :=
| RawByte (c : ascii)
| CodeUnit (n : N).

Definition simple_escape (e : ascii) : option ascii :=
  if Ascii.eqb e DQUOTE then Some DQUOTE
  else if Ascii.eqb e "\" then Some "\"%char
  else if Ascii.eqb e "/" then Some "/"%char
  else if Ascii.eqb e "b" then Some (chr 8)
  else if Ascii.eqb e "f" then Some (chr 12)
  else if Ascii.eqb e "n" then Some (chr 10)
  else if Ascii.eqb e "r" then Some (chr 13)
  else if Ascii.eqb e "t" then Some (chr 9)
  else None.

Definition hex4 (a b c d : ascii) : option N :=
  match hex_val a, hex_val b, hex_val c, hex_val d with
  | Some x, Some y, Some z, Some w => Some (((x * 16 + y) * 16 + z) * 16 + w)%N
  | _, _, _, _ => None
  end.

(** The characters of a string literal after its opening quote, up to and
    including the closing quote. *)
Fixpoint parse_string_items (s : string) : option (list StrItem * string) :=
  match s with
  | "" => None
  | String c r =>
      if Ascii.eqb c DQUOTE then Some ([], r)
      else if Ascii.eqb c "\" then
        match r with
        | "" => None
        | String e r2 =>
            match simple_escape e with
            | Some ch =>
                match parse_string_items r2 with
                | Some (items, rest) => Some (RawByte ch :: items, rest)
                | None => None
                end
            | None =>
                if Ascii.eqb e "u" then
                  match r2 with
                  | String h1 (String h2 (String h3 (String h4 r3))) =>
                      match hex4 h1 h2 h3 h4 with
                      | Some n =>
                          match parse_string_items r3 with
                          | Some (items, rest) => Some (CodeUnit n :: items, rest)
                          | None => None
                          end
                      | None => None
                      end
                  | _ => None
                  end
                else None
            end
        end
      else if (nat_of_ascii c <? 32)%nat then None
      else
        match parse_string_items r with
        | Some (items, rest) => Some (RawByte c :: items, rest)
        | None => None
        end
  end.

Definition byte (n : N) : ascii := ascii_of_N n.

(** UTF-8 encoding of a code point (a lone surrogate is encoded like any
    other three-byte code point). *)
Definition utf8 (n : N) : string :=
  (if n <? 128 then String (byte n) ""
   else if n <? 2048 then
     String (byte (192 + n / 64)) (String (byte (128 + n mod 64)) "")
   else if n <? 65536 then
     String (byte (224 + n / 4096))
       (String (byte (128 + (n / 64) mod 64)) (String (byte (128 + n mod 64)) ""))
   else
     String (byte (240 + n / 262144))
       (String (byte (128 + (n / 4096) mod 64))
          (String (byte (128 + (n / 64) mod 64))
             (String (byte (128 + n mod 64)) ""))))%N.

Definition is_high_surrogate (n : N) : bool := ((55296 <=? n) && (n <=? 56319))%N.
Definition is_low_surrogate (n : N) : bool := ((56320 <=? n) && (n <=? 57343))%N.

Fixpoint encode_items (l : list StrItem) : string :=
  match l with
  | [] => ""
  | RawByte c :: r => String c (encode_items r)
  | CodeUnit hi :: r =>
      match r with
      | CodeUnit lo :: r' =>
          if is_high_surrogate hi && is_low_surrogate lo
          then utf8 (65536 + (hi - 55296) * 1024 + (lo - 56320))%N ++ encode_items r'
          else utf8 hi ++ encode_items r
      | _ => utf8 hi ++ encode_items r
      end
  end.

(** string = quote chars quote, from the opening quote. *)
Definition parse_string (s : string) : option (string * string) :=
  match s with
  | String c r =>
      if Ascii.eqb c DQUOTE then
        match parse_string_items r with
        | Some (items, rest) => Some (encode_items items, rest)
        | None => None
        end
      else None
  | "" => None
  end.

(** value, elements and members; [fuel] bounds the number of nested and
    successive calls, each of which consumes at least one character. *)
Fixpoint parse_value (fuel : nat) (s : string) : option (JsValue * string) :=
  match fuel with
  | O => None
  | S fuel' =>
      let s0 := skip_ws s in
      match s0 with
      | "" => None
      | String c r =>
          if Ascii.eqb c "{" then
            match skip_ws r with
            | String c2 r2 =>
                if Ascii.eqb c2 "}" then Some (JObj [], r2)
                else parse_members fuel' r []
            | "" => None
            end
          else if Ascii.eqb c "[" then
            match skip_ws r with
            | String c2 r2 =>
                if Ascii.eqb c2 "]" then Some (JArr [], r2)
                else parse_elements fuel' r []
            | "" => None
            end
          else if Ascii.eqb c DQUOTE then
            match parse_string s0 with
            | Some (str, rest) => Some (JStr str, rest)
            | None => None
            end
          else
            match strip_prefix "true" s0 with
            | Some rest => Some (JBool true, rest)
            | None =>
            match strip_prefix "false" s0 with
            | Some rest => Some (JBool false, rest)
            | None =>
            match strip_prefix "null" s0 with
            | Some rest => Some (JNull, rest)
            | None =>
            match parse_number s0 with
            | Some (q, rest) => Some (JNum q, rest)
            | None => None
            end end end end
      end
  end

with parse_elements (fuel : nat) (s : string) (acc : list JsValue)
  : option (JsValue * string) :=
  match fuel with
  | O => None
  | S fuel' =>
      match parse_value fuel' s with
      | None => None
      | Some (v, r) =>
          match skip_ws r with
          | String c r2 =>
              if Ascii.eqb c "," then parse_elements fuel' r2 (acc ++ [v])
              else if Ascii.eqb c "]" then Some (JArr (acc ++ [v]), r2)
              else None
          | "" => None
          end
      end
  end

with parse_members (fuel : nat) (s : string) (acc : list (string * JsValue))
  : option (JsValue * string) :=
  match fuel with
  | O => None
  | S fuel' =>
      match parse_string (skip_ws s) with
      | None => None
      | Some (k, r) =>
          match skip_ws r with
          | String c r2 =>
              if Ascii.eqb c ":" then
                match parse_value fuel' r2 with
                | None => None
                | Some (v, r3) =>
                    match skip_ws r3 with
                    | String c3 r4 =>
                        if Ascii.eqb c3 "," then
                          parse_members fuel' r4 (set_field k v acc)
                        else if Ascii.eqb c3 "}" then
                          Some (JObj (set_field k v acc), r4)
                        else None
                    | "" => None
                    end
                end
              else None
          | "" => None
          end
      end
  end.

(** [JSON.parse(s)]: one value, nothing but white space around it. *)
Definition JSON_parse (s : string) : option JsValue :=
  match parse_value (2 * String.length s + 2) s with
  | Some (v, rest) =>
      match skip_ws rest with
      | "" => Some v
      | _ => None
      end
  | None => None
  end.

(** The payload of the spec's food example. *)
Definition salad_payload : string :=
  Eval cbv in
  dq "{'title':'Salad','items':['lettuce'],'calories':'oops','protein':5,'carbs':10,'fats':2}".

(** ** Effects of the analysis operations

    The only effect a claim observes is the network: a computation yields
    the calls it made, in order, and a value or an exception ([None]). *)

Inductive Call : Type :=
| Fetch (url : string)
| GenerateContent (model : string).

Definition Eff (A : Type) : Type := (list Call * option A)%type.

Definition ret {A} (a : A) : Eff A := ([], Some a).
Definition throw {A} : Eff A := ([], None).
Definition tell (c : Call) : Eff unit := ([c], Some tt).
Definition lift {A} (o : option A) : Eff A := ([], o).

Definition bind {A B} (m : Eff A) (k : A -> Eff B) : Eff B :=
  match m with
  | (cs, Some a) => let '(cs', r) := k a in (cs ++ cs', r)%list
  | (cs, None) => (cs, None)
  end.

Notation "x <- m ;; k" := (bind m (fun x => k))
  (at level 61, m at next level, right associativity).
Notation "m ;;; k" := (bind m (fun _ => k))
  (at level 61, right associativity).

(** [try { m } catch (error) { return dflt }] *)
Definition try_catch {A} (m : Eff A) (dflt : A) : list Call * A :=
  match m with
  | (cs, Some a) => (cs, a)
  | (cs, None) => (cs, dflt)
  end.

(** What the outside world answers. *)
Inductive FetchReply : Type :=
| FetchRejects
| FetchResponse (ok : bool) (body : string).

Inductive SdkReply : Type :=
| SdkRejects
| SdkText (text : string).

Record World : Type := {
  EXPO_PUBLIC_GEMINI_API_KEY : option string;
  fetch : string -> FetchReply;
  generateContent : string -> SdkReply
}.

(** [!process.env.EXPO_PUBLIC_GEMINI_API_KEY] *)
Definition key_missing (w : World) : bool :=
  match EXPO_PUBLIC_GEMINI_API_KEY w with
  | None => true
  | Some k => k =? ""
  end.

Definition apiUrl : string :=
  "https://generativelanguage.googleapis.com/v1beta/models/gemini-2.0-flash:generateContent".

(** [`${apiUrl}?key=${process.env.EXPO_PUBLIC_GEMINI_API_KEY}`] *)
Definition request_url (w : World) : string :=
  apiUrl ++ "?key=" ++
  match EXPO_PUBLIC_GEMINI_API_KEY w with Some k => k | None => "undefined" end.

(** [data.candidates[0].content.parts[0].text] *)
Definition text_of_data (data : JsValue) : option JsValue :=
  match get_prop data "candidates" with None => None | Some cands =>
  match get_index0 cands with None => None | Some cand =>
  match get_prop cand "content" with None => None | Some content =>
  match get_prop content "parts" with None => None | Some parts =>
  match get_index0 parts with None => None | Some part =>
  get_prop part "text" end end end end end.

(** [response.json()] followed by the property path above. *)
Definition textContent_of_body (body : string) : option JsValue :=
  match JSON_parse body with
  | Some data => text_of_data data
  | None => None
  end.

(** The [fetch] call and the reading of its reply, the same in
    [analyzeFoodImage] (l.138-156), [getNutritionRecommendations]
    (l.302-320) and [analyzeWeightTrends] (l.526-544). The request body
    (prompt, image) is not modelled: the reply is whatever the world
    answers. *)
Definition fetch_textContent (w : World) : Eff JsValue :=
  let url := request_url w in
  tell (Fetch url) ;;;
  match fetch w url with
  | FetchRejects => throw
  | FetchResponse ok body =>
      if negb ok then throw else lift (textContent_of_body body)
  end.

(** The receiver of [.match(...)]: only a string has that method. *)
Definition as_string (v : JsValue) : Eff string :=
  match v with JStr s => ret s | _ => throw end.

(** [textContent.match(/```json\n([\s\S]*?)\n```/) ||
     textContent.match(/```([\s\S]*?)```/) ||
     textContent.match(/{[\s\S]*?}/)]  (l.160-163, l.324-327, l.548-551) *)
Definition jsonMatch (textContent : string) : option MatchArray :=
  or_match (or_match (str_match re_fenced_json textContent)
                     (str_match re_fenced textContent))
           (str_match re_braces_lazy textContent).

(** [if (jsonMatch) { try { parsedResult = JSON.parse(jsonMatch[1] ||
    jsonMatch[0]) } catch { parsedResult = dflt } } else { parsedResult =
    dflt }] *)
Definition parsedResult_of (jm : option MatchArray) (dflt : JsValue) : JsValue :=
  match jm with
  | Some m =>
      match JSON_parse (jsonStr_of m) with
      | Some v => v
      | None => dflt
      end
  | None => dflt
  end.

(** ** [analyzeFoodImage] *)

Definition createDefaultResult : JsValue :=
  JObj [("title", JStr "Unknown Meal");
        ("items", JArr [JStr "Unknown food item"]);
        ("calories", JNum 0); ("protein", JNum 0);
        ("carbs", JNum 0); ("fats", JNum 0)].

(** [typeof v === "number" ? v : d] *)
Definition number_or (v : JsValue) (d : Q) : JsValue :=
  if typeof v =? "number" then v else JNum d.

(** The object literal returned at l.184-198; [None] is the TypeError of
    reading a property off [null]. *)
Definition food_fields (parsedResult : JsValue) : option JsValue :=
  match get_prop parsedResult "title", get_prop parsedResult "items",
        get_prop parsedResult "calories", get_prop parsedResult "protein",
        get_prop parsedResult "carbs", get_prop parsedResult "fats" with
  | Some title, Some items, Some calories, Some protein, Some carbs, Some fats =>
      Some (JObj [("title", if typeof title =? "string" then title
                            else JStr "Unknown Meal");
                  ("items", if Array_isArray items then items
                            else JArr [JStr "Unknown food item"]);
                  ("calories", number_or calories 0);
                  ("protein", number_or protein 0);
                  ("carbs", number_or carbs 0);
                  ("fats", number_or fats 0)])
  | _, _, _, _, _, _ => None
  end.

Definition analyzeFoodImage_try (w : World) (base64Image : string) : Eff JsValue :=
  if key_missing w then ret createDefaultResult
  else
    textContent <- fetch_textContent w ;;
    text <- as_string textContent ;;
    let parsedResult := parsedResult_of (jsonMatch text) createDefaultResult in
    lift (food_fields parsedResult).

Definition analyzeFoodImage (w : World) (base64Image : string) : list Call * JsValue :=
  try_catch (analyzeFoodImage_try w base64Image) createDefaultResult.

(** ** [getNutritionRecommendations] *)

(** [UserStats] is declared in [hooks/useProfile]; at run time an object,
    which only feeds the prompt. *)
Definition UserStats : Type := list (string * JsValue).

Definition createDefaultNutritionGoals : JsValue :=
  JObj [("calories", JNum 2000); ("protein", JNum 150);
        ("carbs", JNum 200); ("fats", JNum 65)].

(** The object literal returned at l.351-360. *)
Definition nutrition_fields (parsedResult : JsValue) : option JsValue :=
  match get_prop parsedResult "calories", get_prop parsedResult "protein",
        get_prop parsedResult "carbs", get_prop parsedResult "fats" with
  | Some calories, Some protein, Some carbs, Some fats =>
      Some (JObj [("calories", number_or calories 2000);
                  ("protein", number_or protein 150);
                  ("carbs", number_or carbs 200);
                  ("fats", number_or fats 65)])
  | _, _, _, _ => None
  end.

Definition getNutritionRecommendations_try
  (w : World) (userStats : UserStats) (geminiData : JsValue) : Eff JsValue :=
  if key_missing w then ret createDefaultNutritionGoals
  else
    textContent <- fetch_textContent w ;;
    text <- as_string textContent ;;
    let parsedResult :=
      parsedResult_of (jsonMatch text) createDefaultNutritionGoals in
    lift (nutrition_fields parsedResult).

Definition getNutritionRecommendations
  (w : World) (userStats : UserStats) (geminiData : JsValue) : list Call * JsValue :=
  try_catch (getNutritionRecommendations_try w userStats geminiData)
            createDefaultNutritionGoals.

(** ** [analyzeExercise] *)

Record ExerciseData : Type := {
  type : string;
  duration : Q;
  description : string;
  userStats : UserStats;
  intensity : string
}.

(** [`${exerciseData.type} (${exerciseData.intensity || "Moderate"})`] *)
Definition exerciseTitle (exerciseData : ExerciseData) : string :=
  type exerciseData ++ " (" ++
  (if intensity exerciseData =? "" then "Moderate" else intensity exerciseData)
  ++ ")".

(** The object returned by the [catch] block (l.441-445). *)
Definition exerciseFallback (exerciseData : ExerciseData) : JsValue :=
  JObj [("title", JStr (exerciseTitle exerciseData));
        ("caloriesBurned", JNum 0);
        ("description", JStr (description exerciseData))].

(** The object literal returned at l.432-438. *)
Definition exercise_fields (exerciseData : ExerciseData) (parsedResult : JsValue)
  : option JsValue :=
  match get_prop parsedResult "title", get_prop parsedResult "caloriesBurned",
        get_prop parsedResult "description" with
  | Some title, Some caloriesBurned, Some descr =>
      Some (JObj [("title", js_or title (JStr (exerciseTitle exerciseData)));
                  ("caloriesBurned", js_or caloriesBurned (JNum 0));
                  ("description",
                   js_or descr (JStr (description exerciseData)))])
  | _, _, _ => None
  end.

Definition analyzeExercise_try (w : World) (exerciseData : ExerciseData) : Eff JsValue :=
  if key_missing w then throw
  else
    tell (GenerateContent "gemini-2.0-flash") ;;;
    match generateContent w "gemini-2.0-flash" with
    | SdkRejects => throw
    | SdkText text =>
        match str_match re_braces_greedy text with
        | None => throw
        | Some jsonMatch =>
            parsedResult <- lift (JSON_parse (whole jsonMatch)) ;;
            lift (exercise_fields exerciseData parsedResult)
        end
    end.

Definition analyzeExercise (w : World) (exerciseData : ExerciseData) : list Call * JsValue :=
  try_catch (analyzeExercise_try w exerciseData) (exerciseFallback exerciseData).

(** ** [analyzeWeightTrends] *)

(** A [Date]: [toISOString()] gives a string, or raises a RangeError on an
    invalid date. *)
Inductive JsDate : Type :=
| ValidDate (iso : string)
| InvalidDate.

Record WeightEntry : Type := {
  weight : Q;
  date : JsDate
}.

Definition date_is_invalid (e : WeightEntry) : bool :=
  match date e with InvalidDate => true | ValidDate _ => false end.

(** The object returned when fewer than two samples are given (l.463-469). *)
Definition notEnoughData : JsValue :=
  JObj [("trend", JStr "maintaining");
        ("averageWeeklyChange", JNum 0);
        ("feedback",
         JStr "Not enough data to analyze trends. Keep logging your weight regularly.");
        ("recommendedActions",
         JArr [JStr "Continue logging your weight daily or weekly"])].

Definition createDefaultWeightAnalysis : JsValue :=
  JObj [("trend", JStr "maintaining");
        ("averageWeeklyChange", JNum 0);
        ("feedback",
         JStr "We couldn't analyze your weight trends at this time. Keep logging your weight regularly.");
        ("recommendedActions",
         JArr [JStr "Continue logging your weight daily or weekly";
               JStr "Stay consistent with your nutrition plan";
               JStr "Make sure to track all your meals and exercises"])].

Definition analyzeWeightTrends_try
  (w : World) (weightData : list WeightEntry) (goalWeight : Q) (weeklyGoal : string)
  : Eff JsValue :=
  if (List.length weightData <? 2)%nat then ret notEnoughData
  else if key_missing w then throw
  else
    (if existsb date_is_invalid weightData then throw else ret tt) ;;;
    textContent <- fetch_textContent w ;;
    text <- as_string textContent ;;
    ret (parsedResult_of (jsonMatch text) createDefaultWeightAnalysis).

Definition analyzeWeightTrends
  (w : World) (weightData : list WeightEntry) (goalWeight : Q) (weeklyGoal : string)
  : list Call * JsValue :=
  try_catch (analyzeWeightTrends_try w weightData goalWeight weeklyGoal)
            createDefaultWeightAnalysis.

(** ** Replies used in examples *)

(** A JSON string literal denoting [s] (quotes, backslashes and line
    feeds escaped). *)
Fixpoint json_escape (s : string) : string :=
  match s with
  | "" => ""
  | String c r =>
      if Ascii.eqb c DQUOTE then String "\" (String DQUOTE (json_escape r))
      else if Ascii.eqb c "\" then String "\" (String "\" (json_escape r))
      else if Ascii.eqb c (chr 10) then String "\" (String "n" (json_escape r))
      else String c (json_escape r)
  end.

(** The body of a successful Gemini reply whose first candidate says [text]. *)
Definition gemini_body (text : string) : string :=
  dq "{'candidates':[{'content':{'parts':[{'text':'" ++ json_escape text
  ++ dq "'}]}}]}".

Definition world_replying (text : string) : World :=
  {| EXPO_PUBLIC_GEMINI_API_KEY := Some "k";
     fetch := fun _ => FetchResponse true (gemini_body text);
     generateContent := fun _ => SdkText text |}.


(** ** The Auth Reconciler ([AuthProvider], src/app/index.tsx l.224-390) *)

Module Auth.

Record FirebaseUser : Type := {
  uid : string;
  fb_email : option string
}.

(** [type User = { id: string; email: string | null } | null] *)
Record User : Type := {
  id : string;
  email : option string
}.

Record AuthSession : Type := {
  userId : string;
  session_email : option string;
  lastLogin : Z
}.

(** A thrown value: its [code] property, if any, and its message. *)
Record JsError : Type := {
  code : option string;
  message : string
}.

Definition AUTH_SESSION_KEY : string := "calpal_auth_session".

(** The four [useState] cells of the provider. *)
Record AuthState : Type := {
  user : option User;
  isLoading : bool;
  authReady : bool;
  initializing : bool
}.

(** [useState(null)], [useState(true)], [useState(false)], [useState(true)] *)
Definition initial : AuthState :=
  {| user := None; isLoading := true; authReady := false; initializing := true |}.

(** What an operation does, in order: state-setter calls, storage calls
    and navigation. *)
Inductive Effect : Type :=
| SetUser (u : option User)
| SetIsLoading (b : bool)
| SetAuthReady (b : bool)
| SetInitializing (b : bool)
| RemoveItem (key : string)
| SetItem (key : string) (session : AuthSession)
| RouterReplace (href : string).

(** The answers of Firebase Auth, AsyncStorage and the clock during one
    operation; [None] in an [option JsError] means the promise resolves. *)
Record Remote : Type := {
  signInWithEmailAndPassword : string -> string -> JsError + FirebaseUser;
  createUserWithEmailAndPassword : string -> string -> JsError + FirebaseUser;
  firebaseSignOut : option JsError;
  deleteUser : FirebaseUser -> option JsError;
  currentUser : option FirebaseUser;
  removeItem : string -> option JsError;
  setItem : string -> AuthSession -> option JsError;
  Date_now : Z
}.

(** State, log and exceptions. *)
Definition M (A : Type) : Type :=
  AuthState -> (list Effect * AuthState * (JsError + A))%type.

Definition mret {A} (a : A) : M A := fun s => ([], s, inr a).
Definition raise {A} (e : JsError) : M A := fun s => ([], s, inl e).

Definition mbind {A B} (m : M A) (k : A -> M B) : M B :=
  fun s =>
    match m s with
    | (l1, s1, inr a) =>
        match k a s1 with (l2, s2, r) => ((l1 ++ l2)%list, s2, r) end
    | (l1, s1, inl e) => (l1, s1, inl e)
    end.

(** [try { m } catch (error) { h error }] *)
Definition catch {A} (m : M A) (h : JsError -> M A) : M A :=
  fun s =>
    match m s with
    | (l1, s1, inl e) =>
        match h e s1 with (l2, s2, r) => ((l1 ++ l2)%list, s2, r) end
    | done => done
    end.

Definition emit (e : Effect) : M unit := fun s => ([e], s, inr tt).
Definition of_reply (o : option JsError) : M unit :=
  match o with Some e => raise e | None => mret tt end.

Definition setUser (u : option User) : M unit :=
  fun s => ([SetUser u],
            {| user := u; isLoading := isLoading s;
               authReady := authReady s; initializing := initializing s |},
            inr tt).
Definition setIsLoading (b : bool) : M unit :=
  fun s => ([SetIsLoading b],
            {| user := user s; isLoading := b;
               authReady := authReady s; initializing := initializing s |},
            inr tt).
Definition setAuthReady (b : bool) : M unit :=
  fun s => ([SetAuthReady b],
            {| user := user s; isLoading := isLoading s;
               authReady := b; initializing := initializing s |},
            inr tt).
Definition setInitializing (b : bool) : M unit :=
  fun s => ([SetInitializing b],
            {| user := user s; isLoading := isLoading s;
               authReady := authReady s; initializing := b |},
            inr tt).

Notation "m >> k" := (mbind m (fun _ => k))
  (at level 62, right associativity).

(** [formatUser] (l.180-187) *)
Definition formatUser (firebaseUser : option FirebaseUser) : option User :=
  match firebaseUser with
  | None => None
  | Some fu => Some {| id := uid fu; email := fb_email fu |}
  end.

(** [saveAuthSession] (l.190-208): removal is awaited bare, the write is
    wrapped in a [try] whose [catch] only logs. *)
Definition saveAuthSession (r : Remote) (u : option User) : M unit :=
  match u with
  | None =>
      emit (RemoveItem AUTH_SESSION_KEY) >>
      of_reply (removeItem r AUTH_SESSION_KEY)
  | Some usr =>
      let session := {| userId := id usr; session_email := email usr;
                        lastLogin := Date_now r |} in
      catch (emit (SetItem AUTH_SESSION_KEY session) >>
             of_reply (setItem r AUTH_SESSION_KEY session))
            (fun error => mret tt)
  end.

(** [handleAuthNavigation] (l.271-281) *)
Definition handleAuthNavigation (currentUser : option User) : M unit :=
  match currentUser with
  | Some _ => emit (RouterReplace "/")
  | None => emit (RouterReplace "/(onboarding)/welcome")
  end.

(** The listener given to [onAuthStateChanged] (l.232-265). It reads
    [authReady] and [initializing] from the render that subscribed it; the
    effect re-subscribes whenever one of them changes (dependency array,
    l.268), so with events delivered one at a time each run of the listener
    sees the values left by the previous one: those of the state it starts
    in. *)
Definition onAuthStateChanged_listener
  (r : Remote) (firebaseUser : option FirebaseUser) : M unit :=
  fun s0 =>
    (let formattedUser := formatUser firebaseUser in
     match formattedUser with
     | Some u => setUser (Some u) >> saveAuthSession r (Some u)
     | None => setUser None >> saveAuthSession r None
     end >>
     (if negb (authReady s0) then setAuthReady true else mret tt) >>
     setIsLoading false >>
     (if initializing s0 then setInitializing false
      else handleAuthNavigation formattedUser)) s0.

(** [signIn] (l.284-303) *)
Definition signIn (r : Remote) (email password : string) : M unit :=
  setIsLoading true >>
  catch
    (match signInWithEmailAndPassword r email password with
     | inl e => raise e
     | inr userCredential_user =>
         saveAuthSession r (formatUser (Some userCredential_user))
     end)
    (fun error => setIsLoading false >> raise error).

(** [signUp] (l.306-325) *)
Definition signUp (r : Remote) (email password : string) : M unit :=
  setIsLoading true >>
  catch
    (match createUserWithEmailAndPassword r email password with
     | inl e => raise e
     | inr userCredential_user =>
         saveAuthSession r (formatUser (Some userCredential_user))
     end)
    (fun error => setIsLoading false >> raise error).

(** [signOut] (l.328-343) *)
Definition signOut (r : Remote) : M unit :=
  setIsLoading true >>
  catch
    (saveAuthSession r None >> of_reply (firebaseSignOut r))
    (fun error => setIsLoading false >> raise error).

Definition recent_login_message : string :=
  "For security reasons, please sign out and sign in again before deleting your account.".

(** [error.code === "auth/requires-recent-login"] *)
Definition requires_recent_login (e : JsError) : bool :=
  match code e with
  | Some c => c =? "auth/requires-recent-login"
  | None => false
  end.

(** What the inner [catch] of [deleteAccount] throws (l.357-366). *)
Definition rethrown_by_inner_catch (error : JsError) : JsError :=
  if requires_recent_login error
  then {| code := None; message := recent_login_message |}
  else error.

(** [deleteAccount] (l.346-373) *)
Definition deleteAccount (r : Remote) : M unit :=
  setIsLoading true >>
  catch
    (match currentUser r with
     | None => raise {| code := None; message := "No authenticated user found" |}
     | Some cu =>
         catch
           (saveAuthSession r None >> of_reply (deleteUser r cu))
           (fun error => raise (rethrown_by_inner_catch error))
     end)
    (fun error => setIsLoading false >> raise error).

(** One thing that happens to the provider. *)
Inductive Input : Type :=
| AuthStateChanged (firebaseUser : option FirebaseUser)
| SignIn (email password : string)
| SignUp (email password : string)
| SignOut
| DeleteAccount.

Definition handle (r : Remote) (i : Input) : M unit :=
  match i with
  | AuthStateChanged fu => onAuthStateChanged_listener r fu
  | SignIn e p => signIn r e p
  | SignUp e p => signUp r e p
  | SignOut => signOut r
  | DeleteAccount => deleteAccount r
  end.

Definition effects_of {A} (x : list Effect * AuthState * (JsError + A)) : list Effect :=
  fst (fst x).
Definition state_of {A} (x : list Effect * AuthState * (JsError + A)) : AuthState :=
  snd (fst x).
Definition result_of {A} (x : list Effect * AuthState * (JsError + A)) : JsError + A :=
  snd x.

(** The state after a history, oldest input first, from process start. *)
Fixpoint state_from (s : AuthState) (history : list (Remote * Input)) : AuthState :=
  match history with
  | [] => s
  | (r, i) :: rest => state_from (state_of (handle r i s)) rest
  end.

Definition state_after (history : list (Remote * Input)) : AuthState :=
  state_from initial history.

Definition is_navigation (e : Effect) : bool :=
  match e with RouterReplace _ => true | _ => false end.

Definition navigations (l : list Effect) : list Effect := filter is_navigation l.

Definition is_event (ri : Remote * Input) : bool :=
  match snd ri with AuthStateChanged _ => true | _ => false end.

(** The listener runs to its end: its only bare [await] that can reject
    is the snapshot removal of a signed-out event. *)
Definition handled (ri : Remote * Input) : Prop :=
  match snd ri with
  | AuthStateChanged None => removeItem (fst ri) AUTH_SESSION_KEY = None
  | _ => True
  end.

(** How many inputs of a history turn [authReady] from false to true. *)
Fixpoint ready_transitions (s : AuthState) (history : list (Remote * Input)) : nat :=
  match history with
  | [] => 0
  | (r, i) :: rest =>
      let s' := state_of (handle r i s) in
      (if negb (authReady s) && authReady s' then 1 else 0)
      + ready_transitions s' rest
  end.

(** The first rejection among awaited calls made in order. *)
Fixpoint first_rejection (replies : list (option JsError)) : option JsError :=
  match replies with
  | [] => None
  | Some e :: _ => Some e
  | None :: rest => first_rejection rest
  end.

Definition rejection {A} (reply : JsError + A) : option JsError :=
  match reply with inl e => Some e | inr _ => None end.

(** What C8 says of an operation [op] whose remote calls fail with
    [failure]: loading is switched on first; a failure switches it off
    again, last, and is raised to the caller; a success leaves it on. *)
Definition loading_protocol (op : M unit) (failure : option JsError) : Prop :=
  forall s,
    (exists rest, effects_of (op s) = SetIsLoading true :: rest)
    /\ match failure with
       | Some e =>
           result_of (op s) = inl e
           /\ isLoading (state_of (op s)) = false
           /\ exists before, effects_of (op s) = (before ++ [SetIsLoading false])%list
       | None =>
           result_of (op s) = inr tt /\ isLoading (state_of (op s)) = true
       end.

Definition alice : FirebaseUser :=
  {| uid := "u1"; fb_email := Some "alice@example.com" |}.

Definition wrong_password : JsError :=
  {| code := Some "auth/wrong-password"; message := "Wrong password" |}.

Definition stale_login : JsError :=
  {| code := Some "auth/requires-recent-login"; message := "Stale" |}.

(** A remote on which everything succeeds. *)
Definition calm : Remote :=
  {| signInWithEmailAndPassword := fun _ _ => inr alice;
     createUserWithEmailAndPassword := fun _ _ => inr alice;
     firebaseSignOut := None;
     deleteUser := fun _ => None;
     currentUser := Some alice;
     removeItem := fun _ => None;
     setItem := fun _ _ => None;
     Date_now := 1700000000000 |}.

(** A remote that refuses the password and the deletion. *)
Definition stormy : Remote :=
  {| signInWithEmailAndPassword := fun _ _ => inl wrong_password;
     createUserWithEmailAndPassword := fun _ _ => inl wrong_password;
     firebaseSignOut := None;
     deleteUser := fun _ => Some stale_login;
     currentUser := Some alice;
     removeItem := fun _ => None;
     setItem := fun _ _ => Some wrong_password;
     Date_now := 1700000000000 |}.

Definition storage_failure : JsError :=
  {| code := None; message := "Failed to remove item" |}.

(** A remote on which only the snapshot removal rejects. *)
Definition failing_storage : Remote :=
  {| signInWithEmailAndPassword := fun _ _ => inr alice;
     createUserWithEmailAndPassword := fun _ _ => inr alice;
     firebaseSignOut := None;
     deleteUser := fun _ => None;
     currentUser := Some alice;
     removeItem := fun _ => Some storage_failure;
     setItem := fun _ _ => None;
     Date_now := 1700000000000 |}.

Definition a_session : list (Remote * Input) :=
  [ (calm, AuthStateChanged None);
    (stormy, SignIn "alice@example.com" "nope");
    (calm, SignIn "alice@example.com" "right");
    (calm, AuthStateChanged (Some alice));
    (calm, SignOut);
    (calm, AuthStateChanged None) ].

End Auth.

(** ** RevenueCat set-up (src/unnamed/part_001) *)

Module RevenueCat.

(** The module-level constants and the platform the code reads. *)
Record Config : Type := {
  Platform_OS : string;
  RC_API_KEYS_IOS : string;
  RC_API_KEYS_ANDROID : string;
  PREMIUM_MONTHLY : string;
  PREMIUM_YEARLY : string;
  PREMIUM : string;
  DEFAULT : string
}.

(** The constants as the source fixes them (l.11-24); the API keys come
    from the Expo configuration, the platform from the device. *)
Definition source_config (os ios_key android_key : string) : Config :=
  {| Platform_OS := os;
     RC_API_KEYS_IOS := ios_key;
     RC_API_KEYS_ANDROID := android_key;
     PREMIUM_MONTHLY := "com.calpal.ai.Monthly";
     PREMIUM_YEARLY := "com.calpal.ai.Annual";
     PREMIUM := "Premium";
     DEFAULT := "ofrng44a064495d" |}.

(** [!s] on a string *)
Definition not_str (s : string) : bool := s =? "".

(** [getApiKey] (l.26-28) *)
Definition getApiKey (c : Config) : string :=
  if Platform_OS c =? "ios" then RC_API_KEYS_IOS c else RC_API_KEYS_ANDROID c.

(** [validateRevenueCatConfig] (l.56-91) *)
Definition validateRevenueCatConfig (c : Config) : bool :=
  if (Platform_OS c =? "ios") && not_str (RC_API_KEYS_IOS c) then false
  else if (Platform_OS c =? "android") && not_str (RC_API_KEYS_ANDROID c) then false
  else if not_str (PREMIUM_MONTHLY c) || not_str (PREMIUM_YEARLY c) then false
  else if not_str (PREMIUM c) then false
  else if not_str (DEFAULT c) then false
  else true.

(** Calls into the billing SDK. *)
Inductive SdkCall : Type :=
| Purchases_configure (apiKey : string)
| Purchases_getCustomerInfo.

(** Whether each SDK call rejects. *)
Record Sdk : Type := {
  configure_rejects : string -> bool;
  getCustomerInfo_rejects : bool
}.

(** [configureRevenueCat] (l.30-54) *)
Definition configureRevenueCat (c : Config) (sdk : Sdk) : list SdkCall * bool :=
  if negb (validateRevenueCatConfig c) then ([], false)
  else
    let apiKey := getApiKey c in
    if configure_rejects sdk apiKey then ([Purchases_configure apiKey], false)
    else
      let calls := [Purchases_configure apiKey; Purchases_getCustomerInfo] in
      if getCustomerInfo_rejects sdk
      then (* console.warn("Could not fetch initial customer info:", ...) *)
           (calls, true)
      else (calls, true).

(** C9 read with the key [getApiKey] selects as the platform's key. *)
Definition some_setting_empty (c : Config) : Prop :=
  getApiKey c = "" \/ PREMIUM_MONTHLY c = "" \/ PREMIUM_YEARLY c = ""
  \/ PREMIUM c = "" \/ DEFAULT c = "".

Definition configure_as_stated : Prop :=
  forall (c : Config) (sdk : Sdk),
    (some_setting_empty c -> configureRevenueCat c sdk = ([], false))
    /\ (~ some_setting_empty c ->
        configureRevenueCat c sdk =
          ([Purchases_configure (getApiKey c); Purchases_getCustomerInfo], true)).

(** The settings [validateRevenueCatConfig] does check. *)
Definition checked_setting_empty (c : Config) : Prop :=
  (Platform_OS c = "ios" /\ RC_API_KEYS_IOS c = "")
  \/ (Platform_OS c = "android" /\ RC_API_KEYS_ANDROID c = "")
  \/ PREMIUM_MONTHLY c = "" \/ PREMIUM_YEARLY c = ""
  \/ PREMIUM c = "" \/ DEFAULT c = "".

Definition sdk_fine : Sdk :=
  {| configure_rejects := fun _ => false; getCustomerInfo_rejects := false |}.

Definition sdk_offline : Sdk :=
  {| configure_rejects := fun _ => false; getCustomerInfo_rejects := true |}.

Definition sdk_refusing : Sdk :=
  {| configure_rejects := fun _ => true; getCustomerInfo_rejects := false |}.

End RevenueCat.

(** ** Notions used in the statements *)

(** The transport succeeded and the model's free text is [text]: the key
    is set, [fetch] resolves with an ok response, and the text is found in
    its body. *)
Definition transport_ok (w : World) (text : string) : Prop :=
  key_missing w = false /\
  exists body,
    fetch w (request_url w) = FetchResponse true body /\
    textContent_of_body body = Some (JStr text).

(** Spec 4.2 step 4, in the spec's words: an ordered sequence of three
    candidate extraction patterns, the first that matches wins, none
    matching means no payload. *)
Definition extraction_patterns : list RegExp :=
  [re_fenced_json; re_fenced; re_braces_lazy].

Fixpoint first_match (patterns : list RegExp) (text : string) : option MatchArray :=
  match patterns with
  | [] => None
  | re :: rest =>
      match str_match re text with
      | Some m => Some m
      | None => first_match rest text
      end
  end.

Definition locate_payload (text : string) : option string :=
  option_map jsonStr_of (first_match extraction_patterns text).

(** The payload [analyzeExercise] works on (l.425-430). *)
Definition exercise_payload (text : string) : option string :=
  option_map whole (str_match re_braces_greedy text).

Definition world_without_key : World :=
  {| EXPO_PUBLIC_GEMINI_API_KEY := None;
     fetch := fun _ => FetchResponse true (gemini_body salad_payload);
     generateContent := fun _ => SdkText salad_payload |}.

Definition two_samples : list WeightEntry :=
  [ {| weight := 80; date := ValidDate "2024-01-01T00:00:00.000Z" |};
    {| weight := 79; date := ValidDate "2024-01-08T00:00:00.000Z" |} ].

Definition a_run : ExerciseData :=
  {| type := "Running"; duration := 30; description := "Morning jog";
     userStats := []; intensity := "" |}.

(** Decoding of a located payload, with the kind's default when there is
    none or it is not JSON (spec 4.2 step 5). *)
Definition decode (payload : option string) (dflt : JsValue) : JsValue :=
  match payload with
  | Some str =>
      match JSON_parse str with
      | Some v => v
      | None => dflt
      end
  | None => dflt
  end.

(** The value of a [try] block that may have raised, with the value the
    [catch] block returns. *)
Definition or_default (r : option JsValue) (dflt : JsValue) : JsValue :=
  match r with Some v => v | None => dflt end.

(** Field [name] of the result [r] holds a number. *)
Definition numeric_field (r : JsValue) (name : string) : Prop :=
  exists q, get_prop r name = Some (JNum q).

Definition losing_only : string := dq "{'trend':'losing'}".
Definition calories_as_text : string := dq "{'caloriesBurned':'lots'}".
Definition two_objects : string := dq "{'caloriesBurned':1} {'caloriesBurned':2}".
Definition first_object : string := dq "{'caloriesBurned':1}".

Definition fenced_salad : string :=
  "```json" ++ LF ++ salad_payload ++ LF ++ "```".

(** Whether character [c] occurs in [s]. *)
Fixpoint has_char (c : ascii) (s : string) : bool :=
  match s with
  | "" => false
  | String x r => Ascii.eqb x c || has_char c r
  end.

(** Ways a reply can carry a payload [{body}]: inside a fence labeled
    json, after prose without back-quotes; or bare, between prose without
    back-quotes, the prose before it without an opening brace. *)
Inductive embeds (body : string) : string -> Prop :=
| embeds_fenced (pre post : string) :
    has_char "`" pre = false ->
    embeds body
      (pre ++ ("```json" ++ LF) ++ ("{" ++ body ++ "}") ++ (LF ++ "```") ++ post)
| embeds_bare (pre post : string) :
    has_char "`" pre = false -> has_char "{" pre = false ->
    has_char "`" post = false ->
    embeds body (pre ++ ("{" ++ body ++ "}") ++ post).

(** [salad_payload] without its braces. *)
Definition salad_body : string :=
  Eval cbv in substring 1 (String.length salad_payload - 2) salad_payload.

(** C5 as the spec words it for [analyzeExercise]: its payload is the one
    the three ordered patterns locate. *)
Definition exercise_uses_three_patterns : Prop :=
  forall text, exercise_payload text = locate_payload text.

(** ** Further notions on the analysis operations *)

(** The model's free text when the transport succeeds: [fetch] resolves,
    the response is ok, and the property path of the body ends in a
    string. *)
Definition reply_text (w : World) : option string :=
  match fetch w (request_url w) with
  | FetchRejects => None
  | FetchResponse ok body =>
      if ok then
        match textContent_of_body body with
        | Some (JStr text) => Some text
        | _ => None
        end
      else None
  end.

(** The value the located payload decodes to, if there is one. *)
Definition decoded (text : string) : option JsValue :=
  match locate_payload text with
  | Some str => JSON_parse str
  | None => None
  end.

(** A world whose [fetch] and SDK both reject. *)
Definition world_offline : World :=
  {| EXPO_PUBLIC_GEMINI_API_KEY := Some "k";
     fetch := fun _ => FetchRejects;
     generateContent := fun _ => SdkRejects |}.

(** Two samples, the second with an invalid date. *)
Definition samples_with_bad_date : list WeightEntry :=
  [ {| weight := 80; date := ValidDate "2024-01-01T00:00:00.000Z" |};
    {| weight := 79; date := InvalidDate |} ].

(** What [analyzeExercise] gets to validate: the value its brace span
    decodes to, when the SDK answers and the span is JSON. *)
Definition exercise_decoded (w : World) : option JsValue :=
  match generateContent w "gemini-2.0-flash" with
  | SdkRejects => None
  | SdkText said =>
      match exercise_payload said with
      | Some str => JSON_parse str
      | None => None
      end
  end.

(** A food payload written over several lines, as the model usually
    replies. *)
Definition pretty_salad : string :=
  Eval cbv in
  dq "{" ++ LF ++ dq "  'title': 'Salad'," ++ LF ++ dq "  'items': ['lettuce'],"
  ++ LF ++ dq "  'calories': 120, 'protein': 5, 'carbs': 10, 'fats': 2" ++ LF ++ "}".

(** [text] holds [opening], later followed by [closing]. *)
Definition has_span (opening closing text : string) : Prop :=
  exists pre middle post, text = pre ++ opening ++ middle ++ closing ++ post.

(** ** Further notions on the Auth Reconciler *)

Section AuthNotions.
Import Auth.

(** The payload of the last auth-state event of a history, if there was
    an event. *)
Fixpoint last_event (history : list (Remote * Input))
  : option (option FirebaseUser) :=
  match history with
  | [] => None
  | (_, i) :: rest =>
      match last_event rest with
      | Some firebaseUser => Some firebaseUser
      | None =>
          match i with
          | AuthStateChanged firebaseUser => Some firebaseUser
          | _ => None
          end
      end
  end.

(** Effects on the loading flag and on the stored snapshot. *)
Definition is_loading_or_storage (e : Effect) : bool :=
  match e with
  | SetIsLoading _ | RemoveItem _ | SetItem _ _ => true
  | _ => false
  end.

(** The snapshot [saveAuthSession] builds for a Firebase user (l.196-200). *)
Definition session_of (r : Remote) (firebaseUser : FirebaseUser) : AuthSession :=
  {| userId := uid firebaseUser; session_email := fb_email firebaseUser;
     lastLogin := Date_now r |}.

Definition with_isLoading (b : bool) (s : AuthState) : AuthState :=
  {| user := user s; isLoading := b;
     authReady := authReady s; initializing := initializing s |}.

Definition no_user_error : JsError :=
  {| code := None; message := "No authenticated user found" |}.

End AuthNotions.

(** ** The landing screen ([Home], src/app/index.tsx l.17-100) *)

Module Home.

(** What the component reads from [useAuth] and [useProfile]. The
    profile is the value the hook hands over, [null] when there is none. *)
Record Props : Type := {
  authLoading : bool;
  user : option Auth.User;
  authReady : bool;
  profile : JsValue;
  profileLoading : bool
}.

(** What the component returns: the activity indicator, or a redirect. *)
Inductive View : Type :=
| LoadingIndicator
| Redirect (href : string).

(** What its effects do. *)
Inductive Action : Type :=
| SplashScreen_hideAsync
| SetIsCheckingProfile (b : bool)
| SetTimeout (ms : Z)
| RequestTrackingPermissions.

(** [v === "User"] *)
Definition is_User (v : JsValue) : bool :=
  match v with JStr s => s =? "User" | _ => false end.

(** [!profile || !profile.name || profile.name === "User"] (l.84-85);
    [profile.name] is read only off a truthy profile. *)
Definition needsOnboarding (profile : JsValue) : bool :=
  if negb (truthy profile) then true
  else
    match get_prop profile "name" with
    | Some name => negb (truthy name) || is_User name
    | None => true
    end.

(** The function body after the hooks (l.54-99). *)
Definition render (p : Props) (isCheckingProfile : bool) : View :=
  if negb (authReady p) || authLoading p || profileLoading p || isCheckingProfile
  then LoadingIndicator
  else
    match user p with
    | Some _ =>
        if needsOnboarding (profile p) then Redirect "/setup/welcome"
        else Redirect "/(tabs)"
    | None => Redirect "/onboarding/welcome"
    end.

(** [authReady && !authLoading && !profileLoading], the test of both
    effects (l.25, l.46). *)
Definition settled (p : Props) : bool :=
  authReady p && negb (authLoading p) && negb (profileLoading p).

(** The first effect (l.23-29), then the second (l.31-51), as they run
    after a commit. *)
Definition run_effects (p : Props) : list Action :=
  ((if settled p then [SplashScreen_hideAsync; SetIsCheckingProfile false] else [])
   ++ (if settled p then [SetTimeout 1000] else []))%list.

(** [requestTrackingPermission] (l.32-42), run when the timer fires. *)
Definition requestTrackingPermission (Platform_OS : string) : list Action :=
  if Platform_OS =? "ios" then [RequestTrackingPermissions] else [].

(** The dependency array of both effects (l.29, l.51). *)
Definition deps (p : Props) : bool * bool * bool :=
  (authReady p, authLoading p, profileLoading p).

Definition deps_eqb (a b : bool * bool * bool) : bool :=
  let '(a1, a2, a3) := a in
  let '(b1, b2, b3) := b in
  Bool.eqb a1 b1 && Bool.eqb a2 b2 && Bool.eqb a3 b3.

(** The mounted component: its state cell and the dependencies of the
    last commit ([None] before the first one). *)
Record Mounted : Type := {
  isCheckingProfile : bool;
  committed : option (bool * bool * bool)
}.

(** [useState(true)] *)
Definition mount : Mounted :=
  {| isCheckingProfile := true; committed := None |}.

(** One update with props [p]: the component renders; after the commit
    the effects run if a dependency changed (always after the first
    commit); a state change renders once more, with unchanged
    dependencies. The views painted, in order, the actions, and the
    component afterwards. *)
Definition update (p : Props) (m : Mounted)
  : list View * list Action * Mounted :=
  let first := render p (isCheckingProfile m) in
  let changed :=
    match committed m with
    | None => true
    | Some d => negb (deps_eqb d (deps p))
    end in
  if changed then
    if settled p then
      ((if isCheckingProfile m then [first; render p false] else [first]),
       run_effects p,
       {| isCheckingProfile := false; committed := Some (deps p) |})
    else
      ([first], run_effects p,
       {| isCheckingProfile := isCheckingProfile m; committed := Some (deps p) |})
  else ([first], [], m).

(** The component after a sequence of updates. *)
Fixpoint after (updates : list Props) (m : Mounted) : Mounted :=
  match updates with
  | [] => m
  | p :: rest => after rest (snd (update p m))
  end.

(** The view left on screen by an update. *)
Definition shown (p : Props) (m : Mounted) : View :=
  last (fst (fst (update p m))) LoadingIndicator.

(** Where a settled component sends the user. *)
Definition landing (p : Props) : View := render p false.

(** While [isCheckingProfile] is still set, the last commit was not a
    settled one. *)
Definition checking_means_unsettled (m : Mounted) : Prop :=
  isCheckingProfile m = true ->
  match committed m with
  | None => True
  | Some (ready, loading, profLoading) =>
      ready && negb loading && negb profLoading = false
  end.

(** The props [Home] gets when [useAuth] hands over the provider's
    context value (l.376-386) and [useProfile] the given profile. *)
Definition props_of (s : Auth.AuthState) (profile : JsValue)
  (profileLoading : bool) : Props :=
  {| authLoading := Auth.isLoading s; user := Auth.user s;
     authReady := Auth.authReady s; profile := profile;
     profileLoading := profileLoading |}.

End Home.

(** ** The build-time configuration (src/app.config.js) *)

Module AppConfig.

(** [process.env] once [dotenv.config()] has run: a variable is a string
    or undefined. *)
Definition Env : Type := string -> option string.

Definition env_var (env : Env) (name : string) : JsValue :=
  match env name with
  | Some s => JStr s
  | None => JUndefined
  end.

(** [./app.config.local.js]: not there; there but [require] throws; or
    there, with the value of its [module.exports]. *)
Inductive LocalFile : Type :=
| Absent
| Unloadable
| Exports (module_exports : JsValue).

(** [process.env.EAS_BUILD === "true"] (l.8) *)
Definition isEasBuild (env : Env) : bool :=
  match env "EAS_BUILD" with
  | Some s => s =? "true"
  | None => false
  end.

(** [process.env.APP_ENV === "production"] (l.9) *)
Definition isProd (env : Env) : bool :=
  match env "APP_ENV" with
  | Some s => s =? "production"
  | None => false
  end.

(** l.12-21: the local file is consulted outside EAS builds only, and a
    failing [require] leaves the empty object. *)
Definition localConfig (env : Env) (file : LocalFile) : JsValue :=
  if isEasBuild env then JObj []
  else
    match file with
    | Exports module_exports => module_exports
    | Absent | Unloadable => JObj []
    end.

(** [v?.name] *)
Definition opt_prop (v : JsValue) (name : string) : JsValue :=
  match get_prop v name with
  | Some x => x
  | None => JUndefined
  end.

(** [process.env.VAR || localConfig.group?.key || fallback]: the local
    configuration is read only when the variable is falsy, and reading
    [localConfig.group] off [null] or [undefined] throws ([None]). *)
Definition setting (env : Env) (lc : JsValue) (var group key fallback : string)
  : option JsValue :=
  if truthy (env_var env var) then Some (env_var env var)
  else
    match get_prop lc group with
    | Some g => Some (js_or (opt_prop g key) (JStr fallback))
    | None => None
    end.

(** l.135-139 *)
Definition geminiApiKey (env : Env) (lc : JsValue) : option JsValue :=
  if truthy (env_var env "GEMINI_API_KEY")
  then Some (env_var env "GEMINI_API_KEY")
  else if truthy (env_var env "EXPO_PUBLIC_GEMINI_API_KEY")
  then Some (env_var env "EXPO_PUBLIC_GEMINI_API_KEY")
  else
    match get_prop lc "geminiApiKey" with
    | Some v => Some (js_or v (JStr ""))
    | None => None
    end.

Definition and_then {A B} (m : option A) (k : A -> option B) : option B :=
  match m with
  | Some a => k a
  | None => None
  end.

(** The [extra] member of [module.exports] (l.128-146), built from
    [firebaseConfig] (l.23-48) and [revenueCatConfig] (l.50-59); the other
    members of the export are literals. [None]: loading the module
    throws. *)
Definition extra (env : Env) (file : LocalFile) : option JsValue :=
  let lc := localConfig env file in
  and_then (setting env lc "FIREBASE_API_KEY" "firebase" "apiKey"
              "YOUR_FIREBASE_API_KEY") (fun apiKey =>
  and_then (setting env lc "FIREBASE_AUTH_DOMAIN" "firebase" "authDomain"
              "YOUR_FIREBASE_AUTH_DOMAIN") (fun authDomain =>
  and_then (setting env lc "FIREBASE_PROJECT_ID" "firebase" "projectId"
              "YOUR_FIREBASE_PROJECT_ID") (fun projectId =>
  and_then (setting env lc "FIREBASE_STORAGE_BUCKET" "firebase" "storageBucket"
              "YOUR_FIREBASE_STORAGE_BUCKET") (fun storageBucket =>
  and_then (setting env lc "FIREBASE_MESSAGING_SENDER_ID" "firebase"
              "messagingSenderId" "YOUR_FIREBASE_MESSAGING_SENDER_ID")
           (fun messagingSenderId =>
  and_then (setting env lc "FIREBASE_APP_ID" "firebase" "appId"
              "YOUR_FIREBASE_APP_ID") (fun appId =>
  and_then (setting env lc "REVENUECAT_API_KEY_IOS" "revenueCat" "apiKeyIOS" "")
           (fun apiKeyIOS =>
  and_then (setting env lc "REVENUECAT_API_KEY_ANDROID" "revenueCat"
              "apiKeyAndroid" "") (fun apiKeyAndroid =>
  and_then (geminiApiKey env lc) (fun gemini =>
  Some (JObj [("firebaseApiKey", apiKey);
              ("firebaseAuthDomain", authDomain);
              ("firebaseProjectId", projectId);
              ("firebaseStorageBucket", storageBucket);
              ("firebaseMessagingSenderId", messagingSenderId);
              ("firebaseAppId", appId);
              ("geminiApiKey", gemini);
              ("revenueCatApiKeyIOS", apiKeyIOS);
              ("revenueCatApiKeyAndroid", apiKeyAndroid);
              ("eas", JObj [("projectId",
                             JStr "e8f43e11-6ca9-4b2f-8445-487ffdc1c69a")]);
              ("environment",
               JStr (if isProd env then "production" else "development"))])))))))))).

(** Each member of [extra] that a variable can set, with the variable
    consulted first. *)
Definition variables : list (string * string) :=
  [("firebaseApiKey", "FIREBASE_API_KEY");
   ("firebaseAuthDomain", "FIREBASE_AUTH_DOMAIN");
   ("firebaseProjectId", "FIREBASE_PROJECT_ID");
   ("firebaseStorageBucket", "FIREBASE_STORAGE_BUCKET");
   ("firebaseMessagingSenderId", "FIREBASE_MESSAGING_SENDER_ID");
   ("firebaseAppId", "FIREBASE_APP_ID");
   ("geminiApiKey", "GEMINI_API_KEY");
   ("revenueCatApiKeyIOS", "REVENUECAT_API_KEY_IOS");
   ("revenueCatApiKeyAndroid", "REVENUECAT_API_KEY_ANDROID")].

(** Every setting is decided by the environment alone, so that the local
    configuration is never read. *)
Definition all_from_env (env : Env) : bool :=
  truthy (env_var env "FIREBASE_API_KEY")
  && truthy (env_var env "FIREBASE_AUTH_DOMAIN")
  && truthy (env_var env "FIREBASE_PROJECT_ID")
  && truthy (env_var env "FIREBASE_STORAGE_BUCKET")
  && truthy (env_var env "FIREBASE_MESSAGING_SENDER_ID")
  && truthy (env_var env "FIREBASE_APP_ID")
  && truthy (env_var env "REVENUECAT_API_KEY_IOS")
  && truthy (env_var env "REVENUECAT_API_KEY_ANDROID")
  && (truthy (env_var env "GEMINI_API_KEY")
      || truthy (env_var env "EXPO_PUBLIC_GEMINI_API_KEY")).

(** An environment with no variable set, and one for a store build. *)
Definition no_env : Env := fun _ => None.

Definition store_env : Env :=
  fun name =>
    if name =? "EAS_BUILD" then Some "true"
    else if name =? "FIREBASE_API_KEY" then Some "AIzaSy-example"
    else if name =? "REVENUECAT_API_KEY_IOS" then Some "appl_key"
    else None.

Definition a_local_config : JsValue :=
  JObj [("firebase", JObj [("apiKey", JStr "local-key");
                           ("projectId", JStr "local-project")]);
        ("geminiApiKey", JStr "local-gemini")].

End AppConfig.

(** ** Firebase set-up (src/unnamed/part_000) *)

Module Firebase.

(** Every field of [defaultConfig] (l.15-22). *)
Definition placeholder : string := "placeholder-for-production".

Record FirebaseConfig : Type := {
  apiKey : JsValue;
  authDomain : JsValue;
  projectId : JsValue;
  storageBucket : JsValue;
  messagingSenderId : JsValue;
  appId : JsValue
}.

(** [Constants.expoConfig?.extra?.name || defaultConfig.<field>] *)
Definition from_extra (expoConfig : JsValue) (name : string) : JsValue :=
  js_or (AppConfig.opt_prop (AppConfig.opt_prop expoConfig "extra") name)
        (JStr placeholder).

(** [firebaseConfig] (l.25-38) *)
Definition firebaseConfig (expoConfig : JsValue) : FirebaseConfig :=
  {| apiKey := from_extra expoConfig "firebaseApiKey";
     authDomain := from_extra expoConfig "firebaseAuthDomain";
     projectId := from_extra expoConfig "firebaseProjectId";
     storageBucket := from_extra expoConfig "firebaseStorageBucket";
     messagingSenderId := from_extra expoConfig "firebaseMessagingSenderId";
     appId := from_extra expoConfig "firebaseAppId" |}.

(** [v !== s] for a string [s] *)
Definition differs_from (v : JsValue) (s : string) : bool :=
  match v with
  | JStr x => negb (x =? s)
  | _ => true
  end.

(** [isFirebaseConfigured] (l.84-89) *)
Definition isFirebaseConfigured (config : FirebaseConfig) : bool :=
  differs_from (apiKey config) placeholder
  && differs_from (projectId config) placeholder.

(** Calls into the Firebase SDK. *)
Inductive SdkCall : Type :=
| InitializeApp (config : FirebaseConfig)
| GetAuth
| GetReactNativePersistence
| InitializeAuth
| GetFirestore
| GetStorage.

(** Whether each SDK call throws. *)
Record Sdk : Type := {
  initializeApp_throws : FirebaseConfig -> bool;
  getAuth_throws : bool;
  getReactNativePersistence_throws : bool;
  initializeAuth_throws : bool;
  getFirestore_throws : bool;
  getStorage_throws : bool
}.

(** A module binding: the handle the SDK returned, or the [{}] of the
    [catch] block. *)
Inductive Binding : Type :=
| Handle
| EmptyObject.

Record Bindings : Type := {
  app : Binding;
  auth : Binding;
  firestore : Binding;
  storage : Binding
}.

Definition all_empty : Bindings :=
  {| app := EmptyObject; auth := EmptyObject;
     firestore := EmptyObject; storage := EmptyObject |}.

Definition all_handles : Bindings :=
  {| app := Handle; auth := Handle; firestore := Handle; storage := Handle |}.

(** The module body (l.45-82): the calls made, and the four bindings it
    exports. *)
Definition initialize (Platform_OS : string) (config : FirebaseConfig) (sdk : Sdk)
  : list SdkCall * Bindings :=
  if initializeApp_throws sdk config then ([InitializeApp config], all_empty)
  else
    let '(auth_calls, auth_thrown) :=
      if Platform_OS =? "web" then ([GetAuth], getAuth_throws sdk)
      else if getReactNativePersistence_throws sdk
      then ([GetReactNativePersistence], true)
      else ([GetReactNativePersistence; InitializeAuth],
            initializeAuth_throws sdk) in
    if auth_thrown then ((InitializeApp config :: auth_calls)%list, all_empty)
    else if getFirestore_throws sdk
    then ((InitializeApp config :: auth_calls ++ [GetFirestore])%list, all_empty)
    else if getStorage_throws sdk
    then ((InitializeApp config :: auth_calls ++ [GetFirestore; GetStorage])%list,
          all_empty)
    else ((InitializeApp config :: auth_calls ++ [GetFirestore; GetStorage])%list,
          all_handles).

Definition sdk_working : Sdk :=
  {| initializeApp_throws := fun _ => false; getAuth_throws := false;
     getReactNativePersistence_throws := false; initializeAuth_throws := false;
     getFirestore_throws := false; getStorage_throws := false |}.

Definition sdk_without_storage : Sdk :=
  {| initializeApp_throws := fun _ => false; getAuth_throws := false;
     getReactNativePersistence_throws := false; initializeAuth_throws := false;
     getFirestore_throws := false; getStorage_throws := true |}.

End Firebase.

(** ** The billing keys at run time (src/unnamed/part_001 l.5-8) *)

Module BillingKeys.

(** [RC_API_KEYS]: [Constants.expoConfig?.extra?.<name> || ""] *)
Definition RC_API_KEYS_IOS (expoConfig : JsValue) : JsValue :=
  js_or (AppConfig.opt_prop (AppConfig.opt_prop expoConfig "extra")
           "revenueCatApiKeyIOS") (JStr "").

Definition RC_API_KEYS_ANDROID (expoConfig : JsValue) : JsValue :=
  js_or (AppConfig.opt_prop (AppConfig.opt_prop expoConfig "extra")
           "revenueCatApiKeyAndroid") (JStr "").

(** The constants of the billing module when both keys are strings. *)
Definition config (Platform_OS : string) (expoConfig : JsValue)
  : option RevenueCat.Config :=
  match RC_API_KEYS_IOS expoConfig, RC_API_KEYS_ANDROID expoConfig with
  | JStr ios_key, JStr android_key =>
      Some (RevenueCat.source_config Platform_OS ios_key android_key)
  | _, _ => None
  end.

(** A variable's value as a key: unset is the empty key. *)
Definition key_of (env : AppConfig.Env) (var : string) : string :=
  match env var with
  | Some s => s
  | None => ""
  end.

End BillingKeys.

(** ** The stored snapshot ([saveAuthSession] and [loadAuthSession],
    src/app/index.tsx l.190-221) *)

Module Snapshot.

(** A lower-case hexadecimal digit. *)
Definition hex_digit (n : N) : ascii :=
  if (n <? 10)%N then ascii_of_N (48 + n) else ascii_of_N (87 + n).

(** What [JSON.stringify] writes for one character of a string: the
    quote, the backslash and the control characters are escaped. *)
Definition quote_char (c : ascii) : string :=
  let n := N_of_ascii c in
  if Ascii.eqb c DQUOTE then String "\" (String DQUOTE "")
  else if Ascii.eqb c "\" then String "\" (String "\" "")
  else if (n =? 8)%N then String "\" "b"
  else if (n =? 9)%N then String "\" "t"
  else if (n =? 10)%N then String "\" "n"
  else if (n =? 12)%N then String "\" "f"
  else if (n =? 13)%N then String "\" "r"
  else if (n <? 32)%N then
    String "\" (String "u" (String "0" (String "0"
      (String (hex_digit (n / 16)) (String (hex_digit (n mod 16)) "")))))
  else String c "".

Fixpoint quote_body (s : string) : string :=
  match s with
  | "" => ""
  | String c r => quote_char c ++ quote_body r
  end.

(** [JSON.stringify(s)] for a string *)
Definition quote (s : string) : string :=
  String DQUOTE (quote_body s ++ String DQUOTE "").

(** The decimal digits of a natural number, most significant first. *)
Fixpoint digits_acc (fuel : nat) (n : N) (acc : list N) : list N :=
  match fuel with
  | O => acc
  | S fuel' =>
      if (n <? 10)%N then n :: acc
      else digits_acc fuel' (n / 10)%N ((n mod 10)%N :: acc)
  end.

Definition digits (n : N) : list N :=
  digits_acc (S (N.to_nat (N.log2 n))) n [].

Definition digit_char (d : N) : ascii := ascii_of_N (48 + d).

Fixpoint digits_text (ds : list N) : string :=
  match ds with
  | [] => ""
  | d :: rest => String (digit_char d) (digits_text rest)
  end.

(** [JSON.stringify(n)] for a non-negative integer below 10^21, which
    every [Date.now()] is. *)
Definition number_text (z : Z) : string := digits_text (digits (Z.to_N z)).

(** [JSON.stringify(session)] (l.203): the members in the order of the
    object literal (l.196-200), a null email written as [null]. *)
Definition JSON_stringify (session : Auth.AuthSession) : string :=
  "{" ++ quote "userId" ++ ":" ++ quote (Auth.userId session)
  ++ "," ++ quote "email" ++ ":"
  ++ match Auth.session_email session with
     | Some e => quote e
     | None => "null"
     end
  ++ "," ++ quote "lastLogin" ++ ":" ++ number_text (Auth.lastLogin session)
  ++ "}".

(** [loadAuthSession] (l.211-221) on the answer of [getItem]: a
    rejection, or the stored string or null. *)
Definition loadAuthSession (getItem : Auth.JsError + option string) : JsValue :=
  match getItem with
  | inl _ => JNull
  | inr None => JNull
  | inr (Some sessionData) =>
      if sessionData =? "" then JNull
      else
        match JSON_parse sessionData with
        | Some session => session
        | None => JNull
        end
  end.

(** The session as the value [JSON.parse] gives back. *)
Definition session_value (session : Auth.AuthSession) : JsValue :=
  JObj [("userId", JStr (Auth.userId session));
        ("email", match Auth.session_email session with
                  | Some e => JStr e
                  | None => JNull
                  end);
        ("lastLogin", JNum (inject_Z (Auth.lastLogin session)))].

End Snapshot.

(** ** The run-time model on examples *)

Example parse_salad :
  JSON_parse salad_payload
  = Some (JObj [("title", JStr "Salad"); ("items", JArr [JStr "lettuce"]);
                ("calories", JStr "oops"); ("protein", JNum 5);
                ("carbs", JNum 10); ("fats", JNum 2)]).
Proof. vm_compute. reflexivity. Qed.

Example parse_numbers :
  JSON_parse "[1.50, -0, 2e3, 1e-2, 12.5E+1]"
  = Some (JArr [JNum (Qmake 3 2); JNum 0; JNum 2000; JNum (Qmake 1 100); JNum 125]).
Proof. vm_compute. reflexivity. Qed.

Example parse_rejects :
  map JSON_parse ["[1,]"; "01"; "1."; ".5"; "+1"; "1e"; "truex"; ""; "{,}"; "nul"]
  = [None; None; None; None; None; None; None; None; None; None].
Proof. vm_compute. reflexivity. Qed.

Example parse_duplicate_key :
  JSON_parse (dq "{'a':1,'b':2,'a':3}") = Some (JObj [("a", JNum 3); ("b", JNum 2)]).
Proof. vm_compute. reflexivity. Qed.

Example parse_escapes :
  JSON_parse (dq "'\u00e9\ud83d\ude00\n'")
  = Some (JStr (String (chr 195) (String (chr 169)
            (String (chr 240) (String (chr 159) (String (chr 152)
               (String (chr 128) (String (chr 10) "")))))))).
Proof. vm_compute. reflexivity. Qed.

Example match_labeled_fence :
  str_match re_fenced_json ("So: ```json" ++ LF ++ "{}" ++ LF ++ "``` and ```x```")
  = Some {| whole := "```json" ++ LF ++ "{}" ++ LF ++ "```"; group1 := Some "{}" |}.
Proof. vm_compute. reflexivity. Qed.

Example match_plain_fence :
  str_match re_fenced "a```{}```b```c```"
  = Some {| whole := "```{}```"; group1 := Some "{}" |}.
Proof. vm_compute. reflexivity. Qed.

Example match_braces :
  str_match re_braces_lazy "a{b{c}d}e" = Some {| whole := "{b{c}"; group1 := None |}
  /\ str_match re_braces_greedy "a{b{c}d}e" = Some {| whole := "{b{c}d}"; group1 := None |}
  /\ str_match re_braces_greedy "a}b{c" = None.
Proof. vm_compute. auto. Qed.

Example empty_group_falls_back :
  option_map jsonStr_of (str_match re_fenced "``````") = Some "``````".
Proof. vm_compute. reflexivity. Qed.

Example null_payload_is_caught :
  analyzeFoodImage (world_replying ("```json" ++ LF ++ "null" ++ LF ++ "```")) "aGVsbG8="
  = ([Fetch (apiUrl ++ "?key=k")], createDefaultResult).
Proof. vm_compute. reflexivity. Qed.

Example invalid_date_is_caught :
  analyzeWeightTrends (world_replying salad_payload)
    [ {| weight := 80; date := InvalidDate |}; {| weight := 79; date := InvalidDate |} ]
    75 "lose"
  = ([], createDefaultWeightAnalysis).
Proof. vm_compute. reflexivity. Qed.

(** ** What the patterns match *)

Lemma string_app_assoc (a b c : string) : (a ++ b) ++ c = a ++ (b ++ c).
Proof. induction a as [|x a IH]; simpl; [reflexivity | now rewrite IH]. Qed.

Lemma strip_prefix_sound (p s r : string) :
  strip_prefix p s = Some r -> s = p ++ r.
Proof.
  revert s. induction p as [|a p IH]; intros s H; simpl in *.
  - now injection H as ->.
  - destruct s as [|b s]; [discriminate|].
    destruct (Ascii.eqb_spec a b) as [->|_]; [|discriminate].
    now rewrite (IH _ H).
Qed.

Lemma strip_prefix_app (p s : string) : strip_prefix p (p ++ s) = Some s.
Proof.
  induction p as [|a p IH]; simpl; [reflexivity|].
  now rewrite Ascii.eqb_refl.
Qed.

Lemma star_lazy_sound (cl s cap rest : string) :
  star_lazy cl s = Some (cap, rest) -> s = cap ++ cl ++ rest.
Proof.
  revert cap. induction s as [|c s IH]; intros cap H.
  - simpl in H. destruct (strip_prefix cl "") eqn:E; [|discriminate].
    injection H as <- <-. exact (@strip_prefix_sound _ _ _ E).
  - cbn [star_lazy] in H. destruct (strip_prefix cl (String c s)) eqn:E.
    + injection H as <- <-. exact (@strip_prefix_sound _ _ _ E).
    + destruct (star_lazy cl s) as [[cap' rest']|] eqn:E'; [|discriminate].
      injection H as <- <-. simpl. now rewrite (IH _ eq_refl).
Qed.

Lemma star_greedy_sound (cl s cap rest : string) :
  star_greedy cl s = Some (cap, rest) -> s = cap ++ cl ++ rest.
Proof.
  revert cap. induction s as [|c s IH]; intros cap H.
  - simpl in H. destruct (strip_prefix cl "") eqn:E; [|discriminate].
    injection H as <- <-. exact (@strip_prefix_sound _ _ _ E).
  - cbn [star_greedy] in H.
    destruct (star_greedy cl s) as [[cap' rest']|] eqn:E'.
    + injection H as <- <-. simpl. now rewrite (IH _ eq_refl).
    + destruct (strip_prefix cl (String c s)) eqn:E; [|discriminate].
      injection H as <- <-. exact (@strip_prefix_sound _ _ _ E).
Qed.

Lemma star_lazy_complete (cl cap rest : string) :
  star_lazy cl (cap ++ cl ++ rest) <> None.
Proof.
  induction cap as [|c cap IH].
  - simpl. destruct (cl ++ rest) eqn:E; simpl;
      rewrite <- E, strip_prefix_app; discriminate.
  - cbn [append star_lazy].
    destruct (strip_prefix cl (String c (cap ++ cl ++ rest))); [discriminate|].
    destruct (star_lazy cl (cap ++ cl ++ rest)) as [[? ?]|]; [discriminate|].
    now contradiction IH.
Qed.

Lemma star_greedy_complete (cl cap rest : string) :
  star_greedy cl (cap ++ cl ++ rest) <> None.
Proof.
  induction cap as [|c cap IH].
  - simpl. destruct (cl ++ rest) as [|x y] eqn:E.
    + simpl. rewrite <- E, strip_prefix_app. discriminate.
    + cbn [star_greedy]. destruct (star_greedy cl y) as [[? ?]|]; [discriminate|].
      rewrite <- E, strip_prefix_app. discriminate.
  - cbn [append star_greedy].
    destruct (star_greedy cl (cap ++ cl ++ rest)) as [[? ?]|]; [discriminate|].
    now contradiction IH.
Qed.

(** A match is an occurrence of [opening], any characters, [closing]. *)
Lemma str_match_sound (re : RegExp) (s : string) (m : MatchArray) :
  str_match re s = Some m ->
  exists pre cap post,
    s = pre ++ opening re ++ cap ++ closing re ++ post
    /\ whole m = opening re ++ cap ++ closing re
    /\ group1 m = (if has_group re then Some cap else None).
Proof.
  induction s as [|c s IH]; intros H.
  - simpl in H. destruct (match_here re "") as [m'|] eqn:E; [|discriminate].
    injection H as ->. unfold match_here in E.
    destruct (strip_prefix (opening re) "") as [s1|] eqn:E1; [|discriminate].
    destruct ((if lazy_star re then star_lazy else star_greedy) (closing re) s1)
      as [[cap rest]|] eqn:E2; [|discriminate].
    injection E as <-. exists "", cap, rest. simpl.
    apply strip_prefix_sound in E1. rewrite E1.
    assert (s1 = cap ++ closing re ++ rest) as ->
      by (destruct (lazy_star re);
          [now apply star_lazy_sound | now apply star_greedy_sound]).
    auto.
  - cbn [str_match] in H.
    destruct (match_here re (String c s)) as [m'|] eqn:E.
    + injection H as ->. unfold match_here in E.
      destruct (strip_prefix (opening re) (String c s)) as [s1|] eqn:E1;
        [|discriminate].
      destruct ((if lazy_star re then star_lazy else star_greedy) (closing re) s1)
        as [[cap rest]|] eqn:E2; [|discriminate].
      injection E as <-. exists "", cap, rest. simpl.
      apply strip_prefix_sound in E1. rewrite E1.
      assert (s1 = cap ++ closing re ++ rest) as ->
        by (destruct (lazy_star re);
            [now apply star_lazy_sound | now apply star_greedy_sound]).
      auto.
    + destruct (IH H) as (pre & cap & post & -> & Hw & Hg).
      exists (String c pre), cap, post. auto.
Qed.

Lemma str_match_here (re : RegExp) (s : string) (m : MatchArray) :
  match_here re s = Some m -> str_match re s = Some m.
Proof. intros H. destruct s; simpl; now rewrite H. Qed.

Lemma str_match_later (re : RegExp) (c : ascii) (s : string) :
  str_match re s <> None -> str_match re (String c s) <> None.
Proof.
  intros H. cbn [str_match].
  destruct (match_here re (String c s)); [discriminate | exact H].
Qed.

(** Wherever such an occurrence exists, the pattern matches. *)
Lemma str_match_complete (re : RegExp) (pre cap post : string) :
  str_match re (pre ++ opening re ++ cap ++ closing re ++ post) <> None.
Proof.
  induction pre as [|c pre IH].
  - cbn [append].
    destruct (match_here re (opening re ++ cap ++ closing re ++ post)) as [m|] eqn:E.
    + rewrite (str_match_here _ _ E). discriminate.
    + exfalso. unfold match_here in E. rewrite strip_prefix_app in E.
      destruct (lazy_star re).
      * pose proof (@star_lazy_complete (closing re) cap post) as H.
        destruct (star_lazy _ _) as [[? ?]|]; [discriminate|easy].
      * pose proof (@star_greedy_complete (closing re) cap post) as H.
        destruct (star_greedy _ _) as [[? ?]|]; [discriminate|easy].
  - cbn [append]. now apply str_match_later.
Qed.

(** ** The fuel of the JSON reader *)

Ltac split_plain H :=
  repeat (match type of H with
          | context [match ?x with _ => _ end] =>
              lazymatch x with
              | context [parse_value] => fail
              | context [parse_elements] => fail
              | context [parse_members] => fail
              | _ => destruct x eqn:?
              end
          end; try discriminate H).

(** More fuel never changes a result. *)
Lemma parse_fuel_mono (n : nat) :
  forall m, (n <= m)%nat ->
    (forall s r, parse_value n s = Some r -> parse_value m s = Some r)
    /\ (forall s acc r,
           parse_elements n s acc = Some r -> parse_elements m s acc = Some r)
    /\ (forall s acc r,
           parse_members n s acc = Some r -> parse_members m s acc = Some r).
Proof.
  induction n as [|n IH]; intros m Hle.
  - repeat split; intros; discriminate.
  - destruct m as [|m]; [lia|].
    destruct (IH m ltac:(lia)) as (IHv & IHe & IHm). repeat split.
    + intros s r H. cbn [parse_value] in *. cbv zeta in *.
      split_plain H; auto.
    + intros s acc r H. cbn [parse_elements] in *.
      destruct (parse_value n s) as [[v r1]|] eqn:E; [|discriminate H].
      rewrite (IHv _ _ E). split_plain H; auto.
    + intros s acc r H. cbn [parse_members] in *.
      destruct (parse_string (skip_ws s)) as [[k r0]|]; [|discriminate H].
      destruct (skip_ws r0) as [|c r2]; [discriminate H|].
      destruct (Ascii.eqb c ":"); [|discriminate H].
      destruct (parse_value n r2) as [[v r3]|] eqn:E; [|discriminate H].
      rewrite (IHv _ _ E). split_plain H; auto.
Qed.

Lemma skip_ws_length (s : string) :
  (String.length (skip_ws s) <= String.length s)%nat.
Proof.
  induction s as [|c s IH]; cbn; [lia|].
  destruct (is_ws c); cbn; lia.
Qed.

Lemma strip_prefix_length (p s r : string) :
  strip_prefix p s = Some r ->
  String.length s = (String.length p + String.length r)%nat.
Proof.
  intros H. apply strip_prefix_sound in H. subst s.
  induction p as [|a p IH]; cbn; [reflexivity | now rewrite IH].
Qed.

Lemma take_digits_length (s : string) (ds : list Z) (r : string) :
  take_digits s = (ds, r) -> (String.length r <= String.length s)%nat.
Proof.
  revert ds r. induction s as [|c s IH]; cbn; intros ds r H.
  - injection H as <- <-. cbn. lia.
  - destruct (digit_val c).
    + destruct (take_digits s) as [ds' r'] eqn:E. injection H as <- <-.
      specialize (IH _ _ eq_refl). lia.
    + injection H as <- <-. cbn. lia.
Qed.

Ltac crunch :=
  repeat match goal with
         | H : context [match ?x with _ => _ end] |- _ => destruct x eqn:?
         | H : _ = _ |- _ => discriminate H
         | H : _ = _ |- _ => progress (injection H; clear H; intros; subst)
         end.

Ltac lengths :=
  repeat match goal with
         | E : take_digits _ = _ |- _ => apply take_digits_length in E
         end;
  cbn [String.length] in *; lia.

Lemma read_sign_length (s : string) (neg : bool) (r : string) :
  read_sign s = (neg, r) -> (String.length r <= String.length s)%nat.
Proof. unfold read_sign. intros H. crunch; lengths. Qed.

Lemma read_int_length (s : string) (ds : list Z) (r : string) :
  read_int s = Some (ds, r) -> (String.length r < String.length s)%nat.
Proof. unfold read_int. intros H. crunch; lengths. Qed.

Lemma read_frac_length (s : string) (ds : list Z) (r : string) :
  read_frac s = Some (ds, r) -> (String.length r <= String.length s)%nat.
Proof. unfold read_frac. intros H. crunch; lengths. Qed.

Lemma read_exp_length (s : string) (e : Z) (r : string) :
  read_exp s = Some (e, r) -> (String.length r <= String.length s)%nat.
Proof. unfold read_exp. intros H. crunch; lengths. Qed.

Lemma parse_number_length (s : string) (q : Q) (r : string) :
  parse_number s = Some (q, r) -> (String.length r < String.length s)%nat.
Proof.
  unfold parse_number. intros H.
  destruct (read_sign s) as [neg s1] eqn:E1.
  destruct (read_int s1) as [[ids s2]|] eqn:E2; [|discriminate H].
  destruct (read_frac s2) as [[fds s3]|] eqn:E3; [|discriminate H].
  destruct (read_exp s3) as [[e s4]|] eqn:E4; [|discriminate H].
  injection H as _ <-.
  apply read_sign_length in E1. apply read_int_length in E2.
  apply read_frac_length in E3. apply read_exp_length in E4. lia.
Qed.

Lemma parse_string_items_length (n : nat) :
  forall s items r,
    (String.length s <= n)%nat ->
    parse_string_items s = Some (items, r) ->
    (String.length r < String.length s)%nat.
Proof.
  induction n as [|n IH]; intros s items r Hn H.
  - destruct s; [discriminate H | cbn in Hn; lia].
  - destruct s as [|c s]; [discriminate H|]. cbn [parse_string_items] in H.
    cbn [String.length] in *.
    destruct (Ascii.eqb c DQUOTE); [injection H as _ <-; lia|].
    destruct (Ascii.eqb c "\").
    + destruct s as [|e s2]; [discriminate H|].
      destruct (simple_escape e).
      * destruct (parse_string_items s2) as [[i2 r2]|] eqn:E; [|discriminate H].
        injection H as _ <-. cbn [String.length] in *.
        apply IH in E; lia.
      * destruct (Ascii.eqb e "u"); [|discriminate H].
        destruct s2 as [|h1 [|h2 [|h3 [|h4 s3]]]]; try discriminate H.
        destruct (hex4 h1 h2 h3 h4); [|discriminate H].
        destruct (parse_string_items s3) as [[i3 r3]|] eqn:E; [|discriminate H].
        injection H as _ <-. cbn [String.length] in *.
        apply IH in E; lia.
    + destruct (nat_of_ascii c <? 32)%nat; [discriminate H|].
      destruct (parse_string_items s) as [[i1 r1]|] eqn:E; [|discriminate H].
      injection H as _ <-. apply IH in E; lia.
Qed.

Lemma parse_string_length (s str r : string) :
  parse_string s = Some (str, r) -> (String.length r < String.length s)%nat.
Proof.
  unfold parse_string. intros H. destruct s as [|c s]; [discriminate H|].
  destruct (Ascii.eqb c DQUOTE); [|discriminate H].
  destruct (parse_string_items s) as [[items r']|] eqn:E; [|discriminate H].
  injection H as _ <-.
  apply (@parse_string_items_length (String.length s)) in E; cbn; lia.
Qed.

Lemma skip_ws_eq_length (s t : string) :
  skip_ws s = t -> (String.length t <= String.length s)%nat.
Proof. intros <-. apply skip_ws_length. Qed.

Ltac to_lengths :=
  repeat match goal with
         | E : skip_ws _ = _ |- _ => apply skip_ws_eq_length in E
         | E : parse_string _ = Some _ |- _ => apply parse_string_length in E
         | E : parse_number _ = Some _ |- _ => apply parse_number_length in E
         | E : strip_prefix _ _ = Some _ |- _ => apply strip_prefix_length in E
         | E : Some _ = Some _ |- _ => injection E; clear E; intros; subst
         end;
  cbn [String.length] in *.

(** Every successful call consumes at least one character. *)
Lemma parse_consumes (n : nat) :
  (forall s v r, parse_value n s = Some (v, r) ->
                 (String.length r < String.length s)%nat)
  /\ (forall s acc v r, parse_elements n s acc = Some (v, r) ->
                        (String.length r < String.length s)%nat)
  /\ (forall s acc v r, parse_members n s acc = Some (v, r) ->
                        (String.length r < String.length s)%nat).
Proof.
  induction n as [|n (IHv & IHe & IHm)]; [repeat split; intros; discriminate|].
  repeat split.
  - intros s v r H. cbn [parse_value] in H. cbv zeta in H.
    split_plain H;
      try (apply IHm in H); try (apply IHe in H); to_lengths; lia.
  - intros s acc v r H. cbn [parse_elements] in H.
    destruct (parse_value n s) as [[v1 r1]|] eqn:E; [|discriminate H].
    apply IHv in E. split_plain H; try (apply IHe in H); to_lengths; lia.
  - intros s acc v r H. cbn [parse_members] in H.
    destruct (parse_string (skip_ws s)) as [[k r0]|] eqn:Ek; [|discriminate H].
    destruct (skip_ws r0) as [|c r2] eqn:E0; [discriminate H|].
    destruct (Ascii.eqb c ":"); [|discriminate H].
    destruct (parse_value n r2) as [[v1 r3]|] eqn:E; [|discriminate H].
    apply IHv in E. pose proof (skip_ws_length s).
    split_plain H; try (apply IHm in H); to_lengths; lia.
Qed.

(** Twice the number of characters consumed is fuel enough. *)
Lemma parse_fuel_enough (n : nat) :
  (forall s v r,
      parse_value n s = Some (v, r) ->
      parse_value (2 * (String.length s - String.length r)) s = Some (v, r))
  /\ (forall s acc v r,
         parse_elements n s acc = Some (v, r) ->
         parse_elements (2 * (String.length s - String.length r)) s acc = Some (v, r))
  /\ (forall s acc v r,
         parse_members n s acc = Some (v, r) ->
         parse_members (2 * (String.length s - String.length r)) s acc = Some (v, r)).
Proof.
  induction n as [|n (IHv & IHe & IHm)]; [repeat split; intros; discriminate|].
  destruct (parse_consumes n) as (Cv & Ce & Cm).
  repeat split.
  - intros s v r H.
    pose proof (proj1 (parse_consumes (S n)) _ _ _ H) as L.
    replace (2 * (String.length s - String.length r))%nat
      with (S (2 * (String.length s - String.length r) - 1)) by lia.
    cbn [parse_value] in *. cbv zeta in *.
    split_plain H; try exact H.
    + pose proof (Cm _ _ _ _ H) as L1. apply IHm in H.
      refine (proj2 (proj2 (@parse_fuel_mono _ _ _)) _ _ _ H).
      to_lengths; lia.
    + pose proof (Ce _ _ _ _ H) as L1. apply IHe in H.
      refine (proj1 (proj2 (@parse_fuel_mono _ _ _)) _ _ _ H).
      to_lengths; lia.
  - intros s acc v r H.
    pose proof (proj1 (proj2 (parse_consumes (S n))) _ _ _ _ H) as L.
    replace (2 * (String.length s - String.length r))%nat
      with (S (2 * (String.length s - String.length r) - 1)) by lia.
    cbn [parse_elements] in *.
    destruct (parse_value n s) as [[v1 r1]|] eqn:E; [|discriminate H].
    destruct (skip_ws r1) as [|c r2] eqn:E1; [discriminate H|].
    pose proof (skip_ws_length r1) as L1. rewrite E1 in L1. cbn in L1.
    pose proof (Cv _ _ _ E) as L0.
    assert (Hr : (String.length r <= String.length r2)%nat).
    { destruct (Ascii.eqb c ","); [apply Ce in H; lia|].
      destruct (Ascii.eqb c "]"); [|discriminate H].
      injection H as _ <-. lia. }
    assert (Hle : (2 * (String.length s - String.length r1)
                   <= 2 * (String.length s - String.length r) - 1)%nat) by lia.
    rewrite (proj1 (parse_fuel_mono Hle) _ _ (IHv _ _ _ E)), E1.
    destruct (Ascii.eqb c ","); [|exact H].
    apply IHe in H.
    refine (proj1 (proj2 (@parse_fuel_mono _ _ _)) _ _ _ H). lia.
  - intros s acc v r H.
    pose proof (proj2 (proj2 (parse_consumes (S n))) _ _ _ _ H) as L.
    replace (2 * (String.length s - String.length r))%nat
      with (S (2 * (String.length s - String.length r) - 1)) by lia.
    cbn [parse_members] in *.
    destruct (parse_string (skip_ws s)) as [[k r0]|] eqn:Ek; [|discriminate H].
    destruct (skip_ws r0) as [|c r2] eqn:E0; [discriminate H|].
    destruct (Ascii.eqb c ":"); [|discriminate H].
    destruct (parse_value n r2) as [[v1 r3]|] eqn:E; [|discriminate H].
    destruct (skip_ws r3) as [|c3 r4] eqn:E3; [discriminate H|].
    pose proof (skip_ws_length s) as Ls.
    pose proof (parse_string_length _ Ek) as Lk.
    pose proof (skip_ws_length r0) as L0. rewrite E0 in L0. cbn in L0.
    pose proof (skip_ws_length r3) as L3. rewrite E3 in L3. cbn in L3.
    pose proof (Cv _ _ _ E) as Lv.
    assert (Hr : (String.length r <= String.length r4)%nat).
    { destruct (Ascii.eqb c3 ","); [apply Cm in H; lia|].
      destruct (Ascii.eqb c3 "}"); [|discriminate H].
      injection H as _ <-. lia. }
    assert (Hle : (2 * (String.length r2 - String.length r3)
                   <= 2 * (String.length s - String.length r) - 1)%nat) by lia.
    rewrite (proj1 (parse_fuel_mono Hle) _ _ (IHv _ _ _ E)), E3.
    destruct (Ascii.eqb c3 ","); [|exact H].
    apply IHm in H.
    refine (proj2 (proj2 (@parse_fuel_mono _ _ _)) _ _ _ H). lia.
Qed.

(** [JSON_parse] finds a value exactly when some amount of fuel does: its
    own bound on the fuel rejects nothing. *)
Theorem JSON_parse_any_fuel (s : string) (v : JsValue) :
  JSON_parse s = Some v <->
  exists n rest, parse_value n s = Some (v, rest) /\ skip_ws rest = "".
Proof.
  unfold JSON_parse. split.
  - destruct (parse_value _ s) as [[v' rest]|] eqn:E; [|discriminate].
    destruct (skip_ws rest) eqn:Er; [|discriminate].
    intros [= ->]. eauto.
  - intros (n & rest & H & Hrest).
    apply (proj1 (parse_fuel_enough n)) in H.
    assert (Hle : (2 * (String.length s - String.length rest)
                   <= 2 * String.length s + 2)%nat) by lia.
    rewrite (proj1 (parse_fuel_mono Hle) _ _ H), Hrest. reflexivity.
Qed.

(** ** Where the patterns find an embedded payload *)

Lemma has_char_app (c : ascii) (a b : string) :
  has_char c (a ++ b) = has_char c a || has_char c b.
Proof.
  induction a as [|x a IH]; cbn; [reflexivity|].
  now rewrite IH, orb_assoc.
Qed.

Lemma star_lazy_unfold (cl s : string) :
  star_lazy cl s =
  match strip_prefix cl s with
  | Some rest => Some ("", rest)
  | None =>
      match s with
      | "" => None
      | String c s' =>
          match star_lazy cl s' with
          | Some (cap, rest) => Some (String c cap, rest)
          | None => None
          end
      end
  end.
Proof. destruct s; reflexivity. Qed.

Lemma str_match_unfold (re : RegExp) (s : string) :
  str_match re s =
  match match_here re s with
  | Some m => Some m
  | None =>
      match s with
      | "" => None
      | String _ s' => str_match re s'
      end
  end.
Proof. destruct s; reflexivity. Qed.

(** The lazy star takes the shortest run. *)
Lemma star_lazy_shortest (cl cap' rest' cap rest : string) :
  star_lazy cl (cap' ++ cl ++ rest') = Some (cap, rest) ->
  (String.length cap <= String.length cap')%nat.
Proof.
  revert cap rest. induction cap' as [|x cap' IH]; intros cap rest H.
  - rewrite star_lazy_unfold in H. cbn [append] in H.
    rewrite strip_prefix_app in H. injection H as <- _. cbn. lia.
  - rewrite star_lazy_unfold in H. cbn [append] in H.
    destruct (strip_prefix cl _); [injection H as <- _; cbn; lia|].
    destruct (star_lazy cl (cap' ++ cl ++ rest')) as [[c1 r1]|] eqn:E;
      [|discriminate].
    injection H as <- _. cbn. specialize (IH _ _ eq_refl). lia.
Qed.

(** The greedy star takes the longest run. *)
Lemma star_greedy_longest (cl cap' rest' cap rest : string) :
  star_greedy cl (cap' ++ cl ++ rest') = Some (cap, rest) ->
  (String.length cap' <= String.length cap)%nat.
Proof.
  revert cap rest. induction cap' as [|x cap' IH]; intros cap rest H.
  - cbn. lia.
  - cbn [append star_greedy] in H.
    destruct (star_greedy cl (cap' ++ cl ++ rest')) as [[c1 r1]|] eqn:E.
    + injection H as <- _. cbn. specialize (IH _ _ eq_refl). lia.
    + now contradiction (@star_greedy_complete cl cap' rest').
Qed.

(** Start positions whose character is not the first of [opening] are
    passed over. *)
Lemma str_match_skip (re : RegExp) (o : ascii) (o' pre s : string) :
  opening re = String o o' ->
  has_char o pre = false ->
  str_match re (pre ++ s) = str_match re s.
Proof.
  intros Hop. induction pre as [|x pre IH]; cbn [append has_char]; intros H;
    [reflexivity|].
  apply orb_false_elim in H as [Hx Hpre].
  rewrite str_match_unfold. unfold match_here at 1. rewrite Hop. cbn [strip_prefix].
  rewrite Ascii.eqb_sym, Hx. now apply IH.
Qed.

(** A text without the first character of [opening] has no match. *)
Lemma str_match_absent (re : RegExp) (o : ascii) (o' s : string) :
  opening re = String o o' ->
  has_char o s = false ->
  str_match re s = None.
Proof.
  intros Hop H.
  assert (Hs : s = s ++ "")
    by (clear; induction s as [|x s IH]; cbn; [reflexivity | now rewrite <- IH]).
  rewrite Hs, (str_match_skip re _ "" Hop H). cbn. unfold match_here.
  now rewrite Hop.
Qed.

(** The lazy star stops at [closing] when the run before it is free of
    the first character of [closing]. *)
Lemma star_lazy_stops (c : ascii) (cl' cap rest : string) :
  has_char c cap = false ->
  star_lazy (String c cl') (cap ++ String c cl' ++ rest) = Some (cap, rest).
Proof.
  induction cap as [|x cap IH]; intros H.
  - rewrite star_lazy_unfold. cbn [append strip_prefix].
    now rewrite Ascii.eqb_refl, strip_prefix_app.
  - cbn [has_char] in H. apply orb_false_elim in H as [Hx Hcap].
    change (String x cap ++ String c cl' ++ rest)
      with (String x (cap ++ String c cl' ++ rest)).
    rewrite star_lazy_unfold. cbn [strip_prefix].
    rewrite Ascii.eqb_sym, Hx, (IH Hcap). reflexivity.
Qed.

(** An embedded payload is the one the three patterns locate. *)
Lemma embedded_payload_located (body text : string) :
  has_char (chr 10) body = false ->
  has_char "`" body = false ->
  has_char "}" body = false ->
  embeds body text ->
  locate_payload text = Some ("{" ++ body ++ "}").
Proof.
  intros Hlf Hbq Hbr Hemb. unfold locate_payload, extraction_patterns.
  destruct Hemb as [pre post Hpre | pre post Hpre Hpre' Hpost].
  - cbn [first_match].
    rewrite (@str_match_skip re_fenced_json "`" ("``json" ++ LF) pre _ eq_refl Hpre).
    rewrite str_match_unfold. unfold match_here.
    change (opening re_fenced_json) with ("```json" ++ LF).
    rewrite strip_prefix_app.
    change (lazy_star re_fenced_json) with true. cbv iota.
    change (closing re_fenced_json) with (String (chr 10) "```").
    change ((LF ++ "```") ++ post) with (String (chr 10) "```" ++ post).
    rewrite star_lazy_stops.
    + reflexivity.
    + rewrite !has_char_app, Hlf. reflexivity.
  - assert (Hno : has_char "`" (pre ++ ("{" ++ body ++ "}") ++ post) = false).
    { rewrite !has_char_app, Hpre, Hpost, Hbq. reflexivity. }
    cbn [first_match].
    rewrite (@str_match_absent re_fenced_json "`" ("``json" ++ LF) _ eq_refl Hno).
    rewrite (@str_match_absent re_fenced "`" "``" _ eq_refl Hno).
    rewrite (@str_match_skip re_braces_lazy "{" "" pre _ eq_refl Hpre').
    rewrite str_match_unfold. unfold match_here.
    change (opening re_braces_lazy) with "{".
    change (("{" ++ body ++ "}") ++ post) with ("{" ++ ((body ++ "}") ++ post)).
    rewrite strip_prefix_app, string_app_assoc.
    change (lazy_star re_braces_lazy) with true. cbv iota.
    change (closing re_braces_lazy) with (String "}" "").
    rewrite (@star_lazy_stops "}" "" body post Hbr). reflexivity.
Qed.

(** ** The analysis operations: credential and sample-count checks *)

Lemma key_missing_iff (w : World) :
  key_missing w = true <->
  EXPO_PUBLIC_GEMINI_API_KEY w = None \/ EXPO_PUBLIC_GEMINI_API_KEY w = Some "".
Proof.
  unfold key_missing.
  destruct (EXPO_PUBLIC_GEMINI_API_KEY w) as [k|]; split; intros H.
  - right. apply String.eqb_eq in H. now subst.
  - destruct H as [H|H]; [discriminate|]. injection H as ->. reflexivity.
  - now left.
  - reflexivity.
Qed.

(** C2. With the credential EXPO_PUBLIC_GEMINI_API_KEY absent or empty,
    each of the four operations makes no network call and returns its
    kind-specific default, spelled out here for each kind (for
    [analyzeWeightTrends], given at least two samples: trend
    "maintaining", no weekly change, the could-not-analyze feedback and
    the three recommended actions). *)
Theorem missing_credential_returns_default :
  forall (w : World) (base64Image : string) (stats : UserStats)
         (geminiData : JsValue) (exerciseData : ExerciseData)
         (weightData : list WeightEntry) (goalWeight : Q) (weeklyGoal : string),
    EXPO_PUBLIC_GEMINI_API_KEY w = None \/ EXPO_PUBLIC_GEMINI_API_KEY w = Some "" ->
    analyzeFoodImage w base64Image =
      ([], JObj [("title", JStr "Unknown Meal");
                 ("items", JArr [JStr "Unknown food item"]);
                 ("calories", JNum 0); ("protein", JNum 0);
                 ("carbs", JNum 0); ("fats", JNum 0)])
    /\ getNutritionRecommendations w stats geminiData =
      ([], JObj [("calories", JNum 2000); ("protein", JNum 150);
                 ("carbs", JNum 200); ("fats", JNum 65)])
    /\ analyzeExercise w exerciseData =
      ([], JObj [("title",
                  JStr (type exerciseData ++ " (" ++
                        (if intensity exerciseData =? "" then "Moderate"
                         else intensity exerciseData) ++ ")"));
                 ("caloriesBurned", JNum 0);
                 ("description", JStr (description exerciseData))])
    /\ ((2 <= List.length weightData)%nat ->
        analyzeWeightTrends w weightData goalWeight weeklyGoal =
          ([], JObj [("trend", JStr "maintaining");
                     ("averageWeeklyChange", JNum 0);
                     ("feedback",
                      JStr "We couldn't analyze your weight trends at this time. Keep logging your weight regularly.");
                     ("recommendedActions",
                      JArr [JStr "Continue logging your weight daily or weekly";
                            JStr "Stay consistent with your nutrition plan";
                            JStr "Make sure to track all your meals and exercises"])])).
Proof.
  intros w img stats gd ex wd gw wg Hkey.
  apply key_missing_iff in Hkey.
  repeat split.
  - unfold analyzeFoodImage, analyzeFoodImage_try. rewrite Hkey. reflexivity.
  - unfold getNutritionRecommendations, getNutritionRecommendations_try.
    rewrite Hkey. reflexivity.
  - unfold analyzeExercise, analyzeExercise_try. rewrite Hkey. reflexivity.
  - intros Hlen. unfold analyzeWeightTrends, analyzeWeightTrends_try.
    destruct (Nat.ltb_spec (List.length wd) 2) as [Hlt|_]; [lia|].
    rewrite Hkey. reflexivity.
Qed.

Lemma missing_credential_returns_default_witness :
  analyzeFoodImage world_without_key "aGVsbG8=" =
    ([], JObj [("title", JStr "Unknown Meal");
               ("items", JArr [JStr "Unknown food item"]);
               ("calories", JNum 0); ("protein", JNum 0);
               ("carbs", JNum 0); ("fats", JNum 0)])
  /\ analyzeExercise world_without_key a_run =
    ([], JObj [("title", JStr "Running (Moderate)");
               ("caloriesBurned", JNum 0);
               ("description", JStr "Morning jog")])
  /\ analyzeWeightTrends world_without_key two_samples 75 "lose" =
    ([], JObj [("trend", JStr "maintaining");
               ("averageWeeklyChange", JNum 0);
               ("feedback",
                JStr "We couldn't analyze your weight trends at this time. Keep logging your weight regularly.");
               ("recommendedActions",
                JArr [JStr "Continue logging your weight daily or weekly";
                      JStr "Stay consistent with your nutrition plan";
                      JStr "Make sure to track all your meals and exercises"])]).
Proof.
  destruct (@missing_credential_returns_default world_without_key "aGVsbG8="
              [] JUndefined a_run two_samples 75 "lose" (or_introl eq_refl))
    as (Hfood & _ & Hex & Hw).
  split; [exact Hfood|].
  split; [exact Hex|].
  apply Hw. simpl. lia.
Defined.

(** C4. With fewer than two weight samples [analyzeWeightTrends] makes no
    network call and returns the fixed not-enough-data result, whatever
    the credential and whatever the world would answer: the check comes
    before anything else. *)
Theorem too_few_samples_short_circuit :
  forall (w : World) (weightData : list WeightEntry)
         (goalWeight : Q) (weeklyGoal : string),
    (List.length weightData < 2)%nat ->
    analyzeWeightTrends w weightData goalWeight weeklyGoal =
      ([], JObj [("trend", JStr "maintaining");
                 ("averageWeeklyChange", JNum 0);
                 ("feedback",
                  JStr "Not enough data to analyze trends. Keep logging your weight regularly.");
                 ("recommendedActions",
                  JArr [JStr "Continue logging your weight daily or weekly"])]).
Proof.
  intros w wd gw wg Hlen.
  unfold analyzeWeightTrends, analyzeWeightTrends_try.
  destruct (Nat.ltb_spec (List.length wd) 2) as [_|Hge]; [reflexivity|lia].
Qed.

Lemma too_few_samples_short_circuit_witness :
  analyzeWeightTrends world_without_key [] 75 "lose" = ([], notEnoughData)
  /\ analyzeWeightTrends (world_replying salad_payload)
       [ {| weight := 80; date := InvalidDate |} ] 75 "lose" = ([], notEnoughData).
Proof.
  split.
  - apply (@too_few_samples_short_circuit world_without_key [] 75 "lose").
    simpl. lia.
  - apply (@too_few_samples_short_circuit (world_replying salad_payload)
             [ {| weight := 80; date := InvalidDate |} ] 75 "lose").
    simpl. lia.
Defined.

(** ** The analysis operations on a successful transport *)

Lemma jsonMatch_first_match (text : string) :
  jsonMatch text = first_match extraction_patterns text.
Proof.
  unfold jsonMatch, extraction_patterns, first_match, or_match.
  destruct (str_match re_fenced_json text); [reflexivity|].
  destruct (str_match re_fenced text); [reflexivity|].
  destruct (str_match re_braces_lazy text); reflexivity.
Qed.

Lemma parsedResult_of_decode (text : string) (dflt : JsValue) :
  parsedResult_of (jsonMatch text) dflt = decode (locate_payload text) dflt.
Proof.
  unfold locate_payload. rewrite <- jsonMatch_first_match.
  destruct (jsonMatch text); reflexivity.
Qed.

Lemma fetch_textContent_ok (w : World) (text : string) :
  transport_ok w text ->
  fetch_textContent w = ([Fetch (request_url w)], Some (JStr text)).
Proof.
  intros (_ & body & Hfetch & Hbody).
  unfold fetch_textContent, bind, tell, lift. rewrite Hfetch. simpl.
  rewrite Hbody. reflexivity.
Qed.

Lemma analyzeFoodImage_on_text (w : World) (img text : string) :
  transport_ok w text ->
  analyzeFoodImage w img =
    ([Fetch (request_url w)],
     or_default (food_fields (decode (locate_payload text) createDefaultResult))
                createDefaultResult).
Proof.
  intros Hok. unfold analyzeFoodImage, analyzeFoodImage_try.
  rewrite (proj1 Hok), (fetch_textContent_ok Hok). cbn [bind as_string ret lift].
  rewrite parsedResult_of_decode.
  destruct (food_fields _); reflexivity.
Qed.

Lemma getNutritionRecommendations_on_text
  (w : World) (stats : UserStats) (geminiData : JsValue) (text : string) :
  transport_ok w text ->
  getNutritionRecommendations w stats geminiData =
    ([Fetch (request_url w)],
     or_default
       (nutrition_fields (decode (locate_payload text) createDefaultNutritionGoals))
       createDefaultNutritionGoals).
Proof.
  intros Hok. unfold getNutritionRecommendations, getNutritionRecommendations_try.
  rewrite (proj1 Hok), (fetch_textContent_ok Hok). cbn [bind as_string ret lift].
  rewrite parsedResult_of_decode.
  destruct (nutrition_fields _); reflexivity.
Qed.

Lemma analyzeWeightTrends_on_text
  (w : World) (weightData : list WeightEntry) (goalWeight : Q)
  (weeklyGoal text : string) :
  transport_ok w text ->
  (2 <= List.length weightData)%nat ->
  existsb date_is_invalid weightData = false ->
  analyzeWeightTrends w weightData goalWeight weeklyGoal =
    ([Fetch (request_url w)],
     decode (locate_payload text) createDefaultWeightAnalysis).
Proof.
  intros Hok Hlen Hdates. unfold analyzeWeightTrends, analyzeWeightTrends_try.
  destruct (Nat.ltb_spec (List.length weightData) 2) as [Hlt|_]; [lia|].
  rewrite (proj1 Hok), Hdates, (fetch_textContent_ok Hok).
  cbn [bind as_string ret lift]. rewrite parsedResult_of_decode. reflexivity.
Qed.

Lemma analyzeExercise_on_text (w : World) (exerciseData : ExerciseData) (text : string) :
  key_missing w = false ->
  generateContent w "gemini-2.0-flash" = SdkText text ->
  analyzeExercise w exerciseData =
    ([GenerateContent "gemini-2.0-flash"],
     match exercise_payload text with
     | None => exerciseFallback exerciseData
     | Some str =>
         match JSON_parse str with
         | None => exerciseFallback exerciseData
         | Some parsedResult =>
             or_default (exercise_fields exerciseData parsedResult)
                        (exerciseFallback exerciseData)
         end
     end).
Proof.
  intros Hkey Hsdk. unfold analyzeExercise, analyzeExercise_try, exercise_payload.
  rewrite Hkey, Hsdk. cbn [bind tell].
  destruct (str_match re_braces_greedy text) as [m|]; [|reflexivity].
  cbn [option_map]. unfold bind, lift, try_catch.
  destruct (JSON_parse (whole m)) as [p|]; [|reflexivity].
  destruct (exercise_fields exerciseData p); reflexivity.
Qed.

Lemma transport_ok_world_replying (text : string) (data : JsValue) :
  JSON_parse (gemini_body text) = Some data ->
  text_of_data data = Some (JStr text) ->
  transport_ok (world_replying text) text.
Proof.
  intros Hparse Htext. split; [reflexivity|].
  exists (gemini_body text). split; [reflexivity|].
  unfold textContent_of_body. rewrite Hparse. exact Htext.
Qed.

(** C3. A successful response in whose text the extraction finds the
    payload with "calories":"oops" yields exactly Salad / ["lettuce"] /
    0 / 5 / 10 / 2: only the ill-typed field takes its literal default. *)
Theorem salad_per_field_fallback :
  forall (w : World) (base64Image text : string),
    transport_ok w text ->
    locate_payload text = Some salad_payload ->
    analyzeFoodImage w base64Image =
      ([Fetch (request_url w)],
       JObj [("title", JStr "Salad");
             ("items", JArr [JStr "lettuce"]);
             ("calories", JNum 0); ("protein", JNum 5);
             ("carbs", JNum 10); ("fats", JNum 2)]).
Proof.
  intros w img text Hok Hloc.
  rewrite (analyzeFoodImage_on_text img Hok), Hloc.
  vm_compute. reflexivity.
Qed.

Lemma salad_per_field_fallback_witness :
  let salad :=
    JObj [("title", JStr "Salad"); ("items", JArr [JStr "lettuce"]);
          ("calories", JNum 0); ("protein", JNum 5);
          ("carbs", JNum 10); ("fats", JNum 2)] in
  let fenced := "Here you go: ```json" ++ LF ++ salad_payload ++ LF ++ "``` Enjoy!" in
  snd (analyzeFoodImage (world_replying salad_payload) "aGVsbG8=") = salad
  /\ snd (analyzeFoodImage (world_replying fenced) "aGVsbG8=") = salad.
Proof.
  split.
  - rewrite (@salad_per_field_fallback (world_replying salad_payload)
               "aGVsbG8=" salad_payload).
    + reflexivity.
    + eapply transport_ok_world_replying; vm_compute; reflexivity.
    + vm_compute. reflexivity.
  - rewrite (@salad_per_field_fallback
               (world_replying ("Here you go: ```json" ++ LF ++ salad_payload
                                ++ LF ++ "``` Enjoy!"))
               "aGVsbG8="
               ("Here you go: ```json" ++ LF ++ salad_payload ++ LF ++ "``` Enjoy!")).
    + reflexivity.
    + eapply transport_ok_world_replying; vm_compute; reflexivity.
    + vm_compute. reflexivity.
Defined.

(** C3 for the embeddings above: prose, then the payload in a labeled
    fence or bare. *)
Corollary salad_embedded (w : World) (base64Image text : string) :
  transport_ok w text ->
  embeds salad_body text ->
  analyzeFoodImage w base64Image =
    ([Fetch (request_url w)],
     JObj [("title", JStr "Salad");
           ("items", JArr [JStr "lettuce"]);
           ("calories", JNum 0); ("protein", JNum 5);
           ("carbs", JNum 10); ("fats", JNum 2)]).
Proof.
  intros Hok Hemb.
  assert (Hloc : locate_payload text = Some ("{" ++ salad_body ++ "}"))
    by (apply embedded_payload_located; [reflexivity .. | exact Hemb]).
  rewrite (analyzeFoodImage_on_text base64Image Hok), Hloc.
  vm_compute. reflexivity.
Qed.

(** ** Numeric fields *)

Lemma number_or_is_number (v : JsValue) (d : Q) : exists q, number_or v d = JNum q.
Proof. unfold number_or; destruct v; cbn; eauto. Qed.

Lemma food_fields_numeric (p r : JsValue) :
  food_fields p = Some r ->
  numeric_field r "calories" /\ numeric_field r "protein"
  /\ numeric_field r "carbs" /\ numeric_field r "fats".
Proof.
  unfold food_fields, numeric_field. intros H.
  destruct (get_prop p "title"), (get_prop p "items"),
    (get_prop p "calories") as [c|], (get_prop p "protein") as [pr|],
    (get_prop p "carbs") as [cb|], (get_prop p "fats") as [f|];
    try discriminate.
  injection H as <-. cbn.
  destruct (number_or_is_number c 0) as [q1 ->],
    (number_or_is_number pr 0) as [q2 ->],
    (number_or_is_number cb 0) as [q3 ->],
    (number_or_is_number f 0) as [q4 ->]; eauto 8.
Qed.

Lemma nutrition_fields_numeric (p r : JsValue) :
  nutrition_fields p = Some r ->
  numeric_field r "calories" /\ numeric_field r "protein"
  /\ numeric_field r "carbs" /\ numeric_field r "fats".
Proof.
  unfold nutrition_fields, numeric_field. intros H.
  destruct (get_prop p "calories") as [c|], (get_prop p "protein") as [pr|],
    (get_prop p "carbs") as [cb|], (get_prop p "fats") as [f|];
    try discriminate.
  injection H as <-. cbn.
  destruct (number_or_is_number c 2000) as [q1 ->],
    (number_or_is_number pr 150) as [q2 ->],
    (number_or_is_number cb 200) as [q3 ->],
    (number_or_is_number f 65) as [q4 ->]; eauto 8.
Qed.

Lemma try_catch_cases {A} (m : Eff A) (dflt : A) :
  snd (try_catch m dflt) = dflt \/ snd m = Some (snd (try_catch m dflt)).
Proof. destruct m as [cs [a|]]; simpl; auto. Qed.

Lemma bind_Some {A B} (m : Eff A) (k : A -> Eff B) (b : B) :
  snd (bind m k) = Some b -> exists a, snd m = Some a /\ snd (k a) = Some b.
Proof.
  destruct m as [cs [a|]]; simpl; [|discriminate].
  destruct (k a) as [cs' r] eqn:E. simpl. intros ->. exists a. now rewrite E.
Qed.

(** [analyzeFoodImage] always returns numbers in its four numeric fields. *)
Lemma analyzeFoodImage_numeric (w : World) (img : string) :
  let r := snd (analyzeFoodImage w img) in
  numeric_field r "calories" /\ numeric_field r "protein"
  /\ numeric_field r "carbs" /\ numeric_field r "fats".
Proof.
  assert (Hd : food_fields createDefaultResult = Some createDefaultResult)
    by reflexivity.
  cbv zeta. unfold analyzeFoodImage.
  destruct (try_catch_cases (analyzeFoodImage_try w img) createDefaultResult)
    as [-> | H]; [exact (@food_fields_numeric _ _ Hd)|].
  revert H. generalize (snd (try_catch (analyzeFoodImage_try w img)
                                        createDefaultResult)). intros r H.
  unfold analyzeFoodImage_try in H.
  destruct (key_missing w).
  - injection H as <-. exact (@food_fields_numeric _ _ Hd).
  - apply bind_Some in H as (tc & _ & H). apply bind_Some in H as (t & _ & H).
    exact (@food_fields_numeric _ _ H).
Qed.

(** So does [getNutritionRecommendations]. *)
Lemma getNutritionRecommendations_numeric
  (w : World) (stats : UserStats) (geminiData : JsValue) :
  let r := snd (getNutritionRecommendations w stats geminiData) in
  numeric_field r "calories" /\ numeric_field r "protein"
  /\ numeric_field r "carbs" /\ numeric_field r "fats".
Proof.
  assert (Hd : nutrition_fields createDefaultNutritionGoals
               = Some createDefaultNutritionGoals) by reflexivity.
  cbv zeta. unfold getNutritionRecommendations.
  destruct (try_catch_cases (getNutritionRecommendations_try w stats geminiData)
              createDefaultNutritionGoals) as [-> | H];
    [exact (@nutrition_fields_numeric _ _ Hd)|].
  revert H. generalize (snd (try_catch
    (getNutritionRecommendations_try w stats geminiData)
    createDefaultNutritionGoals)). intros r H.
  unfold getNutritionRecommendations_try in H.
  destruct (key_missing w).
  - injection H as <-. exact (@nutrition_fields_numeric _ _ Hd).
  - apply bind_Some in H as (tc & _ & H). apply bind_Some in H as (t & _ & H).
    exact (@nutrition_fields_numeric _ _ H).
Qed.

(** C1, at the inputs where it fails. [analyzeWeightTrends] returns the
    decoded payload unchecked: a payload without averageWeeklyChange gives
    a result without it. [analyzeExercise] keeps any truthy caloriesBurned:
    a string stays a string. (The numeric fields of [analyzeFoodImage] and
    [getNutritionRecommendations] are numbers for every response, see
    [analyzeFoodImage_numeric] and [getNutritionRecommendations_numeric].) *)
Theorem numeric_contract_broken :
  (snd (analyzeWeightTrends (world_replying losing_only) two_samples 75 "lose")
     = JObj [("trend", JStr "losing")]
   /\ ~ numeric_field
         (snd (analyzeWeightTrends (world_replying losing_only) two_samples 75 "lose"))
         "averageWeeklyChange")
  /\ (snd (analyzeExercise (world_replying calories_as_text) a_run)
        = JObj [("title", JStr "Running (Moderate)");
                ("caloriesBurned", JStr "lots");
                ("description", JStr "Morning jog")]
      /\ ~ numeric_field
            (snd (analyzeExercise (world_replying calories_as_text) a_run))
            "caloriesBurned").
Proof.
  assert (Hw : snd (analyzeWeightTrends (world_replying losing_only)
                      two_samples 75 "lose") = JObj [("trend", JStr "losing")])
    by (vm_compute; reflexivity).
  assert (He : snd (analyzeExercise (world_replying calories_as_text) a_run)
               = JObj [("title", JStr "Running (Moderate)");
                       ("caloriesBurned", JStr "lots");
                       ("description", JStr "Morning jog")])
    by (vm_compute; reflexivity).
  rewrite Hw, He. repeat split; intros [q Hq]; discriminate Hq.
Qed.

(** ** Extraction of the payload *)

(** C5 as stated fails for [analyzeExercise]: on a text with two objects
    its single greedy pattern takes the span from the first opening brace
    to the last closing one, where the three ordered patterns stop at the
    first closing brace; the operation then falls back to its default,
    whereas the first object alone gives 1. *)
Lemma exercise_extraction_differs :
  exercise_payload two_objects = Some two_objects
  /\ locate_payload two_objects = Some first_object
  /\ snd (analyzeExercise (world_replying two_objects) a_run)
     = exerciseFallback a_run
  /\ snd (analyzeExercise (world_replying first_object) a_run)
     = JObj [("title", JStr "Running (Moderate)");
             ("caloriesBurned", JNum 1);
             ("description", JStr "Morning jog")]
  /\ ~ exercise_uses_three_patterns.
Proof.
  repeat split; try (vm_compute; reflexivity).
  intros H. specialize (H two_objects). vm_compute in H. discriminate H.
Qed.

(** C5, amended. The chain of three [match] calls of the source locates
    the payload of the first pattern, in the order labeled fence, plain
    fence, bare braces, that matches; for [analyzeFoodImage],
    [getNutritionRecommendations] and [analyzeWeightTrends] the result is
    a function of that payload, the kind's default standing in when there
    is none; [analyzeExercise] works on the single greedy brace span and
    treats no match as a failure. *)
Theorem extraction_by_kind :
  forall (w : World) (text : string),
    transport_ok w text ->
    option_map jsonStr_of (jsonMatch text) = locate_payload text
    /\ (forall img,
        analyzeFoodImage w img =
          ([Fetch (request_url w)],
           or_default
             (food_fields (decode (locate_payload text) createDefaultResult))
             createDefaultResult))
    /\ (forall stats geminiData,
        getNutritionRecommendations w stats geminiData =
          ([Fetch (request_url w)],
           or_default
             (nutrition_fields
                (decode (locate_payload text) createDefaultNutritionGoals))
             createDefaultNutritionGoals))
    /\ (forall weightData goalWeight weeklyGoal,
        (2 <= List.length weightData)%nat ->
        existsb date_is_invalid weightData = false ->
        analyzeWeightTrends w weightData goalWeight weeklyGoal =
          ([Fetch (request_url w)],
           decode (locate_payload text) createDefaultWeightAnalysis))
    /\ (forall exerciseData said,
        generateContent w "gemini-2.0-flash" = SdkText said ->
        analyzeExercise w exerciseData =
          ([GenerateContent "gemini-2.0-flash"],
           match exercise_payload said with
           | None => exerciseFallback exerciseData
           | Some str =>
               match JSON_parse str with
               | None => exerciseFallback exerciseData
               | Some parsedResult =>
                   or_default (exercise_fields exerciseData parsedResult)
                              (exerciseFallback exerciseData)
               end
           end)).
Proof.
  intros w text Hok. repeat split.
  - unfold locate_payload. now rewrite jsonMatch_first_match.
  - intros img. now apply analyzeFoodImage_on_text.
  - intros stats gd. now apply getNutritionRecommendations_on_text.
  - intros wd gw wg Hlen Hdates. now apply analyzeWeightTrends_on_text.
  - intros ex said Hsdk. apply analyzeExercise_on_text; [apply Hok | exact Hsdk].
Qed.

Lemma extraction_by_kind_witness :
  snd (analyzeFoodImage (world_replying fenced_salad) "aGVsbG8=")
  = JObj [("title", JStr "Salad"); ("items", JArr [JStr "lettuce"]);
          ("calories", JNum 0); ("protein", JNum 5);
          ("carbs", JNum 10); ("fats", JNum 2)]
  /\ snd (getNutritionRecommendations (world_replying fenced_salad) [] JUndefined)
     = JObj [("calories", JNum 2000); ("protein", JNum 5);
             ("carbs", JNum 10); ("fats", JNum 2)]
  /\ snd (analyzeWeightTrends (world_replying fenced_salad) two_samples 75 "lose")
     = decode (Some salad_payload) createDefaultWeightAnalysis
  /\ snd (analyzeExercise (world_replying fenced_salad) a_run)
     = JObj [("title", JStr "Salad"); ("caloriesBurned", JNum 0);
             ("description", JStr "Morning jog")].
Proof.
  assert (Hok : transport_ok (world_replying fenced_salad) fenced_salad)
    by (eapply transport_ok_world_replying; vm_compute; reflexivity).
  destruct (@extraction_by_kind (world_replying fenced_salad) fenced_salad Hok)
    as (_ & Hfood & Hnut & Hweight & Hex).
  split; [|split; [|split]].
  - rewrite Hfood. vm_compute. reflexivity.
  - rewrite Hnut. vm_compute. reflexivity.
  - rewrite (Hweight two_samples 75 "lose"); [|simpl; lia|reflexivity].
    vm_compute. reflexivity.
  - rewrite (Hex a_run fenced_salad); [|reflexivity].
    vm_compute. reflexivity.
Defined.

(** ** The Auth Reconciler *)

Section AuthReconciler.
Import Auth.

Ltac auth_unfold :=
  unfold handle, onAuthStateChanged_listener, signIn, signUp, signOut,
    deleteAccount, saveAuthSession, handleAuthNavigation, formatUser,
    catch, mbind, emit, of_reply, raise, mret,
    setUser, setIsLoading, setAuthReady, setInitializing,
    state_of, effects_of, result_of in *.

Ltac oracle_cases :=
  repeat match goal with
         | |- context [removeItem ?r ?k] => destruct (removeItem r k) eqn:?
         | |- context [setItem ?r ?k ?v] => destruct (setItem r k v) eqn:?
         | |- context [signInWithEmailAndPassword ?r ?e ?p] =>
             destruct (signInWithEmailAndPassword r e p) eqn:?
         | |- context [createUserWithEmailAndPassword ?r ?e ?p] =>
             destruct (createUserWithEmailAndPassword r e p) eqn:?
         | |- context [firebaseSignOut ?r] => destruct (firebaseSignOut r) eqn:?
         | |- context [deleteUser ?r ?u] => destruct (deleteUser r u) eqn:?
         | |- context [currentUser ?r] => destruct (currentUser r) eqn:?
         end.

Ltac auth_run := auth_unfold; oracle_cases; cbn.

(** No input ever switches [authReady] off. *)
Lemma authReady_kept (r : Remote) (i : Input) (s : AuthState) :
  authReady s = true -> authReady (state_of (handle r i s)) = true.
Proof.
  destruct s as [u l ready ini]. cbn. intros ->.
  destruct i as [[fu|]|e p|e p| |]; auth_run; try reflexivity;
    destruct ini; reflexivity.
Qed.

(** A handled input: an event sets [authReady] and clears [initializing],
    anything else leaves both alone. *)
Lemma flags_after (r : Remote) (i : Input) (s : AuthState) :
  handled (r, i) ->
  authReady (state_of (handle r i s))
    = (if is_event (r, i) then true else authReady s)
  /\ initializing (state_of (handle r i s))
    = (if is_event (r, i) then false else initializing s).
Proof.
  unfold handled, is_event. cbn [fst snd].
  destruct s as [u l ready ini].
  destruct i as [[fu|]|e p|e p| |]; intros H; try rewrite H; auth_run;
    try (split; reflexivity); try discriminate;
    destruct ready, ini; split; reflexivity.
Qed.

Lemma flags_from (s : AuthState) (history : list (Remote * Input)) :
  Forall handled history ->
  authReady (state_from s history) = (authReady s || existsb is_event history)
  /\ initializing (state_from s history)
     = (initializing s && negb (existsb is_event history)).
Proof.
  revert s. induction history as [|[r i] rest IH]; intros s Hall.
  - cbn. now rewrite orb_false_r, andb_true_r.
  - inversion Hall as [|? ? Hri Hrest]; subst.
    cbn [state_from existsb]. destruct (IH (state_of (handle r i s)) Hrest) as [-> ->].
    destruct (@flags_after r i s Hri) as [-> ->].
    destruct (is_event (r, i)); cbn.
    + now rewrite orb_true_r, andb_false_r.
    + split; reflexivity.
Qed.

Lemma state_from_app (s : AuthState) (h1 h2 : list (Remote * Input)) :
  state_from s (h1 ++ h2)%list = state_from (state_from s h1) h2.
Proof.
  revert s. induction h1 as [|[r i] h1 IH]; intros s; cbn; [reflexivity|apply IH].
Qed.

Lemma ready_transitions_from (s : AuthState) (history : list (Remote * Input)) :
  Forall handled history ->
  ready_transitions s history
  = if negb (authReady s) && existsb is_event history then 1%nat else 0%nat.
Proof.
  revert s. induction history as [|[r i] rest IH]; intros s Hall.
  - cbn. now rewrite andb_false_r.
  - inversion Hall as [|? ? Hri Hrest]; subst.
    cbn [ready_transitions existsb]. rewrite (IH _ Hrest).
    destruct (@flags_after r i s Hri) as [-> _].
    destruct (is_event (r, i)), (authReady s); cbn; reflexivity.
Qed.

(** Whenever the listener runs to its end the flag behaves as the spec
    says: [authReady] starts false; no input ever reverts it; every
    auth-state event, whatever its payload, leaves it true; so along a
    history it goes from false to true exactly once, at the first event. *)
Theorem authReady_set_once :
  authReady initial = false
  /\ (forall history r i,
         authReady (state_after history) = true ->
         authReady (state_after (history ++ [(r, i)])) = true)
  /\ (forall history r firebaseUser,
         Forall handled history ->
         handled (r, AuthStateChanged firebaseUser) ->
         authReady (state_after history) = existsb is_event history
         /\ authReady (state_after (history ++ [(r, AuthStateChanged firebaseUser)]))
            = true)
  /\ (forall history,
         Forall handled history ->
         ready_transitions initial history
         = if existsb is_event history then 1%nat else 0%nat).
Proof.
  split; [reflexivity|]. split; [|split].
  - intros history r i H. unfold state_after in *.
    rewrite state_from_app. cbn [state_from]. now apply authReady_kept.
  - intros history r fu Hall Hev. unfold state_after. split.
    + now destruct (@flags_from initial history Hall) as [-> _].
    + rewrite state_from_app. cbn [state_from].
      now destruct (@flags_after r (AuthStateChanged fu) (state_from initial history) Hev) as [-> _].
  - intros history Hall. now rewrite (@ready_transitions_from initial history Hall).
Qed.

Lemma a_session_handled : Forall handled a_session.
Proof. repeat constructor. Qed.

Lemma authReady_set_once_witness :
  authReady (state_after a_session) = true
  /\ ready_transitions initial a_session = 1%nat.
Proof.
  destruct authReady_set_once as (_ & _ & Hevent & Honce).
  split.
  - refine (proj2 (Hevent (firstn 5 a_session) calm None _ _)).
    + repeat constructor.
    + reflexivity.
  - exact (Honce a_session a_session_handled).
Defined.

(** When the snapshot removal of a signed-out event rejects, the listener
    stops at that [await]: only [setUser(null)] has happened. *)
Lemma listener_stopped_by_rejection (r : Remote) (e : JsError) (s : AuthState) :
  removeItem r AUTH_SESSION_KEY = Some e ->
  onAuthStateChanged_listener r None s
  = ([SetUser None; RemoveItem AUTH_SESSION_KEY],
     {| user := None; isLoading := isLoading s;
        authReady := authReady s; initializing := initializing s |},
     inl e).
Proof. intros H. auth_unfold. rewrite H. reflexivity. Qed.

(** C6, at the input where it fails. The first auth-state event says
    signed out and [AsyncStorage.removeItem] rejects: [saveAuthSession]
    awaits the removal outside any [try], the listener stops there, and
    [authReady] is still false after the first event. *)
Theorem authReady_missed_on_rejected_removal :
  handle failing_storage (AuthStateChanged None) initial
  = ([SetUser None; RemoveItem AUTH_SESSION_KEY],
     {| user := None; isLoading := true; authReady := false; initializing := true |},
     inl storage_failure)
  /\ authReady (state_after [(failing_storage, AuthStateChanged None)]) = false.
Proof. split; reflexivity. Qed.

Lemma listener_navigations (r : Remote) (fu : option FirebaseUser) (s : AuthState) :
  handled (r, AuthStateChanged fu) ->
  navigations (effects_of (onAuthStateChanged_listener r fu s))
  = if initializing s then []
    else [RouterReplace (match formatUser fu with
                         | Some _ => "/"
                         | None => "/(onboarding)/welcome"
                         end)].
Proof.
  unfold handled. cbn [fst snd]. destruct s as [u l ready ini].
  destruct fu as [fu|]; intros H; auth_run; try congruence;
    destruct ready, ini; reflexivity.
Qed.

(** [signIn], [signUp], [signOut] and [deleteAccount] never navigate. *)
Lemma operations_never_navigate (r : Remote) (i : Input) (s : AuthState) :
  is_event (r, i) = false -> navigations (effects_of (handle r i s)) = [].
Proof.
  destruct i as [fu|e p|e p| |]; cbn; intros H; try discriminate;
    auth_run; try reflexivity;
    match goal with |- context [rethrown_by_inner_catch ?e] =>
      unfold rethrown_by_inner_catch; destruct (requires_recent_login e) end;
    reflexivity.
Qed.

(** Whenever the listener runs to its end navigation is as the spec says:
    the first auth-state event navigates nowhere; every later event
    navigates exactly once, to "/" (the post-auth landing resolver) when
    the mapped user is non-null, to the signed-out welcome screen when it
    is null. *)
Theorem navigation_after_first_event :
  forall (history : list (Remote * Input)) (r : Remote)
         (firebaseUser : option FirebaseUser),
    Forall handled history ->
    handled (r, AuthStateChanged firebaseUser) ->
    navigations
      (effects_of (handle r (AuthStateChanged firebaseUser) (state_after history)))
    = if existsb is_event history
      then [RouterReplace (match formatUser firebaseUser with
                           | Some _ => "/"
                           | None => "/(onboarding)/welcome"
                           end)]
      else [].
Proof.
  intros history r fu Hall Hev. cbn [handle].
  rewrite (@listener_navigations r fu (state_after history) Hev).
  unfold state_after. destruct (@flags_from initial history Hall) as [_ ->].
  cbn. destruct (existsb is_event history); reflexivity.
Qed.

Lemma navigation_after_first_event_witness :
  navigations (effects_of (handle calm (AuthStateChanged (Some alice)) initial)) = []
  /\ navigations
       (effects_of (handle calm (AuthStateChanged (Some alice))
                      (state_after (firstn 3 a_session))))
     = [RouterReplace "/"]
  /\ navigations
       (effects_of (handle calm (AuthStateChanged None)
                      (state_after (firstn 5 a_session))))
     = [RouterReplace "/(onboarding)/welcome"].
Proof.
  split; [|split].
  - refine (@navigation_after_first_event [] calm (Some alice) _ _).
    + constructor.
    + exact I.
  - refine (@navigation_after_first_event (firstn 3 a_session) calm (Some alice) _ _).
    + repeat constructor.
    + exact I.
  - refine (@navigation_after_first_event (firstn 5 a_session) calm None _ _).
    + repeat constructor.
    + reflexivity.
Defined.

(** C7, at the input where it fails. After a first event, a second one
    says signed out and [AsyncStorage.removeItem] rejects: the listener
    stops at that [await], before [handleAuthNavigation], and this
    subsequent event navigates nowhere. *)
Theorem navigation_missed_on_rejected_removal :
  is_event (calm, AuthStateChanged (Some alice)) = true
  /\ handle failing_storage (AuthStateChanged None)
       (state_after [(calm, AuthStateChanged (Some alice))])
     = ([SetUser None; RemoveItem AUTH_SESSION_KEY],
        {| user := None; isLoading := false;
           authReady := true; initializing := false |},
        inl storage_failure)
  /\ navigations
       (effects_of
          (handle failing_storage (AuthStateChanged None)
             (state_after [(calm, AuthStateChanged (Some alice))])))
     = [].
Proof. repeat split; reflexivity. Qed.

Ltac protocol_case :=
  cbn;
  repeat match goal with
         | |- _ /\ _ => split
         | |- exists rest, _ = _ :: rest => eexists; reflexivity
         | |- exists before, ?l = (before ++ _)%list =>
             exists (removelast l); reflexivity
         | |- _ = _ => reflexivity
         end.

(** C8. Each of [signIn], [signUp], [signOut], [deleteAccount] switches
    [isLoading] on first; when a remote call fails it switches it off and
    raises to its caller; the failure is raised as it came, except that
    [deleteAccount] replaces one whose code is auth/requires-recent-login
    by the instruction to sign out and sign in again. *)
Theorem loading_reset_and_reraise :
  forall (r : Remote) (email password : string),
    loading_protocol (signIn r email password)
      (rejection (signInWithEmailAndPassword r email password))
    /\ loading_protocol (signUp r email password)
      (rejection (createUserWithEmailAndPassword r email password))
    /\ loading_protocol (signOut r)
      (first_rejection [removeItem r AUTH_SESSION_KEY; firebaseSignOut r])
    /\ loading_protocol (deleteAccount r)
      (match currentUser r with
       | None => Some {| code := None; message := "No authenticated user found" |}
       | Some cu =>
           option_map rethrown_by_inner_catch
             (first_rejection [removeItem r AUTH_SESSION_KEY; deleteUser r cu])
       end)
    /\ (forall e,
           code e = Some "auth/requires-recent-login" ->
           rethrown_by_inner_catch e
           = {| code := None;
                message := "For security reasons, please sign out and sign in again before deleting your account." |})
    /\ (forall e,
           code e <> Some "auth/requires-recent-login" ->
           rethrown_by_inner_catch e = e).
Proof.
  intros r email password. repeat apply conj.
  - intros [u l ready ini]. auth_run; protocol_case.
  - intros [u l ready ini]. auth_run; protocol_case.
  - intros [u l ready ini]. auth_run; protocol_case.
  - intros [u l ready ini]. auth_run; protocol_case.
  - intros e H. unfold rethrown_by_inner_catch, requires_recent_login.
    rewrite H. reflexivity.
  - intros e H. unfold rethrown_by_inner_catch, requires_recent_login.
    destruct (code e) as [c|]; [|reflexivity].
    destruct (String.eqb_spec c "auth/requires-recent-login") as [->|_];
      [now contradiction H | reflexivity].
Qed.

Lemma loading_reset_and_reraise_witness :
  result_of (signIn stormy "alice@example.com" "nope" initial) = inl wrong_password
  /\ isLoading (state_of (signIn stormy "alice@example.com" "nope" initial)) = false
  /\ rethrown_by_inner_catch stale_login
     = {| code := None; message := recent_login_message |}
  /\ rethrown_by_inner_catch wrong_password = wrong_password.
Proof.
  destruct (@loading_reset_and_reraise stormy "alice@example.com" "nope")
    as (Hin & _ & _ & _ & Hstale & Hother).
  destruct (Hin initial) as (_ & Hres & Hload & _).
  split; [exact Hres|]. split; [exact Hload|]. split.
  - apply Hstale. reflexivity.
  - apply Hother. discriminate.
Defined.

End AuthReconciler.

(** ** RevenueCat set-up *)

Section Billing.
Import RevenueCat.

Lemma validate_false_iff (c : Config) :
  validateRevenueCatConfig c = false <-> checked_setting_empty c.
Proof.
  unfold validateRevenueCatConfig, checked_setting_empty, not_str.
  destruct c as [os ios android monthly yearly premium offering]. cbn.
  destruct (String.eqb_spec os "ios"), (String.eqb_spec os "android"),
    (String.eqb_spec ios ""), (String.eqb_spec android ""),
    (String.eqb_spec monthly ""), (String.eqb_spec yearly ""),
    (String.eqb_spec premium ""), (String.eqb_spec offering "");
    cbn; split; intros H; try discriminate; try reflexivity;
    try tauto; intuition congruence.
Qed.

(** C9 as stated fails twice. On a platform that is neither ios nor
    android no key is checked, and the SDK is configured with the empty
    key [getApiKey] returns. And with every setting present a rejected
    [Purchases.configure] lands in the outer [catch]: the result is false
    and no warm-up fetch is made. *)
Lemma configure_claim_fails :
  configureRevenueCat (source_config "web" "" "") sdk_fine
  = ([Purchases_configure ""; Purchases_getCustomerInfo], true)
  /\ configureRevenueCat (source_config "ios" "appl_key" "goog_key") sdk_refusing
     = ([Purchases_configure "appl_key"], false)
  /\ ~ configure_as_stated.
Proof.
  split; [reflexivity|]. split; [reflexivity|].
  intros H.
  destruct (H (source_config "web" "" "") sdk_fine) as [Hempty _].
  assert (Hweb : some_setting_empty (source_config "web" "" ""))
    by (left; reflexivity).
  specialize (Hempty Hweb). discriminate Hempty.
Qed.

(** C9, amended. [configureRevenueCat] returns false without any SDK call
    when a checked setting is empty: the iOS key on ios, the Android key
    on android, a product identifier, the entitlement or the offering.
    Otherwise it calls [Purchases.configure] with [getApiKey()]; if that
    call rejects the result is false and nothing else is called; if not,
    one [getCustomerInfo] follows and the result is true whether or not
    that fetch rejects. *)
Theorem configureRevenueCat_outcomes :
  forall (c : Config) (sdk : Sdk),
    (checked_setting_empty c -> configureRevenueCat c sdk = ([], false))
    /\ (~ checked_setting_empty c ->
        configure_rejects sdk (getApiKey c) = true ->
        configureRevenueCat c sdk = ([Purchases_configure (getApiKey c)], false))
    /\ (~ checked_setting_empty c ->
        configure_rejects sdk (getApiKey c) = false ->
        configureRevenueCat c sdk
        = ([Purchases_configure (getApiKey c); Purchases_getCustomerInfo], true)).
Proof.
  intros c sdk. unfold configureRevenueCat.
  pose proof (validate_false_iff c) as Hv.
  destruct (validateRevenueCatConfig c); cbn.
  - assert (Hn : ~ checked_setting_empty c)
      by (intros H; apply Hv in H; discriminate H).
    repeat split; intros H; try (now contradiction Hn).
    + intros ->. reflexivity.
    + intros ->. destruct (getCustomerInfo_rejects sdk); reflexivity.
  - assert (Hy : checked_setting_empty c) by (now apply Hv).
    repeat split; intros H; try reflexivity; now contradiction H.
Qed.

Lemma configureRevenueCat_outcomes_witness :
  configureRevenueCat (source_config "ios" "" "goog_key") sdk_fine = ([], false)
  /\ configureRevenueCat (source_config "android" "appl_key" "goog_key") sdk_refusing
     = ([Purchases_configure "goog_key"], false)
  /\ configureRevenueCat (source_config "ios" "appl_key" "goog_key") sdk_offline
     = ([Purchases_configure "appl_key"; Purchases_getCustomerInfo], true).
Proof.
  split; [|split].
  - refine (proj1 (@configureRevenueCat_outcomes
                     (source_config "ios" "" "goog_key") sdk_fine) _).
    left. split; reflexivity.
  - refine (proj1 (proj2 (@configureRevenueCat_outcomes
                     (source_config "android" "appl_key" "goog_key") sdk_refusing))
                  _ _).
    + intros H. apply validate_false_iff in H. discriminate H.
    + reflexivity.
  - refine (proj2 (proj2 (@configureRevenueCat_outcomes
                     (source_config "ios" "appl_key" "goog_key") sdk_offline))
                  _ _).
    + intros H. apply validate_false_iff in H. discriminate H.
    + reflexivity.
Defined.

(** C10. On a platform that is neither ios nor android the validation
    checks no API key and, the other constants being set in the source,
    returns true, empty keys included; [configureRevenueCat] then first
    calls [Purchases.configure] with the Android key, the one [getApiKey]
    returns there. *)
Theorem other_platform_skips_key_checks :
  forall (os ios_key android_key : string) (sdk : Sdk),
    os <> "ios" -> os <> "android" ->
    validateRevenueCatConfig (source_config os "" "") = true
    /\ validateRevenueCatConfig (source_config os ios_key android_key) = true
    /\ getApiKey (source_config os ios_key android_key) = android_key
    /\ exists rest,
         fst (configureRevenueCat (source_config os ios_key android_key) sdk)
         = Purchases_configure android_key :: rest.
Proof.
  intros os ios_key android_key sdk Hios Handroid.
  assert (Hv : forall i a, validateRevenueCatConfig (source_config os i a) = true).
  { intros i a. unfold validateRevenueCatConfig, source_config. cbn.
    apply String.eqb_neq in Hios, Handroid. rewrite Hios, Handroid. reflexivity. }
  assert (Hk : getApiKey (source_config os ios_key android_key) = android_key).
  { unfold getApiKey. cbn. apply String.eqb_neq in Hios. now rewrite Hios. }
  repeat split; try apply Hv; try exact Hk.
  unfold configureRevenueCat. rewrite Hv, Hk. cbn.
  destruct (configure_rejects sdk android_key); [eexists; reflexivity|].
  destruct (getCustomerInfo_rejects sdk); eexists; reflexivity.
Qed.

Lemma other_platform_skips_key_checks_witness :
  validateRevenueCatConfig (source_config "web" "" "") = true
  /\ fst (configureRevenueCat (source_config "web" "" "") sdk_fine)
     = [Purchases_configure ""; Purchases_getCustomerInfo].
Proof.
  destruct (@other_platform_skips_key_checks "web" "" "" sdk_fine)
    as (Hv & _ & _ & _); [discriminate | discriminate |].
  split; [exact Hv | reflexivity].
Defined.

End Billing.

(** ** More on the analysis operations *)

Lemma fst_try_catch {A} (m : Eff A) (dflt : A) : fst (try_catch m dflt) = fst m.
Proof. destruct m as [cs [a|]]; reflexivity. Qed.

Lemma fst_bind_silent {A B} (m : Eff A) (k : A -> Eff B) :
  (forall a, fst (k a) = []) -> fst (bind m k) = fst m.
Proof.
  intros Hk. destruct m as [cs [a|]]; cbn; [|reflexivity].
  specialize (Hk a). destruct (k a) as [cs' r]. cbn in *. subst cs'.
  apply app_nil_r.
Qed.

Lemma fst_fetch_textContent (w : World) :
  fst (fetch_textContent w) = [Fetch (request_url w)].
Proof.
  unfold fetch_textContent, bind, tell, throw, lift.
  destruct (fetch w (request_url w)) as [|ok body]; [reflexivity|].
  destruct ok; reflexivity.
Qed.

Lemma fst_as_string_then {B} (k : string -> Eff B) (v : JsValue) :
  (forall t, fst (k t) = []) -> fst (bind (as_string v) k) = [].
Proof.
  intros Hk. rewrite fst_bind_silent by exact Hk. destruct v; reflexivity.
Qed.

(** X1. Every invocation makes exactly one network attempt or none, and
    which of the two is decided before the reply is known: none when the
    key is missing (for the weight trend also with fewer than two samples
    or an invalid date), one otherwise. No reply leads to a second call. *)
Theorem single_attempt :
  forall (w : World) (img : string) (stats : UserStats) (geminiData : JsValue)
         (exerciseData : ExerciseData) (weightData : list WeightEntry)
         (goalWeight : Q) (weeklyGoal : string),
    fst (analyzeFoodImage w img)
      = (if key_missing w then [] else [Fetch (request_url w)])
    /\ fst (getNutritionRecommendations w stats geminiData)
      = (if key_missing w then [] else [Fetch (request_url w)])
    /\ fst (analyzeExercise w exerciseData)
      = (if key_missing w then [] else [GenerateContent "gemini-2.0-flash"])
    /\ fst (analyzeWeightTrends w weightData goalWeight weeklyGoal)
      = (if (List.length weightData <? 2)%nat || key_missing w
            || existsb date_is_invalid weightData
         then [] else [Fetch (request_url w)]).
Proof.
  intros w img stats gd ex wd gw wg. repeat split.
  - unfold analyzeFoodImage, analyzeFoodImage_try. rewrite fst_try_catch.
    destruct (key_missing w); [reflexivity|].
    rewrite fst_bind_silent; [apply fst_fetch_textContent|].
    intros v. apply fst_as_string_then. reflexivity.
  - unfold getNutritionRecommendations, getNutritionRecommendations_try.
    rewrite fst_try_catch. destruct (key_missing w); [reflexivity|].
    rewrite fst_bind_silent; [apply fst_fetch_textContent|].
    intros v. apply fst_as_string_then. reflexivity.
  - unfold analyzeExercise, analyzeExercise_try. rewrite fst_try_catch.
    destruct (key_missing w); [reflexivity|].
    unfold bind, tell, throw, lift.
    destruct (generateContent w "gemini-2.0-flash") as [|text]; [reflexivity|].
    destruct (str_match re_braces_greedy text) as [m|]; [|reflexivity].
    destruct (JSON_parse (whole m)) as [p|]; [|reflexivity].
    destruct (exercise_fields ex p); reflexivity.
  - unfold analyzeWeightTrends, analyzeWeightTrends_try. rewrite fst_try_catch.
    destruct (List.length wd <? 2)%nat; [reflexivity|].
    destruct (key_missing w); [reflexivity|].
    destruct (existsb date_is_invalid wd); [reflexivity|]. cbn [orb].
    change (fst ((ret tt) ;;; (textContent <- fetch_textContent w ;;
                  text <- as_string textContent ;;
                  ret (parsedResult_of (jsonMatch text) createDefaultWeightAnalysis)))
            = [Fetch (request_url w)]).
    unfold bind at 1. cbn [ret].
    destruct (bind (fetch_textContent w) _) as [cs r] eqn:E. cbn.
    pose proof (f_equal fst E) as H. cbn in H. rewrite <- H.
    rewrite fst_bind_silent; [apply fst_fetch_textContent|].
    intros v. apply fst_as_string_then. reflexivity.
Qed.

Lemma fetch_then_text {B} (w : World) (k : string -> Eff B) :
  bind (fetch_textContent w) (fun tc => bind (as_string tc) k)
  = match reply_text w with
    | Some text => let '(cs, r) := k text in (Fetch (request_url w) :: cs, r)
    | None => ([Fetch (request_url w)], None)
    end.
Proof.
  unfold fetch_textContent, reply_text, bind, tell, throw, lift, as_string, ret.
  destruct (fetch w (request_url w)) as [|ok body]; [reflexivity|].
  destruct ok; [|reflexivity]. cbn.
  destruct (textContent_of_body body) as [v|]; [|reflexivity].
  destruct v; try reflexivity. destruct (k s) as [cs r]. reflexivity.
Qed.

Lemma food_fields_shape (p r : JsValue) :
  food_fields p = Some r ->
  exists title items calories protein carbs fats,
    r = JObj [("title", JStr title); ("items", JArr items);
              ("calories", JNum calories); ("protein", JNum protein);
              ("carbs", JNum carbs); ("fats", JNum fats)].
Proof.
  unfold food_fields. intros H.
  destruct (get_prop p "title") as [t|], (get_prop p "items") as [i|],
    (get_prop p "calories") as [c|], (get_prop p "protein") as [pr|],
    (get_prop p "carbs") as [cb|], (get_prop p "fats") as [f|];
    try discriminate H.
  injection H as <-.
  destruct (number_or_is_number c 0) as [q1 ->],
    (number_or_is_number pr 0) as [q2 ->],
    (number_or_is_number cb 0) as [q3 ->],
    (number_or_is_number f 0) as [q4 ->].
  assert (Ht : exists s, (if typeof t =? "string" then t else JStr "Unknown Meal")
                         = JStr s) by (destruct t; cbn; eauto).
  assert (Hi : exists l, (if Array_isArray i then i
                          else JArr [JStr "Unknown food item"]) = JArr l)
    by (destruct i; cbn; eauto).
  destruct Ht as [s ->], Hi as [l ->]. eauto 10.
Qed.

(** X2. Whatever the world answers, [analyzeFoodImage] returns an object
    with exactly the six fields title, items, calories, protein, carbs and
    fats, in that order: a string, an array and four numbers. Nothing else
    of a payload reaches the caller. *)
Theorem analyzeFoodImage_shape :
  forall (w : World) (img : string),
  exists title items calories protein carbs fats,
    snd (analyzeFoodImage w img)
    = JObj [("title", JStr title); ("items", JArr items);
            ("calories", JNum calories); ("protein", JNum protein);
            ("carbs", JNum carbs); ("fats", JNum fats)].
Proof.
  intros w img.
  assert (Hd : food_fields createDefaultResult = Some createDefaultResult)
    by reflexivity.
  unfold analyzeFoodImage.
  destruct (try_catch_cases (analyzeFoodImage_try w img) createDefaultResult)
    as [-> | H]; [exact (@food_fields_shape _ _ Hd)|].
  revert H. generalize (snd (try_catch (analyzeFoodImage_try w img)
                                        createDefaultResult)). intros r H.
  unfold analyzeFoodImage_try in H.
  destruct (key_missing w).
  - injection H as <-. exact (@food_fields_shape _ _ Hd).
  - apply bind_Some in H as (tc & _ & H). apply bind_Some in H as (t & _ & H).
    exact (@food_fields_shape _ _ H).
Qed.

Lemma nutrition_fields_shape (p r : JsValue) :
  nutrition_fields p = Some r ->
  exists calories protein carbs fats,
    r = JObj [("calories", JNum calories); ("protein", JNum protein);
              ("carbs", JNum carbs); ("fats", JNum fats)].
Proof.
  unfold nutrition_fields. intros H.
  destruct (get_prop p "calories") as [c|], (get_prop p "protein") as [pr|],
    (get_prop p "carbs") as [cb|], (get_prop p "fats") as [f|];
    try discriminate H.
  injection H as <-.
  destruct (number_or_is_number c 2000) as [q1 ->],
    (number_or_is_number pr 150) as [q2 ->],
    (number_or_is_number cb 200) as [q3 ->],
    (number_or_is_number f 65) as [q4 ->]. eauto 8.
Qed.

(** X3. Whatever the world answers, [getNutritionRecommendations] returns
    an object with exactly the four fields calories, protein, carbs and
    fats, each a number. *)
Theorem getNutritionRecommendations_shape :
  forall (w : World) (stats : UserStats) (geminiData : JsValue),
  exists calories protein carbs fats,
    snd (getNutritionRecommendations w stats geminiData)
    = JObj [("calories", JNum calories); ("protein", JNum protein);
            ("carbs", JNum carbs); ("fats", JNum fats)].
Proof.
  intros w stats gd.
  assert (Hd : nutrition_fields createDefaultNutritionGoals
               = Some createDefaultNutritionGoals) by reflexivity.
  unfold getNutritionRecommendations.
  destruct (try_catch_cases (getNutritionRecommendations_try w stats gd)
              createDefaultNutritionGoals) as [-> | H];
    [exact (@nutrition_fields_shape _ _ Hd)|].
  revert H. generalize (snd (try_catch
    (getNutritionRecommendations_try w stats gd) createDefaultNutritionGoals)).
  intros r H. unfold getNutritionRecommendations_try in H.
  destruct (key_missing w).
  - injection H as <-. exact (@nutrition_fields_shape _ _ Hd).
  - apply bind_Some in H as (tc & _ & H). apply bind_Some in H as (t & _ & H).
    exact (@nutrition_fields_shape _ _ H).
Qed.

(** X4. With the key set, a transport that fails in any way - [fetch]
    rejects, the status is not ok, the body is not JSON, or the path
    candidates[0].content.parts[0].text does not end in a string - costs
    one call and yields exactly the kind's default. *)
Theorem transport_failure_gives_default :
  forall (w : World) (img : string) (stats : UserStats) (geminiData : JsValue)
         (weightData : list WeightEntry) (goalWeight : Q) (weeklyGoal : string),
    key_missing w = false ->
    reply_text w = None ->
    analyzeFoodImage w img = ([Fetch (request_url w)], createDefaultResult)
    /\ getNutritionRecommendations w stats geminiData
       = ([Fetch (request_url w)], createDefaultNutritionGoals)
    /\ ((2 <= List.length weightData)%nat ->
        existsb date_is_invalid weightData = false ->
        analyzeWeightTrends w weightData goalWeight weeklyGoal
        = ([Fetch (request_url w)], createDefaultWeightAnalysis)).
Proof.
  intros w img stats gd wd gw wg Hkey Hreply. repeat split.
  - unfold analyzeFoodImage, analyzeFoodImage_try.
    rewrite Hkey, fetch_then_text, Hreply. reflexivity.
  - unfold getNutritionRecommendations, getNutritionRecommendations_try.
    rewrite Hkey, fetch_then_text, Hreply. reflexivity.
  - intros Hlen Hdates. unfold analyzeWeightTrends, analyzeWeightTrends_try.
    destruct (Nat.ltb_spec (List.length wd) 2) as [Hlt|_]; [lia|].
    rewrite Hkey, Hdates.
    change (try_catch (bind (ret tt) (fun _ =>
              bind (fetch_textContent w) (fun tc => bind (as_string tc)
                (fun text => ret (parsedResult_of (jsonMatch text)
                                    createDefaultWeightAnalysis)))))
              createDefaultWeightAnalysis
            = ([Fetch (request_url w)], createDefaultWeightAnalysis)).
    rewrite fetch_then_text, Hreply. reflexivity.
Qed.

Lemma transport_failure_gives_default_witness :
  analyzeFoodImage world_offline "aGVsbG8="
  = ([Fetch (apiUrl ++ "?key=k")], createDefaultResult)
  /\ analyzeWeightTrends world_offline two_samples 75 "lose"
     = ([Fetch (apiUrl ++ "?key=k")], createDefaultWeightAnalysis).
Proof.
  destruct (@transport_failure_gives_default world_offline "aGVsbG8=" []
              JUndefined two_samples 75 "lose" eq_refl eq_refl)
    as (Hfood & _ & Hweight).
  split; [exact Hfood|]. apply Hweight; [simpl; lia | reflexivity].
Defined.

Lemma reply_text_transport_ok (w : World) (text : string) :
  key_missing w = false -> reply_text w = Some text -> transport_ok w text.
Proof.
  unfold reply_text, transport_ok. intros Hkey H. split; [exact Hkey|].
  destruct (fetch w (request_url w)) as [|ok body]; [discriminate H|].
  destruct ok; [|discriminate H]. exists body. split; [reflexivity|].
  destruct (textContent_of_body body) as [v|]; [|discriminate H].
  destruct v; try discriminate H. now injection H as ->.
Qed.

Lemma decode_decoded (text : string) (dflt : JsValue) :
  decode (locate_payload text) dflt
  = match decoded text with Some v => v | None => dflt end.
Proof. unfold decode, decoded. destruct (locate_payload text); reflexivity. Qed.

(** X5. When the reply arrives but no pattern finds a payload in it, or
    the payload found is not JSON, the three fetch-based operations return
    exactly their defaults: validating the default changes nothing. *)
Theorem undecodable_reply_gives_default :
  forall (w : World) (text img : string) (stats : UserStats) (geminiData : JsValue)
         (weightData : list WeightEntry) (goalWeight : Q) (weeklyGoal : string),
    key_missing w = false ->
    reply_text w = Some text ->
    decoded text = None ->
    analyzeFoodImage w img = ([Fetch (request_url w)], createDefaultResult)
    /\ getNutritionRecommendations w stats geminiData
       = ([Fetch (request_url w)], createDefaultNutritionGoals)
    /\ ((2 <= List.length weightData)%nat ->
        existsb date_is_invalid weightData = false ->
        analyzeWeightTrends w weightData goalWeight weeklyGoal
        = ([Fetch (request_url w)], createDefaultWeightAnalysis)).
Proof.
  intros w text img stats gd wd gw wg Hkey Hreply Hdec.
  pose proof (@reply_text_transport_ok w text Hkey Hreply) as Hok. repeat split.
  - rewrite (@analyzeFoodImage_on_text w img text Hok), decode_decoded, Hdec. reflexivity.
  - rewrite (@getNutritionRecommendations_on_text w stats gd text Hok),
      decode_decoded, Hdec.
    reflexivity.
  - intros Hlen Hdates.
    rewrite (@analyzeWeightTrends_on_text w wd gw wg text Hok Hlen Hdates),
      decode_decoded, Hdec.
    reflexivity.
Qed.

Lemma undecodable_reply_gives_default_witness :
  analyzeFoodImage (world_replying "I cannot see any food {in this picture}.") "aGVsbG8="
  = ([Fetch (apiUrl ++ "?key=k")], createDefaultResult)
  /\ analyzeWeightTrends (world_replying "Sorry, no idea.") two_samples 75 "lose"
     = ([Fetch (apiUrl ++ "?key=k")], createDefaultWeightAnalysis).
Proof.
  split.
  - refine (proj1 (@undecodable_reply_gives_default
                     (world_replying "I cannot see any food {in this picture}.")
                     "I cannot see any food {in this picture}." "aGVsbG8=" []
                     JUndefined two_samples 75 "lose" eq_refl _ _)).
    + vm_compute. reflexivity.
    + vm_compute. reflexivity.
  - refine (proj2 (proj2 (@undecodable_reply_gives_default
                     (world_replying "Sorry, no idea.") "Sorry, no idea."
                     "aGVsbG8=" [] JUndefined two_samples 75 "lose" eq_refl _ _))
                  _ _).
    + vm_compute. reflexivity.
    + vm_compute. reflexivity.
    + simpl. lia.
    + reflexivity.
Defined.

(** X6. A payload whose six fields all have their declared types comes
    back field for field; whatever else the payload holds is dropped. *)
Theorem well_typed_payload_kept :
  forall (w : World) (text img : string) (fields : list (string * JsValue))
         (title : string) (items : list JsValue) (calories protein carbs fats : Q),
    key_missing w = false ->
    reply_text w = Some text ->
    decoded text = Some (JObj fields) ->
    lookup "title" fields = Some (JStr title) ->
    lookup "items" fields = Some (JArr items) ->
    lookup "calories" fields = Some (JNum calories) ->
    lookup "protein" fields = Some (JNum protein) ->
    lookup "carbs" fields = Some (JNum carbs) ->
    lookup "fats" fields = Some (JNum fats) ->
    analyzeFoodImage w img
    = ([Fetch (request_url w)],
       JObj [("title", JStr title); ("items", JArr items);
             ("calories", JNum calories); ("protein", JNum protein);
             ("carbs", JNum carbs); ("fats", JNum fats)]).
Proof.
  intros w text img fields title items c p cb f Hkey Hreply Hdec Ht Hi Hc Hp Hcb Hf.
  pose proof (@reply_text_transport_ok w text Hkey Hreply) as Hok.
  rewrite (@analyzeFoodImage_on_text w img text Hok), decode_decoded, Hdec.
  unfold food_fields, get_prop. rewrite Ht, Hi, Hc, Hp, Hcb, Hf. reflexivity.
Qed.

Lemma well_typed_payload_kept_witness :
  snd (analyzeFoodImage
         (world_replying (dq "{'note':'estimated','fats':2,'carbs':10,'protein':5,'calories':120,'items':[],'title':'Salad'}"))
         "aGVsbG8=")
  = JObj [("title", JStr "Salad"); ("items", JArr []);
          ("calories", JNum 120); ("protein", JNum 5);
          ("carbs", JNum 10); ("fats", JNum 2)].
Proof.
  rewrite (@well_typed_payload_kept
             (world_replying (dq "{'note':'estimated','fats':2,'carbs':10,'protein':5,'calories':120,'items':[],'title':'Salad'}"))
             (dq "{'note':'estimated','fats':2,'carbs':10,'protein':5,'calories':120,'items':[],'title':'Salad'}")
             "aGVsbG8="
             [("note", JStr "estimated"); ("fats", JNum 2); ("carbs", JNum 10);
              ("protein", JNum 5); ("calories", JNum 120); ("items", JArr []);
              ("title", JStr "Salad")]
             "Salad" [] 120 5 10 2);
    try reflexivity; vm_compute; reflexivity.
Defined.

Lemma exerciseTitle_truthy (exerciseData : ExerciseData) :
  truthy (JStr (exerciseTitle exerciseData)) = true.
Proof.
  unfold exerciseTitle. cbn [truthy].
  destruct (type exerciseData) as [|c t]; reflexivity.
Qed.

Lemma analyzeExercise_cases (w : World) (exerciseData : ExerciseData) :
  snd (analyzeExercise w exerciseData)
  = match (if key_missing w then None else exercise_decoded w) with
    | Some parsedResult =>
        or_default (exercise_fields exerciseData parsedResult)
                   (exerciseFallback exerciseData)
    | None => exerciseFallback exerciseData
    end.
Proof.
  unfold analyzeExercise, analyzeExercise_try, exercise_decoded, exercise_payload.
  destruct (key_missing w); [reflexivity|].
  unfold bind, tell, throw, lift, try_catch.
  destruct (generateContent w "gemini-2.0-flash") as [|said]; [reflexivity|].
  destruct (str_match re_braces_greedy said) as [m|]; [|reflexivity].
  cbn [option_map]. destruct (JSON_parse (whole m)) as [p|]; [|reflexivity].
  destruct (exercise_fields exerciseData p); reflexivity.
Qed.

(** X7. Whatever the world answers, [analyzeExercise] returns an object
    with exactly the fields title, caloriesBurned and description, none of
    them absent. When its one SDK call answers and the brace span decodes,
    each field is the payload's own value where that value is truthy, and
    otherwise the title "type (intensity)" (intensity "Moderate" when the
    caller gives none), the number 0, and the caller's description. *)
Theorem analyzeExercise_fields_present :
  forall (w : World) (exerciseData : ExerciseData),
    (exists title caloriesBurned descr,
        snd (analyzeExercise w exerciseData)
        = JObj [("title", title); ("caloriesBurned", caloriesBurned);
                ("description", descr)]
        /\ truthy title = true
        /\ (truthy caloriesBurned = true \/ caloriesBurned = JNum 0)
        /\ (truthy descr = true \/ descr = JStr (description exerciseData)))
    /\ (forall (parsedResult payloadTitle payloadCalories payloadDescription : JsValue),
          key_missing w = false ->
          exercise_decoded w = Some parsedResult ->
          get_prop parsedResult "title" = Some payloadTitle ->
          get_prop parsedResult "caloriesBurned" = Some payloadCalories ->
          get_prop parsedResult "description" = Some payloadDescription ->
          analyzeExercise w exerciseData
          = ([GenerateContent "gemini-2.0-flash"],
             JObj [("title",
                    if truthy payloadTitle then payloadTitle
                    else JStr (type exerciseData ++ " (" ++
                               (if intensity exerciseData =? "" then "Moderate"
                                else intensity exerciseData) ++ ")"));
                   ("caloriesBurned",
                    if truthy payloadCalories then payloadCalories else JNum 0);
                   ("description",
                    if truthy payloadDescription then payloadDescription
                    else JStr (description exerciseData))])).
Proof.
  intros w ex. split.
  - rewrite analyzeExercise_cases.
    assert (Hfb : exists t c d,
               exerciseFallback ex = JObj [("title", t); ("caloriesBurned", c);
                                           ("description", d)]
               /\ truthy t = true /\ (truthy c = true \/ c = JNum 0)
               /\ (truthy d = true \/ d = JStr (description ex))).
    { eexists _, _, _. split; [reflexivity|].
      split; [apply exerciseTitle_truthy|]. auto. }
    destruct (if key_missing w then None else exercise_decoded w) as [p|];
      [|exact Hfb].
    unfold exercise_fields.
    destruct (get_prop p "title") as [t|]; [|exact Hfb].
    destruct (get_prop p "caloriesBurned") as [c|]; [|exact Hfb].
    destruct (get_prop p "description") as [d|]; [|exact Hfb].
    cbn [or_default]. eexists _, _, _. split; [reflexivity|]. unfold js_or.
    split; [|split].
    + destruct (truthy t) eqn:E; [exact E | apply exerciseTitle_truthy].
    + destruct (truthy c) eqn:E; auto.
    + destruct (truthy d) eqn:E; auto.
  - intros p pt pc pd Hkey Hdec Ht Hc Hd. revert Hdec.
    unfold analyzeExercise, analyzeExercise_try, exercise_decoded, exercise_payload.
    rewrite Hkey. unfold bind, tell, throw, lift, try_catch.
    destruct (generateContent w "gemini-2.0-flash") as [|said]; [discriminate|].
    destruct (str_match re_braces_greedy said) as [m|]; [|discriminate].
    cbn [option_map]. intros ->.
    unfold exercise_fields. rewrite Ht, Hc, Hd. reflexivity.
Qed.

Lemma analyzeExercise_fields_present_witness :
  analyzeExercise
    (world_replying
       (dq "Burned: {'title':'Evening run','caloriesBurned':312,'description':''} or so."))
    a_run
  = ([GenerateContent "gemini-2.0-flash"],
     JObj [("title", JStr "Evening run"); ("caloriesBurned", JNum 312);
           ("description", JStr "Morning jog")])
  /\ analyzeExercise (world_replying (dq "{'caloriesBurned':0,'note':'rest day'}"))
       a_run
     = ([GenerateContent "gemini-2.0-flash"],
        JObj [("title", JStr "Running (Moderate)"); ("caloriesBurned", JNum 0);
              ("description", JStr "Morning jog")]).
Proof.
  split.
  - refine (proj2 (@analyzeExercise_fields_present
                     (world_replying
                        (dq "Burned: {'title':'Evening run','caloriesBurned':312,'description':''} or so."))
                     a_run)
              (JObj [("title", JStr "Evening run"); ("caloriesBurned", JNum 312);
                     ("description", JStr "")])
              (JStr "Evening run") (JNum 312) (JStr "") eq_refl _ eq_refl eq_refl
              eq_refl).
    vm_compute. reflexivity.
  - refine (proj2 (@analyzeExercise_fields_present
                     (world_replying (dq "{'caloriesBurned':0,'note':'rest day'}"))
                     a_run)
              (JObj [("caloriesBurned", JNum 0); ("note", JStr "rest day")])
              JUndefined (JNum 0) JUndefined eq_refl _ eq_refl eq_refl eq_refl).
    vm_compute. reflexivity.
Defined.

(** X8. [analyzeExercise] falls back to title "type (intensity)",
    0 calories and the caller's description whenever the SDK call rejects,
    the text holds no brace span, or the span is not JSON; the one SDK call
    has then been made. *)
Theorem exercise_failure_gives_fallback :
  forall (w : World) (exerciseData : ExerciseData),
    key_missing w = false ->
    exercise_decoded w = None ->
    analyzeExercise w exerciseData
    = ([GenerateContent "gemini-2.0-flash"],
       JObj [("title", JStr (type exerciseData ++ " (" ++
                             (if intensity exerciseData =? "" then "Moderate"
                              else intensity exerciseData) ++ ")"));
             ("caloriesBurned", JNum 0);
             ("description", JStr (description exerciseData))]).
Proof.
  intros w ex Hkey Hdec. revert Hdec.
  unfold analyzeExercise, analyzeExercise_try, exercise_decoded, exercise_payload.
  rewrite Hkey. unfold bind, tell, throw, lift, try_catch.
  destruct (generateContent w "gemini-2.0-flash") as [|said]; [reflexivity|].
  destruct (str_match re_braces_greedy said) as [m|]; [|reflexivity].
  cbn [option_map]. intros ->. reflexivity.
Qed.

Lemma exercise_failure_gives_fallback_witness :
  analyzeExercise world_offline a_run
  = ([GenerateContent "gemini-2.0-flash"],
     JObj [("title", JStr "Running (Moderate)"); ("caloriesBurned", JNum 0);
           ("description", JStr "Morning jog")])
  /\ snd (analyzeExercise (world_replying "About 300 kcal.") a_run)
     = JObj [("title", JStr "Running (Moderate)"); ("caloriesBurned", JNum 0);
             ("description", JStr "Morning jog")].
Proof.
  split.
  - exact (@exercise_failure_gives_fallback world_offline a_run eq_refl eq_refl).
  - rewrite (@exercise_failure_gives_fallback (world_replying "About 300 kcal.")
               a_run eq_refl eq_refl). reflexivity.
Defined.

(** X9. With at least two samples and the key set, one entry whose date
    is invalid ([toISOString] raises a RangeError while the prompt is
    built) ends the call before any network request, with the default
    analysis. *)
Theorem invalid_date_stops_before_fetch :
  forall (w : World) (weightData : list WeightEntry)
         (goalWeight : Q) (weeklyGoal : string),
    (2 <= List.length weightData)%nat ->
    existsb date_is_invalid weightData = true ->
    analyzeWeightTrends w weightData goalWeight weeklyGoal
    = ([], createDefaultWeightAnalysis).
Proof.
  intros w wd gw wg Hlen Hbad. unfold analyzeWeightTrends, analyzeWeightTrends_try.
  destruct (Nat.ltb_spec (List.length wd) 2) as [Hlt|_]; [lia|].
  destruct (key_missing w); [reflexivity|]. rewrite Hbad. reflexivity.
Qed.

Lemma invalid_date_stops_before_fetch_witness :
  analyzeWeightTrends (world_replying salad_payload) samples_with_bad_date 75 "lose"
  = ([], createDefaultWeightAnalysis).
Proof.
  apply (@invalid_date_stops_before_fetch (world_replying salad_payload)
           samples_with_bad_date 75 "lose"); [simpl; lia | reflexivity].
Defined.

Lemma string_app_nil_r (s : string) : s ++ "" = s.
Proof. induction s as [|c s IH]; cbn; [reflexivity | now rewrite IH]. Qed.

Lemma jsonStr_of_part (re : RegExp) (text : string) (m : MatchArray) :
  str_match re text = Some m ->
  exists pre post, text = pre ++ jsonStr_of m ++ post.
Proof.
  intros H. apply str_match_sound in H as (pre & cap & post & -> & Hw & Hg).
  unfold jsonStr_of. rewrite Hg, Hw.
  destruct (has_group re).
  - destruct (cap =? "").
    + exists pre, post. now rewrite !string_app_assoc.
    + exists (pre ++ opening re), (closing re ++ post).
      now rewrite !string_app_assoc.
  - exists pre, post. now rewrite !string_app_assoc.
Qed.

(** X10. The payload an operation decodes is always a contiguous part of
    the model's text: the three-pattern chain and the brace pattern of
    [analyzeExercise] cut the reply, they never build a string of their
    own. The brace span of [analyzeExercise] begins and ends with a
    brace. *)
Theorem payload_is_part_of_reply :
  forall (text payload : string),
    (locate_payload text = Some payload ->
     exists pre post, text = pre ++ payload ++ post)
    /\ (exercise_payload text = Some payload ->
        exists pre middle post,
          payload = "{" ++ middle ++ "}" /\ text = pre ++ payload ++ post).
Proof.
  intros text payload. split.
  - unfold locate_payload, extraction_patterns. cbn [first_match]. intros H.
    destruct (str_match re_fenced_json text) as [m|] eqn:E1.
    { injection H as <-. exact (@jsonStr_of_part _ _ _ E1). }
    destruct (str_match re_fenced text) as [m|] eqn:E2.
    { injection H as <-. exact (@jsonStr_of_part _ _ _ E2). }
    destruct (str_match re_braces_lazy text) as [m|] eqn:E3; [|discriminate H].
    injection H as <-. exact (@jsonStr_of_part _ _ _ E3).
  - unfold exercise_payload. intros H.
    destruct (str_match re_braces_greedy text) as [m|] eqn:E; [|discriminate H].
    injection H as <-.
    apply str_match_sound in E as (pre & cap & post & -> & Hw & _).
    exists pre, cap, post. rewrite Hw. split; [reflexivity|].
    change (opening re_braces_greedy) with "{".
    change (closing re_braces_greedy) with "}".
    now rewrite !string_app_assoc.
Qed.

Lemma payload_is_part_of_reply_witness :
  (exists pre post, two_objects = pre ++ first_object ++ post)
  /\ exists pre middle post,
       two_objects = "{" ++ middle ++ "}" /\ two_objects = pre ++ two_objects ++ post.
Proof.
  destruct (@payload_is_part_of_reply two_objects first_object) as [H _].
  destruct (@payload_is_part_of_reply two_objects two_objects) as [_ H'].
  split; [apply H | apply H']; vm_compute; reflexivity.
Defined.

(** X11. A payload is found exactly when the text has the shape a
    pattern asks for: by the three-pattern chain when it holds a pair of
    triple back-quotes or an opening brace later followed by a closing
    one, by [analyzeExercise] when it holds the brace pair. Prose without
    them never yields a payload. *)
Theorem payload_found_iff :
  forall (text : string),
    (locate_payload text <> None
     <-> has_span "```" "```" text \/ has_span "{" "}" text)
    /\ (exercise_payload text <> None <-> has_span "{" "}" text).
Proof.
  intros text. split; split.
  - unfold locate_payload, extraction_patterns. cbn [first_match]. intros H.
    destruct (str_match re_fenced_json text) as [m|] eqn:E1.
    { left. apply str_match_sound in E1 as (pre & cap & post & -> & _).
      exists pre, ("json" ++ LF ++ cap ++ LF), post.
      change (opening re_fenced_json) with ("```" ++ "json" ++ LF).
      change (closing re_fenced_json) with (LF ++ "```").
      now rewrite !string_app_assoc. }
    destruct (str_match re_fenced text) as [m|] eqn:E2.
    { left. apply str_match_sound in E2 as (pre & cap & post & -> & _).
      now exists pre, cap, post. }
    destruct (str_match re_braces_lazy text) as [m|] eqn:E3;
      [|now contradiction H].
    right. apply str_match_sound in E3 as (pre & cap & post & -> & _).
    now exists pre, cap, post.
  - unfold locate_payload, extraction_patterns. cbn [first_match].
    intros [(pre & mid & post & ->) | (pre & mid & post & ->)].
    + destruct (str_match re_fenced_json _); [discriminate|].
      pose proof (@str_match_complete re_fenced pre mid post) as H.
      change (opening re_fenced) with "```" in H.
      change (closing re_fenced) with "```" in H.
      destruct (str_match re_fenced _); [discriminate | now contradiction H].
    + destruct (str_match re_fenced_json _); [discriminate|].
      destruct (str_match re_fenced _); [discriminate|].
      pose proof (@str_match_complete re_braces_lazy pre mid post) as H.
      change (opening re_braces_lazy) with "{" in H.
      change (closing re_braces_lazy) with "}" in H.
      destruct (str_match re_braces_lazy _); [discriminate | now contradiction H].
  - unfold exercise_payload. intros H.
    destruct (str_match re_braces_greedy text) as [m|] eqn:E;
      [|now contradiction H].
    apply str_match_sound in E as (pre & cap & post & -> & _).
    now exists pre, cap, post.
  - unfold exercise_payload. intros (pre & mid & post & ->).
    pose proof (@str_match_complete re_braces_greedy pre mid post) as H.
    change (opening re_braces_greedy) with "{" in H.
    change (closing re_braces_greedy) with "}" in H.
    destruct (str_match re_braces_greedy _); [discriminate | now contradiction H].
Qed.

Lemma payload_found_iff_witness :
  locate_payload "Here: ```{}``` and more" <> None
  /\ has_span "{" "}" two_objects.
Proof.
  split.
  - apply (proj1 (@payload_found_iff "Here: ```{}``` and more")).
    left. now exists "Here: ", "{}", " and more".
  - apply (proj2 (@payload_found_iff two_objects)). vm_compute. discriminate.
Defined.

(** In a run without back-quotes the lazy star goes on to the closing
    fence. *)
Lemma star_lazy_fence (cap post : string) :
  has_char "`" cap = false ->
  star_lazy (LF ++ "```") (cap ++ (LF ++ "```") ++ post) = Some (cap, post).
Proof.
  induction cap as [|x cap IH]; intros H.
  - cbn [append]. rewrite star_lazy_unfold.
    change (LF ++ "```" ++ post) with ((LF ++ "```") ++ post).
    now rewrite strip_prefix_app.
  - cbn [has_char] in H. apply orb_false_elim in H as [Hx Hcap].
    change (String x cap ++ (LF ++ "```") ++ post)
      with (String x (cap ++ (LF ++ "```") ++ post)).
    rewrite star_lazy_unfold, (IH Hcap).
    assert (Hno : strip_prefix (LF ++ "```")
                    (String x (cap ++ (LF ++ "```") ++ post)) = None).
    { cbn [LF append strip_prefix]. destruct (Ascii.eqb _ x); [|reflexivity].
      destruct cap as [|y cap]; cbn [append strip_prefix].
      - reflexivity.
      - cbn [has_char] in Hcap. apply orb_false_elim in Hcap as [Hy _].
        now rewrite Ascii.eqb_sym, Hy. }
    now rewrite Hno.
Qed.

(** A lazy star whose closing needs a character the text lacks fails. *)
Lemma star_lazy_absent (c : ascii) (cl s : string) :
  has_char c cl = true -> has_char c s = false -> star_lazy cl s = None.
Proof.
  intros Hcl Hs. destruct (star_lazy cl s) as [[cap rest]|] eqn:E; [|reflexivity].
  apply star_lazy_sound in E. subst s.
  rewrite !has_char_app, Hcl, orb_true_r in Hs. discriminate Hs.
Qed.

Lemma match_here_lazy_absent (re : RegExp) (c : ascii) (s : string) :
  lazy_star re = true ->
  has_char c (closing re) = true ->
  (forall s1, s = opening re ++ s1 -> has_char c s1 = false) ->
  match_here re s = None.
Proof.
  intros Hlazy Hcl H. unfold match_here.
  destruct (strip_prefix (opening re) s) as [s1|] eqn:E; [|reflexivity].
  apply strip_prefix_sound in E. rewrite Hlazy.
  now rewrite (@star_lazy_absent c (closing re) s1 Hcl (H _ E)).
Qed.

(** After its last back-quotes a text has no labeled fence. *)
Lemma no_labeled_fence_at_end (post : string) :
  has_char "`" post = false ->
  str_match re_fenced_json ("```" ++ post) = None.
Proof.
  intros H. cbn [append].
  rewrite str_match_unfold, (@match_here_lazy_absent re_fenced_json "`");
    try reflexivity.
  2:{ intros s1 E. cbn in E. injection E as E. subst post.
      cbn in H. exact H. }
  rewrite str_match_unfold, (@match_here_lazy_absent re_fenced_json "`");
    try reflexivity.
  2:{ intros s1 E. cbn in E. injection E as E. subst post.
      cbn in H. discriminate H. }
  rewrite str_match_unfold, (@match_here_lazy_absent re_fenced_json "`");
    try reflexivity.
  2:{ intros s1 E. cbn in E. injection E as E. subst post.
      cbn in H. discriminate H. }
  exact (@str_match_absent re_fenced_json "`" ("``json" ++ LF) post eq_refl H).
Qed.

(** X12. A fenced payload may span several lines and hold braces of any
    depth: with no back-quote before or inside it, the payload between a
    fence labeled json and the closing fence is located whole, whatever
    follows. With an unlabeled fence, and no back-quote after it either,
    the second pattern locates the payload with the two line breaks
    around it. *)
Theorem fenced_payload_located :
  forall (pre payload post : string),
    has_char "`" pre = false ->
    has_char "`" payload = false ->
    payload <> "" ->
    locate_payload (pre ++ ("```json" ++ LF) ++ payload ++ (LF ++ "```") ++ post)
    = Some payload
    /\ (has_char "`" post = false ->
        locate_payload (pre ++ "```" ++ (LF ++ payload ++ LF) ++ "```" ++ post)
        = Some (LF ++ payload ++ LF)).
Proof.
  intros pre payload post Hpre Hpay Hne. split.
  - unfold locate_payload, extraction_patterns. cbn [first_match].
    rewrite (@str_match_skip re_fenced_json "`" ("``json" ++ LF) pre _ eq_refl Hpre).
    rewrite str_match_unfold. unfold match_here.
    change (opening re_fenced_json) with ("```json" ++ LF).
    rewrite strip_prefix_app.
    change (lazy_star re_fenced_json) with true. cbv iota.
    change (closing re_fenced_json) with (LF ++ "```").
    rewrite (@star_lazy_fence payload post Hpay).
    cbn [option_map jsonStr_of group1 has_group re_fenced_json].
    destruct (String.eqb_spec payload ""); [now contradiction Hne | reflexivity].
  - intros Hpost. unfold locate_payload, extraction_patterns. cbn [first_match].
    assert (Hmid : has_char "`" (LF ++ payload ++ LF) = false)
      by (rewrite !has_char_app, Hpay; reflexivity).
    assert (H1 : str_match re_fenced_json
                   (pre ++ "```" ++ (LF ++ payload ++ LF) ++ "```" ++ post) = None).
    { rewrite (@str_match_skip re_fenced_json "`" ("``json" ++ LF) pre _ eq_refl Hpre).
      change ("```" ++ (LF ++ payload ++ LF) ++ "```" ++ post)
        with (String "`" (String "`" (String "`"
                (String (ascii_of_nat 10) ((payload ++ LF) ++ "```" ++ post))))).
      rewrite str_match_unfold, (@match_here_lazy_absent re_fenced_json "`");
        try reflexivity.
      2:{ intros s1 E. exfalso. vm_compute in E. discriminate E. }
      rewrite str_match_unfold, (@match_here_lazy_absent re_fenced_json "`");
        try reflexivity.
      2:{ intros s1 E. exfalso. vm_compute in E. discriminate E. }
      rewrite str_match_unfold, (@match_here_lazy_absent re_fenced_json "`");
        try reflexivity.
      2:{ intros s1 E. exfalso. vm_compute in E. discriminate E. }
      change (String (ascii_of_nat 10) ((payload ++ LF) ++ "```" ++ post))
        with ((LF ++ payload ++ LF) ++ "```" ++ post).
      rewrite (@str_match_skip re_fenced_json "`" ("``json" ++ LF) _ _ eq_refl Hmid).
      exact (@no_labeled_fence_at_end post Hpost). }
    rewrite H1.
    rewrite (@str_match_skip re_fenced "`" "``" pre _ eq_refl Hpre).
    rewrite str_match_unfold. unfold match_here.
    change (opening re_fenced) with "```".
    rewrite strip_prefix_app.
    change (lazy_star re_fenced) with true. cbv iota.
    change (closing re_fenced) with (String "`" "``").
    rewrite (@star_lazy_stops "`" "``" (LF ++ payload ++ LF) post Hmid).
    reflexivity.
Qed.

Lemma fenced_payload_located_witness :
  decoded ("Here is the analysis:" ++ LF ++ "```json" ++ LF ++ pretty_salad
           ++ LF ++ "```" ++ LF ++ "Enjoy your `meal`!")
  = Some (JObj [("title", JStr "Salad"); ("items", JArr [JStr "lettuce"]);
                ("calories", JNum 120); ("protein", JNum 5);
                ("carbs", JNum 10); ("fats", JNum 2)])
  /\ decoded ("```" ++ LF ++ pretty_salad ++ LF ++ "```")
     = Some (JObj [("title", JStr "Salad"); ("items", JArr [JStr "lettuce"]);
                ("calories", JNum 120); ("protein", JNum 5);
                ("carbs", JNum 10); ("fats", JNum 2)]).
Proof.
  destruct (@fenced_payload_located ("Here is the analysis:" ++ LF) pretty_salad
              (LF ++ "Enjoy your `meal`!") eq_refl eq_refl)
    as [Hlabeled _]; [discriminate|].
  destruct (@fenced_payload_located "" pretty_salad "" eq_refl eq_refl)
    as [_ Hbare]; [discriminate|].
  split.
  - unfold decoded.
    change ("Here is the analysis:" ++ LF ++ "```json" ++ LF ++ pretty_salad
            ++ LF ++ "```" ++ LF ++ "Enjoy your `meal`!")
      with (("Here is the analysis:" ++ LF) ++ ("```json" ++ LF) ++ pretty_salad
            ++ (LF ++ "```") ++ (LF ++ "Enjoy your `meal`!")).
    rewrite Hlabeled. vm_compute. reflexivity.
  - unfold decoded.
    change ("```" ++ LF ++ pretty_salad ++ LF ++ "```")
      with ("" ++ "```" ++ (LF ++ pretty_salad ++ LF) ++ "```" ++ "").
    rewrite (Hbare eq_refl). vm_compute. reflexivity.
Defined.

(** X13. [analyzeWeightTrends] hands back whatever the payload decodes
    to, unchecked: no field is tested or defaulted, and the result need
    not even be an object. *)
Theorem weight_payload_passed_through :
  forall (w : World) (text : string) (weightData : list WeightEntry)
         (goalWeight : Q) (weeklyGoal : string) (v : JsValue),
    key_missing w = false ->
    reply_text w = Some text ->
    decoded text = Some v ->
    (2 <= List.length weightData)%nat ->
    existsb date_is_invalid weightData = false ->
    analyzeWeightTrends w weightData goalWeight weeklyGoal
    = ([Fetch (request_url w)], v).
Proof.
  intros w text wd gw wg v Hkey Hreply Hdec Hlen Hdates.
  pose proof (@reply_text_transport_ok w text Hkey Hreply) as Hok.
  rewrite (@analyzeWeightTrends_on_text w wd gw wg text Hok Hlen Hdates),
    decode_decoded, Hdec.
  reflexivity.
Qed.

Lemma weight_payload_passed_through_witness :
  analyzeWeightTrends (world_replying "```[1, true]```") two_samples 75 "lose"
  = ([Fetch (apiUrl ++ "?key=k")], JArr [JNum 1; JBool true]).
Proof.
  apply (@weight_payload_passed_through (world_replying "```[1, true]```")
           "```[1, true]```" two_samples 75 "lose" (JArr [JNum 1; JBool true]));
    first [reflexivity | vm_compute; reflexivity | simpl; lia].
Defined.

(** ** More on the Auth Reconciler *)

Section AuthReconcilerMore.
Import Auth.

Ltac auth_unfold' :=
  unfold handle, onAuthStateChanged_listener, signIn, signUp, signOut,
    deleteAccount, saveAuthSession, handleAuthNavigation, formatUser,
    catch, mbind, emit, of_reply, raise, mret,
    setUser, setIsLoading, setAuthReady, setInitializing,
    state_of, effects_of, result_of in *.

Ltac oracle_cases' :=
  repeat match goal with
         | |- context [removeItem ?r ?k] => destruct (removeItem r k) eqn:?
         | |- context [setItem ?r ?k ?v] => destruct (setItem r k v) eqn:?
         | |- context [signInWithEmailAndPassword ?r ?e ?p] =>
             destruct (signInWithEmailAndPassword r e p) eqn:?
         | |- context [createUserWithEmailAndPassword ?r ?e ?p] =>
             destruct (createUserWithEmailAndPassword r e p) eqn:?
         | |- context [firebaseSignOut ?r] => destruct (firebaseSignOut r) eqn:?
         | |- context [deleteUser ?r ?u] => destruct (deleteUser r u) eqn:?
         | |- context [currentUser ?r] => destruct (currentUser r) eqn:?
         end.

Ltac auth_run' := auth_unfold'; oracle_cases'; cbn.

Lemma user_after_input (r : Remote) (i : Input) (s : AuthState) :
  user (state_of (handle r i s))
  = match i with
    | AuthStateChanged firebaseUser => formatUser firebaseUser
    | _ => user s
    end.
Proof.
  destruct s as [u l ready ini].
  destruct i as [[fu|]|e p|e p| |]; auth_run'; try reflexivity;
    destruct ready, ini; reflexivity.
Qed.

Lemma user_from (s : AuthState) (history : list (Remote * Input)) :
  user (state_from s history)
  = match last_event history with
    | Some firebaseUser => formatUser firebaseUser
    | None => user s
    end.
Proof.
  revert s. induction history as [|[r i] rest IH]; intros s; [reflexivity|].
  cbn [state_from last_event]. rewrite IH.
  destruct (last_event rest); [reflexivity|].
  rewrite user_after_input. destruct i; reflexivity.
Qed.

(** X14. After any history, rejected storage or remote calls included,
    [user] is the mapping of the payload of the last auth-state event
    (null before the first one): the listener sets it before its first
    [await], and no operation sets it. *)
Theorem user_tracks_last_event :
  forall (history : list (Remote * Input)),
    user (state_after history)
    = match last_event history with
      | Some firebaseUser => formatUser firebaseUser
      | None => None
      end.
Proof. intros history. unfold state_after. now rewrite user_from. Qed.

Lemma flags_step (r : Remote) (i : Input) (s : AuthState) :
  authReady s = negb (initializing s) ->
  authReady (state_of (handle r i s))
  = negb (initializing (state_of (handle r i s))).
Proof.
  destruct s as [u l ready ini]. cbn. intros ->.
  destruct i as [[fu|]|e p|e p| |]; auth_run'; try reflexivity;
    destruct ini; reflexivity.
Qed.

(** X15. [authReady] and [initializing] always hold opposite values:
    true after any history, whether or not its listeners ran to their
    end. *)
Theorem authReady_is_not_initializing :
  forall (history : list (Remote * Input)),
    authReady (state_after history) = negb (initializing (state_after history)).
Proof.
  intros history. unfold state_after.
  assert (H : authReady initial = negb (initializing initial)) by reflexivity.
  revert H. generalize initial.
  induction history as [|[r i] rest IH]; intros s H; [exact H|].
  cbn [state_from]. apply IH. now apply flags_step.
Qed.

(** X16. [signIn], [signUp], [signOut] and [deleteAccount] only switch
    the loading flag and touch the stored snapshot: they never set the
    user, the ready flag or the initializing flag and never navigate. *)
Theorem operations_only_toggle_loading :
  forall (r : Remote) (i : Input) (s : AuthState),
    is_event (r, i) = false ->
    forallb is_loading_or_storage (effects_of (handle r i s)) = true
    /\ exists b, state_of (handle r i s) = with_isLoading b s.
Proof.
  intros r i [u l ready ini].
  destruct i as [fu|e p|e p| |]; cbn; intros H; try discriminate H;
    auth_run'; split; try reflexivity; eexists; unfold with_isLoading; cbn;
    reflexivity.
Qed.

Lemma operations_only_toggle_loading_witness :
  forallb is_loading_or_storage
    (effects_of (handle stormy (SignIn "alice@example.com" "nope") initial)) = true
  /\ exists b, state_of (handle calm DeleteAccount initial) = with_isLoading b initial.
Proof.
  split.
  - apply (@operations_only_toggle_loading stormy
             (SignIn "alice@example.com" "nope") initial). reflexivity.
  - apply (@operations_only_toggle_loading calm DeleteAccount initial). reflexivity.
Defined.

(** X17. The snapshot written for a Firebase user holds its uid, its
    email and the clock's time, and a rejected write is swallowed: a
    signed-in event runs the listener to its end whatever [setItem]
    answers, and a successful [signIn] or [signUp] then resolves with the
    loading flag still on. *)
Theorem session_snapshot_write :
  forall (r : Remote) (firebaseUser : FirebaseUser) (email password : string)
         (s : AuthState),
    handle r (AuthStateChanged (Some firebaseUser)) s
    = (([SetUser (formatUser (Some firebaseUser));
         SetItem AUTH_SESSION_KEY (session_of r firebaseUser)]
        ++ (if authReady s then [] else [SetAuthReady true])
        ++ [SetIsLoading false]
        ++ (if initializing s then [SetInitializing false]
            else [RouterReplace "/"]))%list,
       {| user := formatUser (Some firebaseUser); isLoading := false;
          authReady := true; initializing := false |},
       inr tt)
    /\ (signInWithEmailAndPassword r email password = inr firebaseUser ->
        signIn r email password s
        = ([SetIsLoading true;
            SetItem AUTH_SESSION_KEY (session_of r firebaseUser)],
           with_isLoading true s, inr tt))
    /\ (createUserWithEmailAndPassword r email password = inr firebaseUser ->
        signUp r email password s
        = ([SetIsLoading true;
            SetItem AUTH_SESSION_KEY (session_of r firebaseUser)],
           with_isLoading true s, inr tt)).
Proof.
  intros r fu email password [u l ready ini]. unfold session_of, with_isLoading.
  split; [|split].
  - auth_run'; destruct ready, ini; reflexivity.
  - intros H. auth_unfold'. rewrite H. oracle_cases'; reflexivity.
  - intros H. auth_unfold'. rewrite H. oracle_cases'; reflexivity.
Qed.

Lemma session_snapshot_write_witness :
  signIn calm "alice@example.com" "right" initial
  = ([SetIsLoading true;
      SetItem AUTH_SESSION_KEY
        {| userId := "u1"; session_email := Some "alice@example.com";
           lastLogin := 1700000000000 |}],
     initial, inr tt).
Proof.
  exact (proj1 (proj2 (@session_snapshot_write calm alice "alice@example.com"
                         "right" initial)) eq_refl).
Defined.

(** X18. [signOut] and [deleteAccount] remove the stored snapshot before
    they call Firebase: when the removal resolves and the Firebase call
    then rejects, the snapshot is gone, the failure is raised and the
    loading flag is off again. Without a current user [deleteAccount]
    touches no storage. *)
Theorem snapshot_removed_before_remote_call :
  forall (r : Remote) (s : AuthState),
    removeItem r AUTH_SESSION_KEY = None ->
    (forall e, firebaseSignOut r = Some e ->
       signOut r s
       = ([SetIsLoading true; RemoveItem AUTH_SESSION_KEY; SetIsLoading false],
          with_isLoading false s, inl e))
    /\ (forall cu e, currentUser r = Some cu -> deleteUser r cu = Some e ->
          deleteAccount r s
          = ([SetIsLoading true; RemoveItem AUTH_SESSION_KEY; SetIsLoading false],
             with_isLoading false s, inl (rethrown_by_inner_catch e)))
    /\ (currentUser r = None ->
        deleteAccount r s
        = ([SetIsLoading true; SetIsLoading false],
           with_isLoading false s, inl no_user_error)).
Proof.
  intros r [u l ready ini] Hrm. unfold with_isLoading, no_user_error.
  split; [|split].
  - intros e H. auth_unfold'. rewrite Hrm, H. reflexivity.
  - intros cu e Hcu H. auth_unfold'. rewrite Hcu, Hrm, H. reflexivity.
  - intros Hcu. auth_unfold'. rewrite Hcu. reflexivity.
Qed.

Lemma snapshot_removed_before_remote_call_witness :
  deleteAccount stormy initial
  = ([SetIsLoading true; RemoveItem AUTH_SESSION_KEY; SetIsLoading false],
     with_isLoading false initial,
     inl {| code := None; message := recent_login_message |}).
Proof.
  exact (proj1 (proj2 (@snapshot_removed_before_remote_call stormy initial eq_refl))
           alice stale_login eq_refl eq_refl).
Defined.

End AuthReconcilerMore.

(** ** The landing screen *)

Section Landing.
Import Home.

Lemma unsettled_kept (p : Props) (m : Mounted) :
  checking_means_unsettled m -> checking_means_unsettled (snd (update p m)).
Proof.
  unfold checking_means_unsettled, update. intros H.
  destruct (match committed m with
            | None => true
            | Some d => negb (deps_eqb d (deps p))
            end); [|exact H].
  destruct (settled p) eqn:E; cbn; [discriminate|].
  intros _. exact E.
Qed.

Lemma unsettled_after (updates : list Props) (m : Mounted) :
  checking_means_unsettled m -> checking_means_unsettled (after updates m).
Proof.
  revert m. induction updates as [|p rest IH]; intros m H; [exact H|].
  cbn [after]. apply IH. now apply unsettled_kept.
Qed.

Lemma render_unsettled (p : Props) (c : bool) :
  settled p = false -> render p c = LoadingIndicator.
Proof.
  unfold settled, render.
  destruct (authReady p), (authLoading p), (profileLoading p); cbn;
    intros H; try discriminate H; reflexivity.
Qed.

Lemma deps_eqb_eq (a b : bool * bool * bool) : deps_eqb a b = true -> a = b.
Proof.
  destruct a as [[[] []] []], b as [[[] []] []]; cbn; intros H;
    try discriminate H; reflexivity.
Qed.

Lemma shown_follows_props (p : Props) (m : Mounted) :
  checking_means_unsettled m ->
  shown p m = if settled p then landing p else LoadingIndicator.
Proof.
  unfold checking_means_unsettled, shown, update, landing. intros H.
  destruct (committed m) as [d|] eqn:Ed.
  - destruct (deps_eqb d (deps p)) eqn:Eq; cbn [negb].
    + apply deps_eqb_eq in Eq. subst d. cbn [fst last].
      destruct (settled p) eqn:E; [|now apply render_unsettled].
      destruct (isCheckingProfile m); [|reflexivity].
      specialize (H eq_refl). unfold deps, settled in *. congruence.
    + destruct (settled p) eqn:E.
      * destruct (isCheckingProfile m); reflexivity.
      * cbn. now apply render_unsettled.
  - destruct (settled p) eqn:E.
    + destruct (isCheckingProfile m); reflexivity.
    + cbn. now apply render_unsettled.
Qed.

(** X19. Whatever updates the mounted component has gone through, what
    an update leaves on screen depends on its props alone: the landing
    redirect when auth is ready and neither auth nor profile is loading,
    the activity indicator otherwise. The first view painted after
    mounting is always the indicator, and the splash screen is hidden and
    the tracking timer set only with such settled props. *)
Theorem Home_view_follows_props :
  forall (updates : list Props) (p : Props),
    shown p (after updates mount)
    = (if settled p then landing p else LoadingIndicator)
    /\ hd_error (fst (fst (update p mount))) = Some LoadingIndicator
    /\ (snd (fst (update p (after updates mount))) = []
        \/ settled p = true
           /\ snd (fst (update p (after updates mount)))
              = [SplashScreen_hideAsync; SetIsCheckingProfile false;
                 SetTimeout 1000]).
Proof.
  intros updates p. split; [|split].
  - apply shown_follows_props, unsettled_after. intros _. exact I.
  - unfold update, mount, render. cbn.
    rewrite !orb_true_r. destruct (settled p); reflexivity.
  - unfold update, run_effects.
    destruct (match committed (after updates mount) with
              | None => true
              | Some d => negb (deps_eqb d (deps p))
              end); [|left; reflexivity].
    destruct (settled p); [right; split; reflexivity | left; reflexivity].
Qed.

Lemma handled_without_event (history : list (Auth.Remote * Auth.Input)) :
  existsb Auth.is_event history = false -> Forall Auth.handled history.
Proof.
  induction history as [|[r i] rest IH]; cbn [existsb]; intros H;
    constructor.
  - apply orb_false_elim in H as [H _].
    destruct i as [fu| | | |]; [discriminate H| | | |]; exact I.
  - apply IH. now apply orb_false_elim in H as [_ H].
Qed.

Lemma state_after_handled_event
  (history : list (Auth.Remote * Auth.Input)) (r : Auth.Remote)
  (firebaseUser : option Auth.FirebaseUser) :
  Auth.handled (r, Auth.AuthStateChanged firebaseUser) ->
  Auth.state_after (history ++ [(r, Auth.AuthStateChanged firebaseUser)])%list
  = {| Auth.user := Auth.formatUser firebaseUser; Auth.isLoading := false;
       Auth.authReady := true; Auth.initializing := false |}.
Proof.
  intros H. unfold Auth.state_after. rewrite state_from_app. cbn [Auth.state_from].
  generalize (Auth.state_from Auth.initial history). intros [u l ready ini].
  unfold Auth.handled in H. cbn [fst snd] in H.
  destruct firebaseUser as [fu|].
  - unfold Auth.handle, Auth.onAuthStateChanged_listener, Auth.saveAuthSession,
      Auth.handleAuthNavigation, Auth.formatUser, Auth.catch, Auth.mbind,
      Auth.emit, Auth.of_reply, Auth.raise, Auth.mret, Auth.setUser,
      Auth.setIsLoading, Auth.setAuthReady, Auth.setInitializing, Auth.state_of.
    destruct (Auth.setItem r _ _); destruct ready, ini; reflexivity.
  - unfold Auth.handle, Auth.onAuthStateChanged_listener, Auth.saveAuthSession,
      Auth.handleAuthNavigation, Auth.formatUser, Auth.catch, Auth.mbind,
      Auth.emit, Auth.of_reply, Auth.raise, Auth.mret, Auth.setUser,
      Auth.setIsLoading, Auth.setAuthReady, Auth.setInitializing, Auth.state_of.
    rewrite H. destruct ready, ini; reflexivity.
Qed.

(** X20. [Home] on top of the provider. Until an auth-state event has
    come in the screen shows the activity indicator, whatever the profile
    and whatever operations ran; so it does when the first event says
    signed out and the snapshot removal rejects. Once the listener has
    handled an event and the profile is loaded, the screen redirects: to
    "/onboarding/welcome" without a user; with a user, to
    "/setup/welcome" when the profile is falsy (missing), when its name
    is falsy (absent or empty) and when its name is "User", and to
    "/(tabs)" when the name is truthy and not "User". A truthy profile
    always has a [name] to read, so the cases are all there are. *)
Theorem Home_after_auth_history :
  forall (history : list (Auth.Remote * Auth.Input)) (updates : list Props)
         (prof : JsValue) (profLoading : bool) (r : Auth.Remote),
    (existsb Auth.is_event history = false ->
     shown (props_of (Auth.state_after history) prof profLoading)
           (after updates mount)
     = LoadingIndicator)
    /\ (existsb Auth.is_event history = false ->
        Auth.removeItem r Auth.AUTH_SESSION_KEY <> None ->
        shown (props_of
                 (Auth.state_after
                    (history ++ [(r, Auth.AuthStateChanged None)])%list)
                 prof profLoading)
              (after updates mount)
        = LoadingIndicator)
    /\ (forall firebaseUser,
          Auth.handled (r, Auth.AuthStateChanged firebaseUser) ->
          let view :=
            shown (props_of
                     (Auth.state_after
                        (history ++ [(r, Auth.AuthStateChanged firebaseUser)])%list)
                     prof false)
                  (after updates mount) in
          (firebaseUser = None -> view = Redirect "/onboarding/welcome")
          /\ (firebaseUser <> None ->
              (truthy prof = false -> view = Redirect "/setup/welcome")
              /\ (truthy prof = true ->
                  exists name, get_prop prof "name" = Some name)
              /\ (forall name,
                    truthy prof = true ->
                    get_prop prof "name" = Some name ->
                    (truthy name = false -> view = Redirect "/setup/welcome")
                    /\ (name = JStr "User" -> view = Redirect "/setup/welcome")
                    /\ (truthy name = true -> name <> JStr "User" ->
                        view = Redirect "/(tabs)")))).
Proof.
  intros history updates prof pl r.
  assert (Hshown : forall p, shown p (after updates mount)
                             = if settled p then landing p else LoadingIndicator).
  { intros p. apply shown_follows_props, unsettled_after. intros _. exact I. }
  assert (Hnot : existsb Auth.is_event history = false ->
                 Auth.authReady (Auth.state_after history) = false).
  { intros H. unfold Auth.state_after.
    destruct (@flags_from Auth.initial history (handled_without_event _ H))
      as [-> _]. now rewrite H. }
  split; [|split].
  - intros H. rewrite Hshown. unfold settled, props_of. cbn. now rewrite (Hnot H).
  - intros H Hrm. rewrite Hshown. unfold settled, props_of. cbn.
    unfold Auth.state_after in *. rewrite state_from_app. cbn [Auth.state_from].
    destruct (Auth.removeItem r Auth.AUTH_SESSION_KEY) as [e|] eqn:E;
      [|now contradiction Hrm].
    cbn [Auth.handle]. rewrite (@listener_stopped_by_rejection r e _ E).
    cbn. now rewrite (Hnot H).
  - intros fu Hh. cbv zeta.
    rewrite Hshown, (@state_after_handled_event history r fu Hh).
    destruct fu as [fu|].
    + split; [discriminate|]. intros _.
      unfold settled, landing, render, props_of, needsOnboarding. cbn.
      split; [|split].
      * intros ->. reflexivity.
      * intros Hp. destruct prof; try discriminate Hp; cbn; eauto.
      * intros name Hp Hname. rewrite Hp, Hname. cbn [negb].
        split; [|split].
        -- intros ->. reflexivity.
        -- intros ->. reflexivity.
        -- intros Ht Hn. rewrite Ht. cbn [negb orb].
           assert (Hu : is_User name = false).
           { destruct name as [| | | |s| |]; try reflexivity. cbn.
             destruct (String.eqb_spec s "User") as [->|_];
               [now contradiction Hn | reflexivity]. }
           now rewrite Hu.
    + split; [reflexivity|]. intros H. now contradiction H.
Qed.

Lemma Home_after_auth_history_witness :
  shown (props_of (Auth.state_after [(Auth.stormy, Auth.SignIn "a@b.c" "nope")])
                  JNull false) mount
  = LoadingIndicator
  /\ shown (props_of
              (Auth.state_after [(Auth.failing_storage, Auth.AuthStateChanged None)])
              JNull false) mount
     = LoadingIndicator
  /\ shown (props_of
              (Auth.state_after [(Auth.calm, Auth.AuthStateChanged None)])
              (JObj [("name", JStr "Alice")]) false) mount
     = Redirect "/onboarding/welcome"
  /\ shown (props_of
              (Auth.state_after [(Auth.calm, Auth.AuthStateChanged (Some Auth.alice))])
              JNull false) mount
     = Redirect "/setup/welcome"
  /\ shown (props_of
              (Auth.state_after [(Auth.calm, Auth.AuthStateChanged (Some Auth.alice))])
              (JObj [("age", JNum 30)]) false) mount
     = Redirect "/setup/welcome"
  /\ shown (props_of
              (Auth.state_after [(Auth.calm, Auth.AuthStateChanged (Some Auth.alice))])
              (JObj [("name", JStr "")]) false) mount
     = Redirect "/setup/welcome"
  /\ shown (props_of
              (Auth.state_after [(Auth.calm, Auth.AuthStateChanged (Some Auth.alice))])
              (JObj [("name", JStr "User")]) false) mount
     = Redirect "/setup/welcome"
  /\ shown (props_of
              (Auth.state_after [(Auth.calm, Auth.AuthStateChanged (Some Auth.alice))])
              (JObj [("name", JStr "Alice")]) false) mount
     = Redirect "/(tabs)".
Proof.
  assert (Hsome : Some Auth.alice <> None) by discriminate.
  pose proof (fun prof =>
                proj2 (proj2 (proj2 (@Home_after_auth_history [] [] prof false
                                       Auth.calm))
                         (Some Auth.alice) I) Hsome) as Huser.
  repeat apply conj.
  - exact (proj1 (@Home_after_auth_history
                    [(Auth.stormy, Auth.SignIn "a@b.c" "nope")] [] JNull false
                    Auth.calm) eq_refl).
  - refine (proj1 (proj2 (@Home_after_auth_history [] [] JNull false
                            Auth.failing_storage)) eq_refl _).
    discriminate.
  - exact (proj1 (proj2 (proj2 (@Home_after_auth_history [] []
                                  (JObj [("name", JStr "Alice")]) false Auth.calm))
                    None eq_refl) eq_refl).
  - exact (proj1 (Huser JNull) eq_refl).
  - exact (proj1 (proj2 (proj2 (Huser (JObj [("age", JNum 30)])))
                    JUndefined eq_refl eq_refl) eq_refl).
  - exact (proj1 (proj2 (proj2 (Huser (JObj [("name", JStr "")])))
                    (JStr "") eq_refl eq_refl) eq_refl).
  - exact (proj1 (proj2 (proj2 (proj2 (Huser (JObj [("name", JStr "User")])))
                           (JStr "User") eq_refl eq_refl)) eq_refl).
  - refine (proj2 (proj2 (proj2 (proj2 (Huser (JObj [("name", JStr "Alice")])))
                           (JStr "Alice") eq_refl eq_refl)) eq_refl _).
    discriminate.
Defined.

End Landing.

(** ** More on the RevenueCat set-up *)

Section BillingMore.
Import RevenueCat.

(** X21. With the product, entitlement and offering identifiers the
    source fixes, the validation can fail on the platform's API key only:
    it returns false exactly on ios with an empty iOS key and on android
    with an empty Android key; its three other checks never fire. *)
Theorem source_constants_leave_key_checks :
  forall (os ios_key android_key : string),
    validateRevenueCatConfig (source_config os ios_key android_key) = false
    <-> (os = "ios" /\ ios_key = "") \/ (os = "android" /\ android_key = "").
Proof.
  intros os i a. rewrite validate_false_iff.
  unfold checked_setting_empty, source_config. cbn. split.
  - intros [H|[H|[H|[H|[H|H]]]]]; try discriminate H; auto.
  - intros [H|H]; auto.
Qed.

Lemma source_constants_leave_key_checks_witness :
  validateRevenueCatConfig (source_config "android" "appl_key" "") = false
  /\ ~ (validateRevenueCatConfig (source_config "ios" "appl_key" "") = false).
Proof.
  split.
  - apply (proj2 (@source_constants_leave_key_checks "android" "appl_key" "")).
    right. split; reflexivity.
  - intros H.
    apply (proj1 (@source_constants_leave_key_checks "ios" "appl_key" "")) in H.
    destruct H as [[_ H]|[H _]]; discriminate H.
Defined.

(** X22. [Purchases.configure] is only ever called with the key
    [getApiKey] selects, and on ios and android that key is not empty;
    the customer-info fetch is made exactly in the runs that return
    true. *)
Theorem configure_key_on_mobile :
  forall (c : Config) (sdk : Sdk),
    (forall k,
        In (Purchases_configure k) (fst (configureRevenueCat c sdk)) ->
        k = getApiKey c
        /\ (Platform_OS c = "ios" \/ Platform_OS c = "android" -> k <> ""))
    /\ (In Purchases_getCustomerInfo (fst (configureRevenueCat c sdk))
        <-> snd (configureRevenueCat c sdk) = true).
Proof.
  intros c sdk. unfold configureRevenueCat.
  destruct (validateRevenueCatConfig c) eqn:Ev; cbn [negb].
  - assert (Hkey : Platform_OS c = "ios" \/ Platform_OS c = "android" ->
                   getApiKey c <> "").
    { intros Hos Hk.
      assert (Hbad : checked_setting_empty c).
      { unfold getApiKey in Hk.
        destruct (String.eqb_spec (Platform_OS c) "ios") as [Hi|Hi].
        - left. now split.
        - destruct Hos as [Hos|Hos]; [now contradiction Hi|].
          right. left. now split. }
      apply validate_false_iff in Hbad. congruence. }
    destruct (configure_rejects sdk (getApiKey c)).
    + split.
      * intros k [H|[]]. injection H as <-. now split.
      * cbn. split; [intros [H|[]]; discriminate H | discriminate].
    + assert (Hcalls : forall b : bool,
                 (if b
                  then ([Purchases_configure (getApiKey c);
                         Purchases_getCustomerInfo], true)
                  else ([Purchases_configure (getApiKey c);
                         Purchases_getCustomerInfo], true))
                 = ([Purchases_configure (getApiKey c);
                     Purchases_getCustomerInfo], true))
        by (intros []; reflexivity).
      rewrite Hcalls. cbn [fst snd]. split.
      * intros k [H|[H|[]]]; [|discriminate H]. injection H as <-. now split.
      * split; [reflexivity | intros _; right; left; reflexivity].
  - cbn. split; [intros k [] | split; [intros [] | discriminate]].
Qed.

Lemma configure_key_on_mobile_witness :
  "goog_key" = getApiKey (source_config "android" "appl_key" "goog_key")
  /\ "goog_key" <> ""
  /\ snd (configureRevenueCat (source_config "android" "appl_key" "goog_key")
            sdk_offline) = true.
Proof.
  destruct (@configure_key_on_mobile
              (source_config "android" "appl_key" "goog_key") sdk_offline)
    as [Hkey Hres].
  destruct (Hkey "goog_key") as [H1 H2]; [left; reflexivity|].
  split; [exact H1|]. split; [apply H2; right; reflexivity|].
  apply Hres. right. left. reflexivity.
Defined.

End BillingMore.

(** ** The build-time configuration *)

Section BuildConfig.
Import AppConfig.

Lemma nullish_cases (v : JsValue) (name : string) :
  get_prop v name = None <-> v = JNull \/ v = JUndefined.
Proof.
  destruct v; cbn; split; intros H; try discriminate H; auto;
    destruct H as [H|H]; discriminate H.
Qed.

Lemma setting_env (env : Env) (lc : JsValue) (var group key fallback v : string) :
  env var = Some v -> v <> "" ->
  setting env lc var group key fallback = Some (JStr v).
Proof.
  intros H Hv. unfold setting, env_var. rewrite H. cbn [truthy].
  destruct (String.eqb_spec v ""); [now contradiction Hv | reflexivity].
Qed.

Lemma setting_None_iff (env : Env) (lc : JsValue) (var group key fallback : string) :
  setting env lc var group key fallback = None
  <-> truthy (env_var env var) = false /\ (lc = JNull \/ lc = JUndefined).
Proof.
  unfold setting. destruct (truthy (env_var env var)).
  - split; [discriminate | intros [H _]; discriminate H].
  - rewrite <- (nullish_cases lc group).
    destruct (get_prop lc group); split; try discriminate; auto.
    intros [_ H]; discriminate H.
Qed.

Lemma geminiApiKey_None_iff (env : Env) (lc : JsValue) :
  geminiApiKey env lc = None
  <-> truthy (env_var env "GEMINI_API_KEY") = false
      /\ truthy (env_var env "EXPO_PUBLIC_GEMINI_API_KEY") = false
      /\ (lc = JNull \/ lc = JUndefined).
Proof.
  unfold geminiApiKey.
  destruct (truthy (env_var env "GEMINI_API_KEY")).
  - split; [discriminate | intros [H _]; discriminate H].
  - destruct (truthy (env_var env "EXPO_PUBLIC_GEMINI_API_KEY")).
    + split; [discriminate | intros (_ & H & _); discriminate H].
    + rewrite <- (nullish_cases lc "geminiApiKey").
      destruct (get_prop lc "geminiApiKey"); split; try discriminate; auto.
      intros (_ & _ & H); discriminate H.
Qed.

Lemma localConfig_nullish (env : Env) (file : LocalFile) :
  localConfig env file = JNull \/ localConfig env file = JUndefined
  <-> isEasBuild env = false
      /\ (file = Exports JNull \/ file = Exports JUndefined).
Proof.
  unfold localConfig. destruct (isEasBuild env).
  - split; [intros [H|H]; discriminate H | intros [H _]; discriminate H].
  - destruct file as [| |v].
    + split; [intros [H|H]; discriminate H | intros [_ [H|H]]; discriminate H].
    + split; [intros [H|H]; discriminate H | intros [_ [H|H]]; discriminate H].
    + split.
      * intros [->| ->]; auto.
      * intros [_ [H|H]]; injection H as ->; auto.
Qed.

Lemma setting_without_local (env : AppConfig.Env) (var group key fallback : string) :
  AppConfig.setting env (JObj []) var group key fallback
  = Some (if truthy (AppConfig.env_var env var) then AppConfig.env_var env var
          else JStr fallback).
Proof.
  unfold AppConfig.setting. destruct (truthy (AppConfig.env_var env var));
    reflexivity.
Qed.

Lemma localConfig_unused (env : AppConfig.Env) (file : AppConfig.LocalFile) :
  AppConfig.isEasBuild env = true \/ file = AppConfig.Absent
  \/ file = AppConfig.Unloadable ->
  AppConfig.localConfig env file = JObj [].
Proof.
  unfold AppConfig.localConfig. intros [H|[H|H]].
  - now rewrite H.
  - subst file. now destruct (AppConfig.isEasBuild env).
  - subst file. now destruct (AppConfig.isEasBuild env).
Qed.

Lemma extra_loads_without_local (env : AppConfig.Env) (file : AppConfig.LocalFile) :
  AppConfig.localConfig env file = JObj [] -> AppConfig.extra env file <> None.
Proof.
  intros H. unfold AppConfig.extra. rewrite H, !setting_without_local.
  cbn [AppConfig.and_then]. unfold AppConfig.geminiApiKey.
  destruct (truthy (AppConfig.env_var env "GEMINI_API_KEY")); [discriminate|].
  destruct (truthy (AppConfig.env_var env "EXPO_PUBLIC_GEMINI_API_KEY"));
    discriminate.
Qed.


(** X23. Loading the configuration throws in one situation only: outside
    an EAS build, with a local file whose export is [null] or
    [undefined], and some setting left to it by the environment. An
    absent file, a file that fails to load, and any other export never
    make it throw. *)
Theorem config_load_failure :
  forall (env : Env) (file : LocalFile),
    extra env file = None
    <-> isEasBuild env = false
        /\ (file = Exports JNull \/ file = Exports JUndefined)
        /\ all_from_env env = false.
Proof.
  intros env file. rewrite <- and_assoc, <- localConfig_nullish.
  unfold extra. generalize (localConfig env file). intros lc. split.
  - intros H. unfold all_from_env.
    repeat match type of H with
           | and_then (setting ?e ?l ?v ?g ?k ?f) _ = None =>
               let E := fresh "E" in
               destruct (setting e l v g k f) eqn:E;
               [cbn [and_then] in H
               |apply setting_None_iff in E as [E Hn]; split; [exact Hn|];
                rewrite E, ?andb_false_r; reflexivity]
           end.
    destruct (geminiApiKey env lc) eqn:Eg; [discriminate H|].
    apply geminiApiKey_None_iff in Eg as (Eg1 & Eg2 & Hn). split; [exact Hn|].
    now rewrite Eg1, Eg2, andb_false_r.
  - intros [Hn Hall]. unfold all_from_env in Hall.
    assert (Hs : forall var group key fallback,
               setting env lc var group key fallback
               = if truthy (env_var env var) then Some (env_var env var) else None).
    { intros var group key fallback. unfold setting.
      destruct (truthy (env_var env var)); [reflexivity|].
      now apply nullish_cases with (name := group) in Hn as ->. }
    assert (Hg : geminiApiKey env lc
                 = if truthy (env_var env "GEMINI_API_KEY")
                      || truthy (env_var env "EXPO_PUBLIC_GEMINI_API_KEY")
                   then geminiApiKey env lc else None).
    { unfold geminiApiKey.
      destruct (truthy (env_var env "GEMINI_API_KEY")); [reflexivity|].
      destruct (truthy (env_var env "EXPO_PUBLIC_GEMINI_API_KEY")); [reflexivity|].
      cbn. now apply nullish_cases with (name := "geminiApiKey") in Hn as ->. }
    rewrite Hg, !Hs.
    destruct (truthy (env_var env "FIREBASE_API_KEY")); [|reflexivity].
    destruct (truthy (env_var env "FIREBASE_AUTH_DOMAIN")); [|reflexivity].
    destruct (truthy (env_var env "FIREBASE_PROJECT_ID")); [|reflexivity].
    destruct (truthy (env_var env "FIREBASE_STORAGE_BUCKET")); [|reflexivity].
    destruct (truthy (env_var env "FIREBASE_MESSAGING_SENDER_ID")); [|reflexivity].
    destruct (truthy (env_var env "FIREBASE_APP_ID")); [|reflexivity].
    destruct (truthy (env_var env "REVENUECAT_API_KEY_IOS")); [|reflexivity].
    destruct (truthy (env_var env "REVENUECAT_API_KEY_ANDROID")); [|reflexivity].
    cbn [andb] in Hall. rewrite Hall. reflexivity.
Qed.

Lemma config_load_failure_witness :
  extra no_env (Exports JNull) = None
  /\ extra no_env Unloadable <> None.
Proof.
  split.
  - apply (proj2 (@config_load_failure no_env (Exports JNull))).
    split; [reflexivity|]. split; [left; reflexivity | reflexivity].
  - intros H. apply (proj1 (@config_load_failure no_env Unloadable)) in H.
    destruct H as (_ & [H|H] & _); discriminate H.
Defined.

(** X24. A variable set to a non-empty string decides its setting: the
    local file cannot override it. *)
Theorem env_takes_precedence :
  forall (env : Env) (file : LocalFile) (ex : JsValue) (field var v : string),
    extra env file = Some ex ->
    In (field, var) variables ->
    env var = Some v -> v <> "" ->
    get_prop ex field = Some (JStr v).
Proof.
  intros env file ex field var v H Hin Hvar Hv. unfold extra in H.
  repeat match type of H with
         | and_then (setting ?e ?l ?va ?g ?k ?f) _ = Some _ =>
             let S := fresh "S" in
             destruct (setting e l va g k f) eqn:S;
             [cbn [and_then] in H | discriminate H]
         end.
  destruct (geminiApiKey env (localConfig env file)) eqn:Eg; [|discriminate H].
  cbn [and_then] in H. injection H as <-.
  unfold variables in Hin. cbn [In] in Hin.
  repeat destruct Hin as [Hin|Hin]; try contradiction; injection Hin as <- <-;
    repeat match goal with
           | S : setting env ?l ?va ?g ?k ?f = Some _ |- _ =>
               first [ rewrite (@setting_env env l va g k f v Hvar Hv) in S;
                       injection S as <-
                     | clear S ]
           end;
    try reflexivity.
  unfold geminiApiKey, env_var in Eg. rewrite Hvar in Eg. cbn [truthy] in Eg.
  destruct (String.eqb_spec v ""); [now contradiction Hv|].
  cbn in Eg. injection Eg as <-. reflexivity.
Qed.

Lemma env_takes_precedence_witness :
  get_prop
    (JObj [("firebaseApiKey", JStr "AIzaSy-example");
           ("firebaseAuthDomain", JStr "YOUR_FIREBASE_AUTH_DOMAIN");
           ("firebaseProjectId", JStr "YOUR_FIREBASE_PROJECT_ID");
           ("firebaseStorageBucket", JStr "YOUR_FIREBASE_STORAGE_BUCKET");
           ("firebaseMessagingSenderId", JStr "YOUR_FIREBASE_MESSAGING_SENDER_ID");
           ("firebaseAppId", JStr "YOUR_FIREBASE_APP_ID");
           ("geminiApiKey", JStr "");
           ("revenueCatApiKeyIOS", JStr "appl_key");
           ("revenueCatApiKeyAndroid", JStr "");
           ("eas", JObj [("projectId", JStr "e8f43e11-6ca9-4b2f-8445-487ffdc1c69a")]);
           ("environment", JStr "development")])
    "revenueCatApiKeyIOS"
  = Some (JStr "appl_key").
Proof.
  apply (@env_takes_precedence store_env (Exports a_local_config) _
           "revenueCatApiKeyIOS" "REVENUECAT_API_KEY_IOS" "appl_key").
  - reflexivity.
  - cbn. auto 10.
  - reflexivity.
  - discriminate.
Defined.

(** X25. In an EAS build the local file is never consulted: the
    configuration is the one of a build without the file, and it always
    loads. A local file that fails to load counts as absent. *)
Theorem eas_build_ignores_local_file :
  forall (env : Env) (file : LocalFile),
    (isEasBuild env = true ->
     extra env file = extra env Absent /\ extra env file <> None)
    /\ extra env Unloadable = extra env Absent.
Proof.
  intros env file. split; [|reflexivity]. intros H. split.
  - unfold extra, localConfig. now rewrite H.
  - apply extra_loads_without_local, localConfig_unused. now left.
Qed.

Lemma eas_build_ignores_local_file_witness :
  extra store_env (Exports a_local_config) = extra store_env Absent
  /\ extra store_env (Exports JNull) <> None.
Proof.
  split.
  - apply (proj1 (@eas_build_ignores_local_file store_env (Exports a_local_config))).
    reflexivity.
  - apply (proj1 (@eas_build_ignores_local_file store_env (Exports JNull))).
    reflexivity.
Defined.

End BuildConfig.

(** ** Firebase set-up *)

Ltac split_extra H :=
  unfold AppConfig.extra in H;
  repeat match type of H with
         | AppConfig.and_then (AppConfig.setting ?e ?l ?va ?g ?k ?f) _ = Some _ =>
             let S := fresh "S" in
             destruct (AppConfig.setting e l va g k f) eqn:S;
             [cbn [AppConfig.and_then] in H | discriminate H]
         end;
  match type of H with
  | AppConfig.and_then (AppConfig.geminiApiKey ?e ?l) _ = Some _ =>
      let G := fresh "G" in
      destruct (AppConfig.geminiApiKey e l) eqn:G;
      [cbn [AppConfig.and_then] in H | discriminate H]
  end.

Section FirebaseSetup.
Import Firebase.

Lemma differs_from_js_or (v : JsValue) :
  differs_from (js_or v (JStr placeholder)) placeholder = true
  <-> truthy v = true /\ v <> JStr placeholder.
Proof.
  unfold js_or. destruct (truthy v) eqn:E.
  - destruct v; cbn; split; try (intros _; split; [reflexivity | discriminate]);
      try reflexivity.
    + intros H. split; [reflexivity|]. intros Heq. injection Heq as ->.
      discriminate H.
    + intros [_ H]. destruct (String.eqb_spec s placeholder) as [->|_];
        [now contradiction H | reflexivity].
  - cbn. split; [discriminate | intros [H _]; discriminate H].
Qed.

(** X26. [isFirebaseConfigured] answers true exactly when the Expo
    configuration gives both an API key and a project id that are truthy
    and are not the placeholder of [defaultConfig]; the four other fields
    play no part, and without an Expo configuration the answer is
    false. *)
Theorem isFirebaseConfigured_iff :
  forall (expoConfig : JsValue),
    isFirebaseConfigured (firebaseConfig expoConfig) = true
    <-> (truthy (AppConfig.opt_prop (AppConfig.opt_prop expoConfig "extra")
                   "firebaseApiKey") = true
         /\ AppConfig.opt_prop (AppConfig.opt_prop expoConfig "extra")
              "firebaseApiKey" <> JStr placeholder)
        /\ (truthy (AppConfig.opt_prop (AppConfig.opt_prop expoConfig "extra")
                      "firebaseProjectId") = true
            /\ AppConfig.opt_prop (AppConfig.opt_prop expoConfig "extra")
                 "firebaseProjectId" <> JStr placeholder).
Proof.
  intros expoConfig. unfold isFirebaseConfigured, firebaseConfig, from_extra.
  cbn [apiKey projectId].
  rewrite andb_true_iff, !differs_from_js_or. reflexivity.
Qed.

Lemma isFirebaseConfigured_iff_witness :
  isFirebaseConfigured
    (firebaseConfig
       (JObj [("extra", JObj [("firebaseApiKey", JStr "AIzaSy-example");
                              ("firebaseProjectId", JStr "calpal")])])) = true
  /\ ~ (isFirebaseConfigured (firebaseConfig JNull) = true).
Proof.
  split.
  - apply (proj2 (@isFirebaseConfigured_iff
                    (JObj [("extra", JObj [("firebaseApiKey", JStr "AIzaSy-example");
                                           ("firebaseProjectId", JStr "calpal")])]))).
    repeat split; try reflexivity; discriminate.
  - intros H. apply (proj1 (@isFirebaseConfigured_iff JNull)) in H.
    destruct H as [[H _] _]. discriminate H.
Defined.

(** X27. The module never throws and exports all or nothing: the four
    bindings are the SDK's handles when every call returned, and all four
    are the empty object as soon as one call threw, the app handle
    included even though [initializeApp] had returned. [getAuth] is used
    on web only, [initializeAuth] elsewhere only, and [initializeApp] is
    always the first call. *)
Theorem initialize_all_or_nothing :
  forall (Platform_OS : string) (config : FirebaseConfig) (sdk : Sdk),
    (snd (initialize Platform_OS config sdk) = all_handles
     \/ snd (initialize Platform_OS config sdk) = all_empty)
    /\ (snd (initialize Platform_OS config sdk) = all_handles
        <-> initializeApp_throws sdk config = false
            /\ (if Platform_OS =? "web" then getAuth_throws sdk
                else getReactNativePersistence_throws sdk
                     || initializeAuth_throws sdk) = false
            /\ getFirestore_throws sdk = false
            /\ getStorage_throws sdk = false)
    /\ hd_error (fst (initialize Platform_OS config sdk))
       = Some (InitializeApp config)
    /\ (In GetAuth (fst (initialize Platform_OS config sdk))
        -> Platform_OS = "web")
    /\ (In InitializeAuth (fst (initialize Platform_OS config sdk))
        -> Platform_OS <> "web").
Proof.
  intros os config sdk. unfold initialize.
  destruct (String.eqb_spec os "web") as [Hos|Hos];
    destruct (initializeApp_throws sdk config), (getAuth_throws sdk),
      (getReactNativePersistence_throws sdk), (initializeAuth_throws sdk),
      (getFirestore_throws sdk), (getStorage_throws sdk); cbn;
    (split; [auto|]);
    (split; [split; [intros H; try discriminate H; auto
                    |intros (H1 & H2 & H3 & H4);
                     try discriminate H1; try discriminate H2;
                     try discriminate H3; try discriminate H4; reflexivity]|]);
    (split; [reflexivity|]);
    (split; intros H; try exact Hos;
     repeat (destruct H as [H|H]; try discriminate H); try contradiction).
Qed.

Lemma initialize_all_or_nothing_witness :
  snd (initialize "ios" (firebaseConfig JNull) sdk_working) = all_handles
  /\ ~ (snd (initialize "ios" (firebaseConfig JNull) sdk_without_storage)
        = all_handles)
  /\ "ios" <> "web".
Proof.
  destruct (@initialize_all_or_nothing "ios" (firebaseConfig JNull) sdk_working)
    as (_ & Hall & _ & _ & Hnative).
  destruct (@initialize_all_or_nothing "ios" (firebaseConfig JNull)
              sdk_without_storage) as (_ & Hnone & _).
  split; [|split].
  - apply (proj2 Hall). repeat split; reflexivity.
  - intros H. apply (proj1 Hnone) in H. destruct H as (_ & _ & _ & H).
    discriminate H.
  - apply Hnative. cbn. auto.
Defined.

Lemma setting_truthy (env : AppConfig.Env) (lc x : JsValue)
  (var group key fallback : string) :
  AppConfig.setting env lc var group key fallback = Some x ->
  fallback <> "" -> truthy x = true.
Proof.
  unfold AppConfig.setting. intros H Hf.
  destruct (truthy (AppConfig.env_var env var)) eqn:E.
  - now injection H as <-.
  - destruct (get_prop lc group) as [g|]; [|discriminate H].
    injection H as <-. unfold js_or.
    destruct (truthy (AppConfig.opt_prop g key)) eqn:E'; [exact E'|].
    cbn. destruct (String.eqb_spec fallback ""); [now contradiction Hf | reflexivity].
Qed.

(** X28. Behind [app.config.js] the placeholders of [defaultConfig] are
    never used: every field of [firebaseConfig] is the truthy value the
    build put in [extra]. So a build with no Firebase variable and no
    local file runs with the API key "YOUR_FIREBASE_API_KEY", and
    [isFirebaseConfigured] answers true for it. *)
Theorem build_placeholders_count_as_configured :
  forall (env : AppConfig.Env) (file : AppConfig.LocalFile)
         (ex expoConfig : JsValue),
    AppConfig.extra env file = Some ex ->
    get_prop expoConfig "extra" = Some ex ->
    firebaseConfig expoConfig
    = {| apiKey := AppConfig.opt_prop ex "firebaseApiKey";
         authDomain := AppConfig.opt_prop ex "firebaseAuthDomain";
         projectId := AppConfig.opt_prop ex "firebaseProjectId";
         storageBucket := AppConfig.opt_prop ex "firebaseStorageBucket";
         messagingSenderId := AppConfig.opt_prop ex "firebaseMessagingSenderId";
         appId := AppConfig.opt_prop ex "firebaseAppId" |}
    /\ (AppConfig.isEasBuild env = true \/ file = AppConfig.Absent
        \/ file = AppConfig.Unloadable ->
        truthy (AppConfig.env_var env "FIREBASE_API_KEY") = false ->
        truthy (AppConfig.env_var env "FIREBASE_PROJECT_ID") = false ->
        apiKey (firebaseConfig expoConfig) = JStr "YOUR_FIREBASE_API_KEY"
        /\ projectId (firebaseConfig expoConfig) = JStr "YOUR_FIREBASE_PROJECT_ID"
        /\ isFirebaseConfigured (firebaseConfig expoConfig) = true).
Proof.
  intros env file ex expoConfig H Hex.
  assert (Hcfg : firebaseConfig expoConfig
    = {| apiKey := AppConfig.opt_prop ex "firebaseApiKey";
         authDomain := AppConfig.opt_prop ex "firebaseAuthDomain";
         projectId := AppConfig.opt_prop ex "firebaseProjectId";
         storageBucket := AppConfig.opt_prop ex "firebaseStorageBucket";
         messagingSenderId := AppConfig.opt_prop ex "firebaseMessagingSenderId";
         appId := AppConfig.opt_prop ex "firebaseAppId" |}).
  { unfold firebaseConfig, from_extra.
    unfold AppConfig.opt_prop at 2 4 6 8 10 12. rewrite Hex.
    pose proof H as H'. split_extra H'. injection H' as <-.
    unfold AppConfig.opt_prop, get_prop. cbn [lookup String.eqb Ascii.eqb Bool.eqb].
    unfold js_or.
    rewrite (@setting_truthy _ _ _ _ _ _ _ S), (@setting_truthy _ _ _ _ _ _ _ S0),
      (@setting_truthy _ _ _ _ _ _ _ S1), (@setting_truthy _ _ _ _ _ _ _ S2),
      (@setting_truthy _ _ _ _ _ _ _ S3), (@setting_truthy _ _ _ _ _ _ _ S4);
      try discriminate.
    reflexivity. }
  split; [exact Hcfg|]. intros Hlocal Hkey Hproj. rewrite Hcfg. cbn [apiKey projectId].
  pose proof H as H'. split_extra H'. injection H' as <-.
  rewrite (localConfig_unused _ Hlocal), setting_without_local in S, S1.
  rewrite Hkey in S. rewrite Hproj in S1. injection S as <-. injection S1 as <-.
  repeat split; reflexivity.
Qed.

Lemma build_placeholders_count_as_configured_witness :
  isFirebaseConfigured
    (firebaseConfig
       (JObj [("name", JStr "CalPal");
              ("extra",
               match AppConfig.extra AppConfig.no_env AppConfig.Absent with
               | Some ex => ex
               | None => JNull
               end)])) = true.
Proof.
  refine (proj2 (proj2 (proj2
    (@build_placeholders_count_as_configured AppConfig.no_env AppConfig.Absent
       _ (JObj [("name", JStr "CalPal"); ("extra", _)]) eq_refl eq_refl)
    _ eq_refl eq_refl))).
  right. left. reflexivity.
Defined.

End FirebaseSetup.

(** ** From the build environment to the billing SDK *)

Section BillingWiring.
Import RevenueCat.

Lemma key_without_local (env : AppConfig.Env) (var group key : string) :
  AppConfig.setting env (JObj []) var group key ""
  = Some (JStr (BillingKeys.key_of env var)).
Proof.
  rewrite setting_without_local. unfold AppConfig.env_var, BillingKeys.key_of.
  destruct (env var) as [s|]; [|reflexivity]. cbn [truthy].
  destruct (String.eqb_spec s "") as [->|_]; reflexivity.
Qed.

Lemma js_or_key (s : string) : js_or (JStr s) (JStr "") = JStr s.
Proof.
  unfold js_or. cbn [truthy].
  destruct (String.eqb_spec s "") as [->|_]; reflexivity.
Qed.

(** X29. Where the local file plays no part (an EAS build, or no
    loadable file) the billing keys are the two REVENUECAT variables of
    the build environment, unset meaning empty. On ios the SDK is then
    configured with the iOS variable as its key when that is set, and set
    up stops without any SDK call when it is not. *)
Theorem billing_keys_from_environment :
  forall (env : AppConfig.Env) (file : AppConfig.LocalFile)
         (ex expoConfig : JsValue) (sdk : Sdk),
    AppConfig.isEasBuild env = true \/ file = AppConfig.Absent
    \/ file = AppConfig.Unloadable ->
    AppConfig.extra env file = Some ex ->
    get_prop expoConfig "extra" = Some ex ->
    BillingKeys.config "ios" expoConfig
    = Some (source_config "ios"
              (BillingKeys.key_of env "REVENUECAT_API_KEY_IOS")
              (BillingKeys.key_of env "REVENUECAT_API_KEY_ANDROID"))
    /\ (BillingKeys.key_of env "REVENUECAT_API_KEY_IOS" = "" ->
        option_map (fun c => configureRevenueCat c sdk)
                   (BillingKeys.config "ios" expoConfig)
        = Some ([], false))
    /\ (BillingKeys.key_of env "REVENUECAT_API_KEY_IOS" <> "" ->
        option_map (fun c => hd_error (fst (configureRevenueCat c sdk)))
                   (BillingKeys.config "ios" expoConfig)
        = Some (Some (Purchases_configure
                        (BillingKeys.key_of env "REVENUECAT_API_KEY_IOS")))).
Proof.
  intros env file ex expoConfig sdk Hlocal H Hex.
  assert (Hcfg : BillingKeys.config "ios" expoConfig
                 = Some (source_config "ios"
                           (BillingKeys.key_of env "REVENUECAT_API_KEY_IOS")
                           (BillingKeys.key_of env "REVENUECAT_API_KEY_ANDROID"))).
  { unfold BillingKeys.config, BillingKeys.RC_API_KEYS_IOS,
      BillingKeys.RC_API_KEYS_ANDROID.
    unfold AppConfig.opt_prop at 2 4. rewrite Hex.
    pose proof H as H'. split_extra H'. injection H' as <-.
    rewrite (localConfig_unused _ Hlocal), key_without_local in S5, S6.
    injection S5 as <-. injection S6 as <-.
    unfold AppConfig.opt_prop, get_prop. cbn [lookup String.eqb Ascii.eqb Bool.eqb].
    now rewrite !js_or_key. }
  rewrite Hcfg. split; [reflexivity|]. cbn [option_map]. split.
  - intros Hk. rewrite Hk.
    assert (Hv : validateRevenueCatConfig
                   (source_config "ios" ""
                      (BillingKeys.key_of env "REVENUECAT_API_KEY_ANDROID")) = false)
      by reflexivity.
    unfold configureRevenueCat. now rewrite Hv.
  - intros Hk.
    assert (Hv : validateRevenueCatConfig
                   (source_config "ios"
                      (BillingKeys.key_of env "REVENUECAT_API_KEY_IOS")
                      (BillingKeys.key_of env "REVENUECAT_API_KEY_ANDROID")) = true).
    { unfold validateRevenueCatConfig, source_config, not_str. cbn.
      destruct (String.eqb_spec (BillingKeys.key_of env "REVENUECAT_API_KEY_IOS") "");
        [now contradiction Hk | reflexivity]. }
    unfold configureRevenueCat. rewrite Hv. cbn [negb].
    change (getApiKey (source_config "ios"
                         (BillingKeys.key_of env "REVENUECAT_API_KEY_IOS")
                         (BillingKeys.key_of env "REVENUECAT_API_KEY_ANDROID")))
      with (BillingKeys.key_of env "REVENUECAT_API_KEY_IOS").
    destruct (configure_rejects sdk _); [reflexivity|].
    destruct (getCustomerInfo_rejects sdk); reflexivity.
Qed.

Lemma billing_keys_from_environment_witness :
  option_map (fun c => configureRevenueCat c sdk_fine)
    (BillingKeys.config "ios"
       (JObj [("extra",
               match AppConfig.extra AppConfig.no_env AppConfig.Absent with
               | Some ex => ex
               | None => JNull
               end)]))
  = Some ([], false)
  /\ option_map (fun c => hd_error (fst (configureRevenueCat c sdk_fine)))
       (BillingKeys.config "ios"
          (JObj [("extra",
                  match AppConfig.extra AppConfig.store_env
                          (AppConfig.Exports AppConfig.a_local_config) with
                  | Some ex => ex
                  | None => JNull
                  end)]))
     = Some (Some (Purchases_configure "appl_key")).
Proof.
  split.
  - refine (proj1 (proj2
      (@billing_keys_from_environment AppConfig.no_env AppConfig.Absent _
         (JObj [("extra", _)]) sdk_fine _ eq_refl eq_refl)) eq_refl).
    right. left. reflexivity.
  - refine (proj2 (proj2
      (@billing_keys_from_environment AppConfig.store_env
         (AppConfig.Exports AppConfig.a_local_config) _
         (JObj [("extra", _)]) sdk_fine _ eq_refl eq_refl)) _).
    + left. reflexivity.
    + discriminate.
Defined.

End BillingWiring.

(** ** The stored snapshot *)

Section StoredSnapshot.
Import Snapshot.

Lemma encode_items_low (n : N) (items : list StrItem) :
  is_high_surrogate n = false ->
  encode_items (CodeUnit n :: items) = utf8 n ++ encode_items items.
Proof.
  intros H. cbn [encode_items]. destruct items as [|[c|lo] r]; try reflexivity.
  now rewrite H.
Qed.

Lemma parse_escape (e ch : ascii) (text rest : string) (items : list StrItem) :
  simple_escape e = Some ch ->
  parse_string_items text = Some (items, rest) ->
  parse_string_items (String "\" (String e text))
  = Some (RawByte ch :: items, rest).
Proof.
  intros He H. cbn [parse_string_items].
  change (Ascii.eqb "\" DQUOTE) with false.
  change (Ascii.eqb "\" "\") with true. cbv iota.
  now rewrite He, H.
Qed.

Lemma parse_raw (c : ascii) (text rest : string) (items : list StrItem) :
  c <> DQUOTE -> c <> "\"%char -> (N_of_ascii c <? 32)%N = false ->
  parse_string_items text = Some (items, rest) ->
  parse_string_items (String c text) = Some (RawByte c :: items, rest).
Proof.
  intros Hq Hb Hn H. cbn [parse_string_items].
  apply Ascii.eqb_neq in Hq, Hb. rewrite Hq, Hb.
  assert (Hn' : (nat_of_ascii c <? 32)%nat = false).
  { unfold nat_of_ascii. apply N.ltb_ge in Hn. apply Nat.ltb_ge. lia. }
  now rewrite Hn', H.
Qed.

Lemma hex_val_digit (k : N) :
  (k < 16)%N -> hex_val (hex_digit k) = Some k.
Proof.
  intros H.
  assert (Hk : (k = 0 \/ k = 1 \/ k = 2 \/ k = 3 \/ k = 4 \/ k = 5 \/ k = 6
                \/ k = 7 \/ k = 8 \/ k = 9 \/ k = 10 \/ k = 11 \/ k = 12
                \/ k = 13 \/ k = 14 \/ k = 15)%N) by lia.
  repeat destruct Hk as [->|Hk]; try reflexivity. now subst k.
Qed.

Lemma parse_unicode (n : N) (text rest : string) (items : list StrItem) :
  (n < 32)%N ->
  parse_string_items text = Some (items, rest) ->
  parse_string_items
    (String "\" (String "u" (String "0" (String "0"
       (String (hex_digit (n / 16)) (String (hex_digit (n mod 16)) text))))))
  = Some (CodeUnit n :: items, rest).
Proof.
  intros Hn H. cbn [parse_string_items].
  change (Ascii.eqb "\" DQUOTE) with false.
  change (Ascii.eqb "\" "\") with true. cbv iota.
  change (simple_escape "u") with (@None ascii).
  change (Ascii.eqb "u" "u") with true. cbv iota.
  unfold hex4. change (hex_val "0") with (Some 0%N).
  rewrite !hex_val_digit.
  - rewrite H. do 3 f_equal. f_equal.
    pose proof (N.div_mod n 16 ltac:(lia)) as Hd. lia.
  - apply N.mod_lt. lia.
  - apply N.Div0.div_lt_upper_bound. lia.
Qed.

(** One written character reads back as that character. *)
Lemma quote_char_parsed (c : ascii) (text rest : string) (items : list StrItem) :
  parse_string_items text = Some (items, rest) ->
  exists item,
    parse_string_items (quote_char c ++ text) = Some (item :: items, rest)
    /\ encode_items (item :: items) = String c (encode_items items).
Proof.
  intros H. unfold quote_char.
  assert (Hc : forall k, N_of_ascii c = k -> c = ascii_of_N k)
    by (intros k <-; now rewrite ascii_N_embedding).
  destruct (Ascii.eqb_spec c DQUOTE) as [->|Hq].
  { exists (RawByte DQUOTE). split; [|reflexivity].
    exact (@parse_escape DQUOTE DQUOTE _ _ _ eq_refl H). }
  destruct (Ascii.eqb_spec c "\") as [->|Hb].
  { exists (RawByte "\"). split; [|reflexivity].
    exact (@parse_escape "\" "\" _ _ _ eq_refl H). }
  destruct (N.eqb_spec (N_of_ascii c) 8) as [E|_].
  { apply Hc in E. subst c. exists (RawByte (chr 8)). split; [|reflexivity].
    exact (@parse_escape "b" (chr 8) _ _ _ eq_refl H). }
  destruct (N.eqb_spec (N_of_ascii c) 9) as [E|_].
  { apply Hc in E. subst c. exists (RawByte (chr 9)). split; [|reflexivity].
    exact (@parse_escape "t" (chr 9) _ _ _ eq_refl H). }
  destruct (N.eqb_spec (N_of_ascii c) 10) as [E|_].
  { apply Hc in E. subst c. exists (RawByte (chr 10)). split; [|reflexivity].
    exact (@parse_escape "n" (chr 10) _ _ _ eq_refl H). }
  destruct (N.eqb_spec (N_of_ascii c) 12) as [E|_].
  { apply Hc in E. subst c. exists (RawByte (chr 12)). split; [|reflexivity].
    exact (@parse_escape "f" (chr 12) _ _ _ eq_refl H). }
  destruct (N.eqb_spec (N_of_ascii c) 13) as [E|_].
  { apply Hc in E. subst c. exists (RawByte (chr 13)). split; [|reflexivity].
    exact (@parse_escape "r" (chr 13) _ _ _ eq_refl H). }
  destruct (N.ltb_spec (N_of_ascii c) 32) as [Hlow|Hhigh].
  - exists (CodeUnit (N_of_ascii c)). split.
    + exact (@parse_unicode (N_of_ascii c) _ _ _ Hlow H).
    + rewrite encode_items_low.
      * unfold utf8.
        destruct (N.ltb_spec (N_of_ascii c) 128) as [_|Hge]; [|lia].
        unfold byte. now rewrite ascii_N_embedding.
      * unfold is_high_surrogate.
        destruct (N.leb_spec 55296 (N_of_ascii c)) as [Hge|_]; [lia | reflexivity].
  - exists (RawByte c). split; [|reflexivity].
    apply parse_raw; try assumption. now apply N.ltb_ge.
Qed.

Lemma quote_body_parsed (s rest : string) :
  exists items,
    parse_string_items (quote_body s ++ String DQUOTE rest) = Some (items, rest)
    /\ encode_items items = s.
Proof.
  induction s as [|c s (items & IH & Henc)].
  - exists []. split; reflexivity.
  - cbn [quote_body]. rewrite string_app_assoc.
    destruct (@quote_char_parsed c _ _ _ IH) as (item & Hp & He).
    exists (item :: items). split; [exact Hp|]. now rewrite He, Henc.
Qed.

Lemma parse_string_quote (s rest : string) :
  parse_string (quote s ++ rest) = Some (s, rest).
Proof.
  unfold quote. cbn [append]. rewrite string_app_assoc. cbn [append].
  destruct (quote_body_parsed s rest) as (items & Hp & He).
  unfold parse_string. change (Ascii.eqb DQUOTE DQUOTE) with true. cbv iota.
  now rewrite Hp, He.
Qed.

Lemma parse_value_quote (fuel : nat) (s rest : string) :
  parse_value (S fuel) (quote s ++ rest) = Some (JStr s, rest).
Proof.
  pose proof (parse_string_quote s rest) as H.
  unfold quote in *. cbn [append] in *.
  cbn [parse_value]. cbv zeta.
  change (skip_ws (String DQUOTE ((quote_body s ++ String DQUOTE "") ++ rest)))
    with (String DQUOTE ((quote_body s ++ String DQUOTE "") ++ rest)).
  change (Ascii.eqb DQUOTE "{") with false.
  change (Ascii.eqb DQUOTE "[") with false.
  change (Ascii.eqb DQUOTE DQUOTE) with true. cbv iota.
  now rewrite H.
Qed.

Lemma digits_acc_lt (fuel : nat) :
  forall (n : N) (acc : list N),
    Forall (fun d => (d < 10)%N) acc ->
    Forall (fun d => (d < 10)%N) (digits_acc fuel n acc).
Proof.
  induction fuel as [|fuel IH]; intros n acc Hacc; [exact Hacc|].
  cbn [digits_acc]. destruct (N.ltb_spec n 10) as [Hn|Hn].
  - now constructor.
  - apply IH. constructor; [|exact Hacc]. apply N.mod_lt. lia.
Qed.

Lemma digits_acc_value (fuel : nat) :
  forall (n : N) (acc : list N),
    (n < 10 ^ N.of_nat fuel)%N ->
    fold_left (fun a d => a * 10 + d)%Z
      (map Z.of_N (digits_acc fuel n acc)) 0%Z
    = fold_left (fun a d => a * 10 + d)%Z (map Z.of_N acc) (Z.of_N n).
Proof.
  induction fuel as [|fuel IH]; intros n acc Hn.
  - cbn in Hn. assert (n = 0%N) as -> by lia. reflexivity.
  - cbn [digits_acc]. destruct (N.ltb_spec n 10) as [Hs|Hb].
    + reflexivity.
    + rewrite IH.
      * cbn [map fold_left]. f_equal.
        pose proof (N.div_mod n 10 ltac:(lia)) as Hd.
        rewrite N2Z.inj_div, N2Z.inj_mod. change (Z.of_N 10) with 10%Z.
        pose proof (Z.div_mod (Z.of_N n) 10 ltac:(lia)). lia.
      * apply N.Div0.div_lt_upper_bound.
        replace (N.of_nat (S fuel)) with (N.succ (N.of_nat fuel)) in Hn by lia.
        rewrite N.pow_succ_r' in Hn. exact Hn.
Qed.

Lemma digits_acc_head (fuel : nat) :
  forall (n : N) (acc : list N),
    (0 < n)%N -> (n < 10 ^ N.of_nat fuel)%N ->
    exists d rest, digits_acc fuel n acc = d :: rest /\ (0 < d)%N.
Proof.
  induction fuel as [|fuel IH]; intros n acc Hpos Hn.
  - cbn in Hn. lia.
  - cbn [digits_acc]. destruct (N.ltb_spec n 10) as [Hs|Hb].
    + now exists n, acc.
    + apply IH.
      * apply N.div_str_pos. lia.
      * apply N.Div0.div_lt_upper_bound.
        replace (N.of_nat (S fuel)) with (N.succ (N.of_nat fuel)) in Hn by lia.
        rewrite N.pow_succ_r' in Hn. exact Hn.
Qed.

Lemma digits_fuel (n : N) : (n < 10 ^ N.of_nat (S (N.to_nat (N.log2 n))))%N.
Proof.
  replace (N.of_nat (S (N.to_nat (N.log2 n)))) with (N.succ (N.log2 n)) by lia.
  destruct n as [|p]; [reflexivity|].
  pose proof (N.log2_spec (N.pos p) ltac:(lia)) as [_ H].
  eapply N.lt_le_trans; [exact H|].
  apply N.pow_le_mono_l. lia.
Qed.

Lemma digit_val_char (d : N) :
  (d < 10)%N ->
  digit_val (digit_char d) = Some (Z.of_N d)
  /\ is_ws (digit_char d) = false
  /\ (exists b0 b1 b2 b3, digit_char d = Ascii b0 b1 b2 b3 true true false false).
Proof.
  intros H.
  assert (Hd : (d = 0 \/ d = 1 \/ d = 2 \/ d = 3 \/ d = 4 \/ d = 5 \/ d = 6
                \/ d = 7 \/ d = 8 \/ d = 9)%N) by lia.
  repeat destruct Hd as [->|Hd]; try subst d;
    (split; [reflexivity|]; split; [reflexivity|]; repeat eexists).
Qed.

(** Written digits read back, up to the first character that is not a
    digit. *)
Lemma take_digits_text (ds : list N) (rest : string) :
  Forall (fun d => (d < 10)%N) ds ->
  take_digits rest = ([], rest) ->
  take_digits (digits_text ds ++ rest) = (map Z.of_N ds, rest).
Proof.
  intros Hds Hrest. induction Hds as [|d ds Hd _ IH]; [exact Hrest|].
  cbn [digits_text append take_digits map].
  destruct (@digit_val_char d Hd) as (-> & _). now rewrite IH.
Qed.

Lemma read_int_number (n : N) (rest : string) :
  take_digits rest = ([], rest) ->
  exists ds,
    read_int (digits_text (digits n) ++ rest) = Some (ds, rest)
    /\ digits_value ds = Z.of_N n.
Proof.
  intros Hrest.
  pose proof (@digits_acc_lt (S (N.to_nat (N.log2 n))) n [] (Forall_nil _)) as Hlt.
  pose proof (@digits_acc_value (S (N.to_nat (N.log2 n))) n [] (digits_fuel n))
    as Hval.
  fold (digits n) in Hlt, Hval. cbn [map fold_left] in Hval.
  destruct (N.eq_dec n 0) as [->|Hn].
  - exists [0%Z]. split; reflexivity.
  - destruct (@digits_acc_head (S (N.to_nat (N.log2 n))) n [] ltac:(lia)
                (digits_fuel n)) as (d & ds & Hds & Hpos).
    fold (digits n) in Hds. rewrite Hds in *.
    inversion Hlt as [|? ? Hd Hrest']; subst.
    exists (map Z.of_N (d :: ds)). split; [|exact Hval].
    cbn [digits_text append read_int map].
    destruct (@digit_val_char d Hd) as (-> & _).
    destruct (Z.eqb_spec (Z.of_N d) 0) as [E|_]; [lia|].
    now rewrite (@take_digits_text ds rest Hrest' Hrest).
Qed.

Lemma Qred_integer (z : Z) : Qred (z # 1) = z # 1.
Proof.
  unfold Qred.
  pose proof (Z.ggcd_gcd z 1) as Hg.
  pose proof (Z.ggcd_correct_divisors z 1) as Hd.
  destruct (Z.ggcd z 1) as [g [aa bb]]. cbn [fst snd] in *.
  rewrite Z.gcd_1_r in Hg. subst g. destruct Hd as [Ha Hb].
  rewrite Z.mul_1_l in Ha, Hb. now subst.
Qed.

Lemma digits_acc_nonempty (fuel : nat) :
  forall (n : N) (acc : list N), acc <> [] -> digits_acc fuel n acc <> [].
Proof.
  induction fuel as [|fuel IH]; intros n acc H; [exact H|].
  cbn [digits_acc]. destruct (n <? 10)%N; [discriminate|].
  apply IH. discriminate.
Qed.

(** A written number begins with a digit. *)
Lemma number_text_head (z : Z) (tail : string) :
  exists b0 b1 b2 b3 r,
    number_text z ++ tail = String (Ascii b0 b1 b2 b3 true true false false) r.
Proof.
  unfold number_text.
  pose proof (@digits_acc_lt (S (N.to_nat (N.log2 (Z.to_N z)))) (Z.to_N z) []
                (Forall_nil _)) as Hlt.
  fold (digits (Z.to_N z)) in Hlt.
  destruct (digits (Z.to_N z)) as [|d ds] eqn:E.
  - exfalso. revert E. unfold digits. cbn [digits_acc].
    destruct (Z.to_N z <? 10)%N; [discriminate|].
    apply digits_acc_nonempty. discriminate.
  - inversion Hlt as [|? ? Hd _]; subst.
    destruct (@digit_val_char d Hd) as (_ & _ & b0 & b1 & b2 & b3 & Hc).
    exists b0, b1, b2, b3, (digits_text ds ++ tail).
    cbn [digits_text append]. now rewrite Hc.
Qed.

Lemma parse_number_text (z : Z) (rest : string) :
  (0 <= z)%Z ->
  parse_number (number_text z ++ String "}" rest)
  = Some (inject_Z z, String "}" rest).
Proof.
  intros Hz. unfold parse_number.
  destruct (@read_int_number (Z.to_N z) (String "}" rest) eq_refl)
    as (ds & Hint & Hval).
  fold (number_text z) in Hint.
  destruct (number_text_head z (String "}" rest)) as (b0 & b1 & b2 & b3 & r & Hs).
  rewrite Hs in *.
  assert (Hsign : read_sign (String (Ascii b0 b1 b2 b3 true true false false) r)
                  = (false, String (Ascii b0 b1 b2 b3 true true false false) r))
    by (destruct b0, b1, b2, b3; reflexivity).
  rewrite Hsign, Hint.
  change (read_frac (String "}" rest)) with (Some (@nil Z, String "}" rest)).
  cbv beta iota.
  change (read_exp (String "}" rest)) with (Some (0%Z, String "}" rest)).
  cbv beta iota.
  rewrite app_nil_r, Hval. cbn [List.length Z.of_nat Z.sub Z.opp Z.add].
  unfold Q_of_decimal. cbn [Z.leb Z.compare Z.pow Z.pow_pos Pos.iter].
  rewrite Z2N.id by exact Hz. rewrite Z.mul_1_r.
  now rewrite Qred_integer.
Qed.

Lemma parse_value_number (fuel : nat) (z : Z) (rest : string) :
  (0 <= z)%Z ->
  parse_value (S fuel) (number_text z ++ String "}" rest)
  = Some (JNum (inject_Z z), String "}" rest).
Proof.
  intros Hz. pose proof (@parse_number_text z rest Hz) as Hn.
  destruct (number_text_head z (String "}" rest)) as (b0 & b1 & b2 & b3 & r & Hs).
  rewrite Hs in *. cbn [parse_value]. cbv zeta.
  assert (Hws : skip_ws (String (Ascii b0 b1 b2 b3 true true false false) r)
                = String (Ascii b0 b1 b2 b3 true true false false) r)
    by (destruct b0, b1, b2, b3; reflexivity).
  rewrite Hws.
  assert (H1 : Ascii.eqb (Ascii b0 b1 b2 b3 true true false false) "{" = false)
    by (destruct b0, b1, b2, b3; reflexivity).
  assert (H2 : Ascii.eqb (Ascii b0 b1 b2 b3 true true false false) "[" = false)
    by (destruct b0, b1, b2, b3; reflexivity).
  assert (H3 : Ascii.eqb (Ascii b0 b1 b2 b3 true true false false) DQUOTE = false)
    by (destruct b0, b1, b2, b3; reflexivity).
  assert (H4 : forall p, strip_prefix (String "t" p)
                 (String (Ascii b0 b1 b2 b3 true true false false) r) = None)
    by (intros p; destruct b0, b1, b2, b3; reflexivity).
  assert (H5 : forall p, strip_prefix (String "f" p)
                 (String (Ascii b0 b1 b2 b3 true true false false) r) = None)
    by (intros p; destruct b0, b1, b2, b3; reflexivity).
  assert (H6 : forall p, strip_prefix (String "n" p)
                 (String (Ascii b0 b1 b2 b3 true true false false) r) = None)
    by (intros p; destruct b0, b1, b2, b3; reflexivity).
  now rewrite H1, H2, H3, H4, H5, H6, Hn.
Qed.

Lemma skip_ws_quote (s tail : string) :
  skip_ws (quote s ++ tail) = quote s ++ tail.
Proof. reflexivity. Qed.

Lemma parse_value_null (fuel : nat) (tail : string) :
  parse_value (S fuel) ("null" ++ tail) = Some (JNull, tail).
Proof. reflexivity. Qed.

(** One [key:value,] member whose value is a string. *)
Lemma parse_member_string (fuel : nat) (k v tail : string)
  (acc : list (string * JsValue)) :
  parse_members (S (S fuel)) (quote k ++ ":" ++ quote v ++ "," ++ tail) acc
  = parse_members (S fuel) tail (set_field k (JStr v) acc).
Proof.
  cbn [parse_members]. rewrite skip_ws_quote, parse_string_quote.
  change (skip_ws (":" ++ quote v ++ "," ++ tail))
    with (String ":" (quote v ++ "," ++ tail)).
  change (Ascii.eqb ":" ":") with true. cbv iota.
  rewrite parse_value_quote.
  change (skip_ws ("," ++ tail)) with (String "," tail).
  change (Ascii.eqb "," ",") with true. cbv iota. reflexivity.
Qed.

Lemma parse_member_null (fuel : nat) (k tail : string)
  (acc : list (string * JsValue)) :
  parse_members (S (S fuel)) (quote k ++ ":" ++ "null" ++ "," ++ tail) acc
  = parse_members (S fuel) tail (set_field k JNull acc).
Proof.
  cbn [parse_members]. rewrite skip_ws_quote, parse_string_quote.
  change (skip_ws (":" ++ "null" ++ "," ++ tail))
    with (String ":" ("null" ++ "," ++ tail)).
  change (Ascii.eqb ":" ":") with true. cbv iota.
  rewrite parse_value_null.
  change (skip_ws ("," ++ tail)) with (String "," tail).
  change (Ascii.eqb "," ",") with true. cbv iota. reflexivity.
Qed.

(** The last member, whose value is a number. *)
Lemma parse_member_number (fuel : nat) (k : string) (z : Z) (tail : string)
  (acc : list (string * JsValue)) :
  (0 <= z)%Z ->
  parse_members (S (S fuel)) (quote k ++ ":" ++ number_text z ++ "}" ++ tail) acc
  = Some (JObj (set_field k (JNum (inject_Z z)) acc), tail).
Proof.
  intros Hz. cbn [parse_members]. rewrite skip_ws_quote, parse_string_quote.
  change (skip_ws (":" ++ number_text z ++ "}" ++ tail))
    with (String ":" (number_text z ++ "}" ++ tail)).
  change (Ascii.eqb ":" ":") with true. cbv iota.
  change ("}" ++ tail) with (String "}" tail).
  rewrite (@parse_value_number fuel z tail Hz).
  change (skip_ws (String "}" tail)) with (String "}" tail).
  change (Ascii.eqb "}" ",") with false.
  change (Ascii.eqb "}" "}") with true. cbv iota. reflexivity.
Qed.

(** X30. What [saveAuthSession] writes, [loadAuthSession] reads back:
    the text [JSON.stringify] produces for a session - whatever
    characters its user id and email hold, the email null or not -
    parses to an object with the same userId, email and lastLogin. A
    rejected read, no stored text, an empty one and one that is not JSON
    all load as null. *)
Theorem saved_session_loads_back :
  forall (session : Auth.AuthSession) (e : Auth.JsError),
    (0 <= Auth.lastLogin session < 10 ^ 21)%Z ->
    loadAuthSession (inr (Some (JSON_stringify session))) = session_value session
    /\ loadAuthSession (inl e) = JNull
    /\ loadAuthSession (inr None) = JNull
    /\ loadAuthSession (inr (Some "")) = JNull
    /\ loadAuthSession (inr (Some "{oops")) = JNull.
Proof.
  intros session e [Hz _]. split; [|repeat split; reflexivity].
  unfold loadAuthSession.
  assert (Hne : (JSON_stringify session =? "") = false) by reflexivity.
  rewrite Hne.
  assert (Hp : JSON_parse (JSON_stringify session) = Some (session_value session)).
  { apply JSON_parse_any_fuel. exists 5%nat, "". split; [|reflexivity].
    unfold JSON_stringify, session_value.
    set (tail := "," ++ quote "email" ++ ":"
                 ++ match Auth.session_email session with
                    | Some e0 => quote e0
                    | None => "null"
                    end
                 ++ "," ++ quote "lastLogin" ++ ":"
                 ++ number_text (Auth.lastLogin session) ++ "}").
    change (parse_value 5 ("{" ++ quote "userId" ++ ":"
                           ++ quote (Auth.userId session) ++ tail))
      with (parse_members 4 (quote "userId" ++ ":"
                             ++ quote (Auth.userId session) ++ tail) []).
    subst tail. rewrite parse_member_string.
    destruct (Auth.session_email session) as [em|].
    - rewrite parse_member_string.
      change (number_text (Auth.lastLogin session) ++ "}")
        with (number_text (Auth.lastLogin session) ++ "}" ++ "").
      now rewrite (@parse_member_number 0 "lastLogin" _ "" _ Hz).
    - rewrite parse_member_null.
      change (number_text (Auth.lastLogin session) ++ "}")
        with (number_text (Auth.lastLogin session) ++ "}" ++ "").
      now rewrite (@parse_member_number 0 "lastLogin" _ "" _ Hz). }
  now rewrite Hp.
Qed.

Lemma saved_session_loads_back_witness :
  loadAuthSession
    (inr (Some (JSON_stringify (session_of Auth.calm Auth.alice))))
  = JObj [("userId", JStr "u1"); ("email", JStr "alice@example.com");
          ("lastLogin", JNum 1700000000000)].
Proof.
  refine (proj1 (@saved_session_loads_back (session_of Auth.calm Auth.alice)
                   Auth.wrong_password _)).
  split; vm_compute; [discriminate | reflexivity].
Defined.

End StoredSnapshot.
